(** * Opportunity scoring core of the e-commerce research tool

    A shallow embedding of the two pure functions of [ai_analyzer.py] that
    carry the scoring logic, and of their near-copy:

    - [ProductAnalysisEngine.extract_numeric_score] (the score extractor),
    - [KeywordAnalyzer.extract_numeric_score] (its commercial-value twin),
    - [ProductAnalysisEngine.calculate_opportunity_score] (the weighted sum),

    and of the code of [ai_analyzer.py] around them: the four analysis steps
    that produce the factors ([analyze_market_trends], [analyze_competition]
    with [find_similar_products] and [extract_key_terms],
    [calculate_profit_potential], [assess_market_demand]), their
    composition [analyze_product_opportunity], the loop of
    [batch_analyze_products] with [save_analysis_results], and
    [KeywordAnalyzer.extract_keywords_from_response].  The language model
    and the database are outside the program: what they answer is an input
    of the functions that call them.

    Python floats are IEEE binary64 numbers: they are Rocq's primitive
    [float]s, whose operations the kernel evaluates bit for bit.  Python
    dictionaries are stdpp [gmap]s.  A text is a sequence of code points
    below 256 (a Rocq [string]); the regular expressions of the source are
    terms of a small syntax, run by a backtracking matcher with the priority
    order of Python's [re] module. *)

From Stdlib Require Import ZArith Lia List String Ascii Bool QArith Qpower Lqa.
From Stdlib Require Import Floats.
From stdpp Require Import gmap strings.

Set Warnings "-inexact-float".
Set Default Proof Using "Type".

Local Open Scope Z_scope.

(** ** Python results: a value or a raised exception *)

Inductive pyexc := TypeError | ValueError | OverflowError | KeyError.

Inductive pyresult (A : Type) :=
| Ok (a : A)
| Raise (e : pyexc).
Arguments Ok {A} a.
Arguments Raise {A} e.

#[global] Instance pyresult_ret : MRet pyresult := fun A a => Ok a.

#[global] Instance pyresult_bind : MBind pyresult := fun A B k r =>
  match r with
  | Ok a => k a
  | Raise e => Raise e
  end.

(** ** Texts *)

Abbreviation text := (list ascii).

Definition chars (s : string) : text := list_ascii_of_string s.

Definition code (c : ascii) : Z := Z.of_N (N_of_ascii c).

(** [str.lower()] on code points below 256: the capitals A-Z and the
    Latin-1 capitals U+00C0..U+00DE (the sign U+00D7 apart) move up by 32. *)
Definition lower_char (c : ascii) : ascii :=
  let n := code c in
  if ((65 <=? n) && (n <=? 90)) || ((192 <=? n) && (n <=? 222) && negb (n =? 215))
  then ascii_of_N (Z.to_N (n + 32))
  else c.

Definition py_lower (s : text) : text := map lower_char s.

(** ** Character classes of the patterns *)

Inductive charset :=
| CDigit                       (* \d *)
| CSpace                       (* \s *)
| CAnyOf (members : string)    (* the literal members of a [...] class *)
| CUnion (a b : charset).

(** [\d] on a [str] pattern is a Unicode decimal digit: below 256, 0-9. *)
Definition is_digit (c : ascii) : bool :=
  let n := code c in (48 <=? n) && (n <=? 57).

(** [\s] on a [str] pattern is Unicode white space: below 256, the
    controls 9..13 and 28..31, the blank, U+0085 and U+00A0. *)
Definition is_space (c : ascii) : bool :=
  let n := code c in
  ((9 <=? n) && (n <=? 13)) || ((28 <=? n) && (n <=? 32)) || (n =? 133) || (n =? 160).

Fixpoint in_charset (cs : charset) (c : ascii) : bool :=
  match cs with
  | CDigit => is_digit c
  | CSpace => is_space c
  | CAnyOf members => existsb (Ascii.eqb c) (chars members)
  | CUnion a b => in_charset a c || in_charset b c
  end.

(** ** Regular expressions and Python's backtracking search *)

Inductive regex :=
| RLit (s : string)            (* literal text *)
| RStar (cs : charset)         (* [cs]*  greedy *)
| RPlus (cs : charset)         (* [cs]+  greedy *)
| RSeq (r1 r2 : regex)
| RAlt (r1 r2 : regex)         (* r1|r2, r1 preferred *)
| ROpt (r : regex)             (* r?  greedy *)
| RGroup (r : regex).          (* ( r ), capturing group 1 *)

(** A state of the matcher: the text still to read, and what group 1 holds. *)
Abbreviation mstate := (text * option text)%type.

Fixpoint strip_prefix (p s : text) : option text :=
  match p, s with
  | [], _ => Some s
  | a :: p', b :: s' => if Ascii.eqb a b then strip_prefix p' s' else None
  | _ :: _, [] => None
  end.

(** Every way [[cs]*] can consume a prefix of [s], longest first. *)
Fixpoint star_set (cs : charset) (s : text) : list text :=
  match s with
  | c :: s' => if in_charset cs c then star_set cs s' ++ [s] else [s]
  | [] => [[]]
  end.

(** [rmatch r s g]: every way [r] can match a prefix of [s], in the order
    in which a backtracking matcher tries them; the head is the match
    Python reports. *)
Fixpoint rmatch (r : regex) (s : text) (g : option text) : list mstate :=
  match r with
  | RLit l =>
      match strip_prefix (chars l) s with
      | Some s' => [(s', g)]
      | None => []
      end
  | RStar cs => map (fun s' => (s', g)) (star_set cs s)
  | RPlus cs =>
      match s with
      | c :: s' => if in_charset cs c then map (fun t => (t, g)) (star_set cs s') else []
      | [] => []
      end
  | RSeq r1 r2 => flat_map (fun st => rmatch r2 (fst st) (snd st)) (rmatch r1 s g)
  | RAlt r1 r2 => rmatch r1 s g ++ rmatch r2 s g
  | ROpt r1 => rmatch r1 s g ++ [(s, g)]
  | RGroup r1 =>
      map (fun st => (fst st, Some (firstn (length s - length (fst st)) s))) (rmatch r1 s g)
  end.

(** [re.search]: the first start position, left to right, at which the
    pattern matches; the result is [match.group(1)]. *)
Fixpoint re_search (pattern : regex) (s : text) : option (option text) :=
  match rmatch pattern s None with
  | st :: _ => Some (snd st)
  | [] =>
      match s with
      | _ :: s' => re_search pattern s'
      | [] => None
      end
  end.

(** ** Floats of Python *)

(** The binary64 number nearest to [n / d] (ties to even), as [strtod]
    computes it: the IEEE division of the library, run on the two integers. *)
Definition ratio_to_float (n : Z) (d : positive) : float :=
  match n with
  | Zpos p => SF2Prim (SFdiv prec emax (S754_finite false p 0) (S754_finite false d 0))
  | _ => 0%float
  end.

Fixpoint digits_val_from (acc : Z) (s : text) : Z :=
  match s with
  | c :: s' => digits_val_from (10 * acc + (code c - 48)) s'
  | [] => acc
  end.

Definition digits_val (s : text) : Z := digits_val_from 0 s.

Fixpoint digits_prefix (s : text) : text * text :=
  match s with
  | c :: s' =>
      if is_digit c then let (d, r) := digits_prefix s' in (c :: d, r) else ([], s)
  | [] => ([], [])
  end.

(** [float(s)] for a plain decimal numeral: digits, optionally a point and
    digits, at least one digit in all.  [None] is [ValueError].  The other
    spellings [float] accepts (sign, exponent, blanks, underscores, inf,
    nan) are outside the numerals a capture group can hold and are not
    modelled. *)
Definition py_float (s : text) : option float :=
  let (ip, rest) := digits_prefix s in
  match rest with
  | [] =>
      match ip with
      | [] => None
      | _ :: _ => Some (ratio_to_float (digits_val ip) 1)
      end
  | c :: fp =>
      if Ascii.eqb c "."%char && forallb is_digit fp
         && negb (Nat.eqb (length ip + length fp) 0)
      then Some (ratio_to_float (digits_val (ip ++ fp)) (Z.to_pos (10 ^ Z.of_nat (length fp))))
      else None
  end.

(** [float(match.group(1))]: a group that took no part is [None], and
    [float(None)] raises [TypeError]. *)
Definition float_of_group (g : option text) : pyresult float :=
  match g with
  | None => Raise TypeError
  | Some s =>
      match py_float s with
      | Some f => Ok f
      | None => Raise ValueError
      end
  end.

(** [max(a, b)] and [min(a, b)] keep their first argument unless the second
    is strictly greater (resp. smaller). *)
Definition py_max (a b : float) : float := if (a <? b)%float then b else a.
Definition py_min (a b : float) : float := if (b <? a)%float then b else a.

(** ** Analysis records and rounding *)

(** The values an analysis record holds. *)
Inductive pyval :=
| PFloat (f : float)
| PInt (n : Z)
| PStr (s : string)
| PNone.

(** [d.get(key, default)] *)
Definition dict_get {V} (d : gmap string V) (key : string) (dflt : V) : V :=
  default dflt (d !! key).

(** [d[key]] *)
Definition dict_item {V} (d : gmap string V) (key : string) : pyresult V :=
  match d !! key with
  | Some v => Ok v
  | None => Raise KeyError
  end.

(** The float nearest to an [int]; [OverflowError] beyond the range. *)
Definition float_of_int (n : Z) : pyresult float :=
  match binary_normalize prec emax n 0 false with
  | S754_infinity _ => Raise OverflowError
  | r => Ok (SF2Prim r)
  end.

(** The float an arithmetic operand stands for: a float itself, an int
    converted; a string or [None] is no number ([TypeError]). *)
Definition as_float (v : pyval) : pyresult float :=
  match v with
  | PFloat f => Ok f
  | PInt n => float_of_int n
  | PStr _ | PNone => Raise TypeError
  end.

(** [v * w] for a float [w]. *)
Definition mul_float (v : pyval) (w : float) : pyresult float :=
  f ← as_float v; Ok (f * w)%float.

(** The integer nearest to [num / den], ties to the even one. *)
Definition round_half_even (num den : Z) : Z :=
  let q := num / den in
  match 2 * (num mod den) ?= den with
  | Lt => q
  | Gt => q + 1
  | Eq => if Z.even q then q else q + 1
  end.

(** [round(x, ndigits)] for a float and [ndigits >= 0]: the decimal with
    [ndigits] places nearest to the exact value of [x] (ties to even),
    converted back to the nearest float; zeros, infinities and NaN are
    returned as they are. *)
Definition py_round (x : float) (ndigits : N) : float :=
  match Prim2SF x with
  | S754_finite s m e =>
      let scale := 10 ^ Z.of_N ndigits in
      let k := round_half_even (Zpos m * 2 ^ Z.max e 0 * scale) (2 ^ Z.max (- e) 0) in
      let r := ratio_to_float k (Z.to_pos scale) in
      if s then (- r)%float else r
  | _ => x
  end.

(** ** The exceptions of the rest of the code *)

(** The functions around the scoring core meet two more kinds of failure:
    a method called on a value that lacks it ([None.lower()]), and whatever
    the database driver raises. *)
Inductive pyerror :=
| Builtin (e : pyexc)
| AttributeError
| DatabaseError.

Inductive pyoutcome (A : Type) :=
| Returns (a : A)
| Raises (e : pyerror).
Arguments Returns {A} a.
Arguments Raises {A} e.

#[global] Instance pyoutcome_ret : MRet pyoutcome := fun A a => Returns a.

#[global] Instance pyoutcome_bind : MBind pyoutcome := fun A B k r =>
  match r with
  | Returns a => k a
  | Raises e => Raises e
  end.

Definition of_result {A} (r : pyresult A) : pyoutcome A :=
  match r with
  | Ok a => Returns a
  | Raise e => Raises (Builtin e)
  end.

(** Code that updates a record in place and may raise: the state [S] is
    what the record holds, and an exception leaves it as it was by then. *)
Definition prog (S A : Type) : Type := S -> pyoutcome A * S.

#[global] Instance prog_ret {S} : MRet (prog S) := fun A a s => (Returns a, s).

#[global] Instance prog_bind {S} : MBind (prog S) := fun A B k m s =>
  match m s with
  | (Returns a, s') => k a s'
  | (Raises e, s') => (Raises e, s')
  end.

(** A call that does not touch the record. *)
Definition call {S A} (r : pyoutcome A) : prog S A := fun s => (r, s).

Definition read {S} : prog S S := fun s => (Returns s, s).

Definition update {S} (f : S -> S) : prog S unit := fun s => (Returns tt, f s).

(** ** Truth values and comparisons *)

(** The truth value of an operand of [and]: [None], zero and the empty
    string are false. *)
Definition truthy (v : pyval) : bool :=
  match v with
  | PFloat f => negb (f =? 0)%float
  | PInt n => negb (n =? 0)
  | PStr s => negb (String.eqb s "")
  | PNone => false
  end.

(** [f > k] for a float and an int: Python compares the two numbers
    exactly. *)
Definition float_gt_int (f : float) (k : Z) : bool :=
  match Prim2SF f with
  | S754_zero _ => k <? 0
  | S754_infinity s => negb s
  | S754_nan => false
  | S754_finite s m e =>
      let v := if s then Zneg m else Zpos m in
      if 0 <=? e then k <? v * 2 ^ e else k * 2 ^ (- e) <? v
  end.

(** [v > k] for an int literal [k]; a string or [None] cannot be ordered
    with an int ([TypeError]). *)
Definition gt_int (v : pyval) (k : Z) : pyresult bool :=
  match v with
  | PInt n => Ok (k <? n)
  | PFloat f => Ok (float_gt_int f k)
  | PStr _ | PNone => Raise TypeError
  end.

(** [f <= k] for a float and an int, exactly. *)
Definition float_le_int (f : float) (k : Z) : bool :=
  match Prim2SF f with
  | S754_zero _ => 0 <=? k
  | S754_infinity s => s
  | S754_nan => false
  | S754_finite s m e =>
      let v := if s then Zneg m else Zpos m in
      if 0 <=? e then v * 2 ^ e <=? k else v <=? k * 2 ^ (- e)
  end.

(** [v >= k] for a float literal [k]. *)
Definition ge_float (v : pyval) (k : float) : pyresult bool :=
  match v with
  | PFloat f => Ok (k <=? f)%float
  | PInt n => Ok (float_le_int k n)
  | PStr _ | PNone => Raise TypeError
  end.

(** [v and v > k], as a condition. *)
Definition and_gt_int (v : pyval) (k : Z) : pyresult bool :=
  if truthy v then gt_int v k else Ok false.

(** A non-empty list is true. *)
Definition nonempty {A} (l : list A) : bool :=
  match l with
  | [] => false
  | _ :: _ => true
  end.

(** ** More of [str] *)

Definition to_str (s : text) : string := string_of_list_ascii s.

(** [v[:n]]: only a string can be sliced. *)
Definition slice_to (v : pyval) (n : nat) : pyresult string :=
  match v with
  | PStr s => Ok (to_str (firstn n (chars s)))
  | _ => Raise TypeError
  end.

(** [v.lower()]: only a string has the method. *)
Definition str_lower (v : pyval) : pyoutcome string :=
  match v with
  | PStr s => Returns (to_str (py_lower (chars s)))
  | _ => Raises AttributeError
  end.

(** [s.strip()] removes the white space of [str.isspace] at both ends;
    below 256 it is the white space of [\s]. *)
Fixpoint py_lstrip (s : text) : text :=
  match s with
  | c :: s' => if is_space c then py_lstrip s' else s
  | [] => []
  end.

Definition py_strip (s : text) : text := rev (py_lstrip (rev (py_lstrip s))).

(** [s.split(sep)] for a separator of one character. *)
Fixpoint py_split (sep : ascii) (s : text) : list text :=
  match s with
  | [] => [[]]
  | c :: s' =>
      if Ascii.eqb c sep then [] :: py_split sep s'
      else match py_split sep s' with
           | piece :: pieces => (c :: piece) :: pieces
           | [] => [[c]]
           end
  end.

(** [sub in s] *)
Fixpoint py_contains (sub s : text) : bool :=
  match strip_prefix sub s with
  | Some _ => true
  | None =>
      match s with
      | _ :: s' => py_contains sub s'
      | [] => false
      end
  end.

(** [sep.join(pieces)] *)
Fixpoint py_join (sep : string) (pieces : list string) : string :=
  match pieces with
  | [] => ""
  | [piece] => piece
  | piece :: rest => piece +:+ sep +:+ py_join sep rest
  end.

Definition newline : ascii := "010"%char.

(** ** Patterns with word boundaries, and [re.findall] *)

(** [\w] on a [str] pattern is an alphanumeric character or the underscore:
    below 256, the digits, the letters of ASCII and Latin-1, the
    superscripts and fractions, the ordinal indicators and the micro sign. *)
Definition is_word (c : ascii) : bool :=
  let n := code c in
  ((48 <=? n) && (n <=? 57)) || ((65 <=? n) && (n <=? 90)) || (n =? 95)
  || ((97 <=? n) && (n <=? 122)) || (n =? 170) || (n =? 178) || (n =? 179)
  || (n =? 181) || (n =? 185) || (n =? 186) || ((188 <=? n) && (n <=? 190))
  || ((192 <=? n) && (n <=? 214)) || ((216 <=? n) && (n <=? 246))
  || ((248 <=? n) && (n <=? 255)).

Inductive wregex :=
| WBoundary                                            (* \b *)
| WRepeat (cs : charset) (lo : nat) (hi : option nat)  (* [cs]{lo,hi}  greedy *)
| WSeq (r1 r2 : wregex).

(** A position in the text: the character before it, if any, and the text
    from it on. *)
Abbreviation wstate := (option ascii * text)%type.

Definition word_before (st : wstate) : bool :=
  match fst st with
  | Some c => is_word c
  | None => false
  end.

Definition word_after (st : wstate) : bool :=
  match snd st with
  | c :: _ => is_word c
  | [] => false
  end.

(** [\b] holds where exactly one of the two neighbours is a word
    character. *)
Definition at_boundary (st : wstate) : bool := xorb (word_before st) (word_after st).

Definition hi_reached (hi : option nat) : bool :=
  match hi with
  | Some O => true
  | _ => false
  end.

(** Every way [[cs]{lo,hi}] can consume a prefix of [s], longest first. *)
Fixpoint repeat_set (cs : charset) (lo : nat) (hi : option nat)
    (prev : option ascii) (s : text) : list wstate :=
  let here := match lo with O => [(prev, s)] | S _ => [] end in
  match s with
  | c :: s' =>
      if in_charset cs c && negb (hi_reached hi)
      then repeat_set cs (Nat.pred lo) (Nat.pred <$> hi) (Some c) s' ++ here
      else here
  | [] => here
  end.

Fixpoint wmatch (r : wregex) (st : wstate) : list wstate :=
  match r with
  | WBoundary => if at_boundary st then [st] else []
  | WRepeat cs lo hi => repeat_set cs lo hi (fst st) (snd st)
  | WSeq r1 r2 => flat_map (wmatch r2) (wmatch r1 st)
  end.

(** [re.findall] for a pattern without groups: the matches met from left
    to right, each search starting where the match before ended.  [skip]
    counts the characters of the last match still to pass.  An empty match
    is reported and the search moves on by one character; in this syntax
    the empty match comes last among the matches at a position, so that no
    other match is lost there. *)
Fixpoint findall_from (pattern : wregex) (skip : nat) (prev : option ascii) (s : text)
  : list text :=
  match skip with
  | S k =>
      match s with
      | c :: s' => findall_from pattern k (Some c) s'
      | [] => []
      end
  | O =>
      match wmatch pattern (prev, s) with
      | st :: _ =>
          let n := (length s - length (snd st))%nat in
          firstn n s ::
            match s with
            | c :: s' => findall_from pattern (Nat.pred n) (Some c) s'
            | [] => []
            end
      | [] =>
          match s with
          | c :: s' => findall_from pattern 0 (Some c) s'
          | [] => []
          end
      end
  end.

Definition findall (pattern : wregex) (s : text) : list text :=
  findall_from pattern 0 None s.

Definition ascii_letters : charset :=                   (* [a-zA-Z] *)
  CAnyOf "abcdefghijklmnopqrstuvwxyzABCDEFGHIJKLMNOPQRSTUVWXYZ".

(** ** The score extractors *)

(** The numeral every pattern captures: [\d+(?:\.\d+)?]. *)
Definition numeral : regex :=
  RSeq (RPlus CDigit) (ROpt (RSeq (RLit ".") (RPlus CDigit))).

Definition label_sep : charset := CUnion (CAnyOf ":") CSpace.     (* [:\s] *)
Definition slash_sep : charset := CUnion (CAnyOf "/") CSpace.     (* [/\s] *)

Module ProductAnalysisEngine.

(** [score[:\s]+(\d+(?:\.\d+)?)] *)
Definition pattern_score : regex :=
  RSeq (RLit "score") (RSeq (RPlus label_sep) (RGroup numeral)).

(** [(\d+(?:\.\d+)?)[/\s]*(?:out of |/)?\s*10] *)
Definition pattern_out_of_10 : regex :=
  RSeq (RGroup numeral)
    (RSeq (RStar slash_sep)
       (RSeq (ROpt (RAlt (RLit "out of ") (RLit "/")))
          (RSeq (RStar CSpace) (RLit "10")))).

(** [rating[:\s]+(\d+(?:\.\d+)?)] *)
Definition pattern_rating : regex :=
  RSeq (RLit "rating") (RSeq (RPlus label_sep) (RGroup numeral)).

(** [(\d+(?:\.\d+)?)[/\s]*10] *)
Definition pattern_slash_10 : regex :=
  RSeq (RGroup numeral) (RSeq (RStar slash_sep) (RLit "10")).

Definition patterns : list regex :=
  [pattern_score; pattern_out_of_10; pattern_rating; pattern_slash_10].

(** The [for pattern in patterns] loop. *)
Fixpoint score_loop (patterns : list regex) (txt : text) (default : float)
  : pyresult float :=
  match patterns with
  | [] => Ok default
  | pattern :: rest =>
      match re_search pattern (py_lower txt) with
      | Some g =>
          match float_of_group g with
          | Ok score => Ok (py_min 10.0 (py_max 1.0 score))
          | Raise ValueError => score_loop rest txt default
          | Raise e => Raise e
          end
      | None => score_loop rest txt default
      end
  end.

Definition extract_numeric_score (txt : string) (default : float) : pyresult float :=
  score_loop patterns (chars txt) default.

(** The opportunity scorer. *)
Definition weights : gmap string float :=
  {[ "trend_score" := 0.25%float;
     "profit_potential" := 0.30%float;
     "market_demand" := 0.30%float;
     "competition_score" := 0.15%float ]}.

Definition competition_scores : gmap string float :=
  {[ "Low" := 9.0%float;
     "Medium" := 6.0%float;
     "High" := 4.0%float;
     "Very High" := 2.0%float;
     "Unknown" := 5.0%float ]}.

(** [competition_scores.get(analysis.get('competition_level', 'Unknown'), 5.0)]:
    the keys of the table are strings, so no other value finds an entry. *)
Definition competition_score (analysis : gmap string pyval) : float :=
  match dict_get analysis "competition_level" (PStr "Unknown") with
  | PStr level => dict_get competition_scores level 5.0%float
  | _ => 5.0%float
  end.

(** [analysis.get(key, 5.0) * weights[key]] *)
Definition weighted (analysis : gmap string pyval) (key : string) : pyresult float :=
  let v := dict_get analysis key (PFloat 5.0) in
  w ← dict_item weights key;
  mul_float v w.

Definition calculate_opportunity_score (analysis : gmap string pyval) : pyresult float :=
  let competition_score := competition_score analysis in
  t ← weighted analysis "trend_score";
  p ← weighted analysis "profit_potential";
  tp ← Ok (t + p)%float;
  m ← weighted analysis "market_demand";
  tpm ← Ok (tp + m)%float;
  w ← dict_item weights "competition_score";
  opportunity_score ← Ok (tpm + competition_score * w)%float;
  Ok (py_round opportunity_score 2).

(** *** The analysis steps around the scorer *)

(** A product is a dictionary whose values are floats, ints, strings or
    [None], as an analysis record is.

    What the outside world answers during the analysis of one product: the
    replies of the language model to the three prompts (a reply is any
    string; [query_llama] turns its own failures into one), what the
    database does with the query of [find_similar_products] and its
    parameters (rows, or an exception), and whether the insertion of the
    results and the rollback go through.  The prompts themselves, built
    from the product, are not modelled. *)
Record outside := {
  trend_response : string;
  demand_response : string;
  recommendation_response : string;
  execute : string -> list string -> pyoutcome (list (gmap string pyval));
  insert_metrics : pyoutcome unit;
  rollback : pyoutcome unit }.

(** [\b[a-zA-Z]{3,}\b] *)
Definition pattern_term : wregex :=
  WSeq WBoundary (WSeq (WRepeat ascii_letters 3 None) WBoundary).

Definition stop_words : gset string :=
  {[ "the"; "a"; "an"; "and"; "or"; "but"; "in"; "on"; "at"; "to"; "for"; "of";
     "with"; "by"; "new"; "used" ]}.

(** [re.findall], the comprehension over the words, and [key_terms[:5]]. *)
Definition extract_key_terms (title : string) : list string :=
  let words := map to_str (findall pattern_term (py_lower (chars title))) in
  let key_terms := List.filter (fun word => negb (bool_decide (word ∈ stop_words))) words in
  firstn 5 key_terms.

(** The conditions of the query and their parameters, appended in pairs. *)
Definition search_conditions (title category platform : string)
  : list string * list string :=
  let key_terms := extract_key_terms title in
  let search_conditions := [] in
  let params := [] in
  let '(search_conditions, params) :=
    if nonempty key_terms
    then (search_conditions ++ ["LOWER(title) SIMILAR TO %s"],
          params ++ ["%" +:+ py_join "%" key_terms +:+ "%"])
    else (search_conditions, params) in
  let '(search_conditions, params) :=
    if negb (String.eqb category "")
    then (search_conditions ++ ["LOWER(category) = %s"], params ++ [category])
    else (search_conditions, params) in
  let '(search_conditions, params) :=
    if negb (String.eqb platform "")
    then (search_conditions ++ ["LOWER(platform) != %s"], params ++ [platform])
    else (search_conditions, params) in
  (search_conditions, params).

(** The f-string of the query, with its line breaks and indentation. *)
Definition similar_query (search_conditions : list string) : string :=
  let indent := String newline "                " in
  indent +:+ "SELECT * FROM products "
  +:+ indent +:+ "WHERE " +:+ py_join " AND " search_conditions
  +:+ indent +:+ "LIMIT 100"
  +:+ indent.

(** The body of the [try]; [None] when it ends without a [return]. *)
Definition find_similar_products_try (w : outside) (product : gmap string pyval)
  : pyoutcome (option (list (gmap string pyval))) :=
  title ← str_lower (dict_get product "title" (PStr ""));
  category ← str_lower (dict_get product "category" (PStr ""));
  platform ← str_lower (dict_get product "platform" (PStr ""));
  let '(search_conditions, params) := search_conditions title category platform in
  if nonempty search_conditions
  then rows ← execute w (similar_query search_conditions) params; Returns (Some rows)
  else Returns None.

Definition find_similar_products (w : outside) (product : gmap string pyval)
  : list (gmap string pyval) :=
  match find_similar_products_try w product with
  | Returns (Some rows) => rows
  | Returns None | Raises _ => []
  end.

(** [ai_response] is the reply of the model to the trend prompt. *)
Definition analyze_market_trends (w : outside) (product : gmap string pyval)
  : pyoutcome (gmap string pyval) :=
  let ai_response := trend_response w in
  trend_score ← of_result (extract_numeric_score ai_response 5.0);
  Returns {[ "score" := PFloat (py_min 10.0 (py_max 1.0 trend_score));
             "explanation" := PStr ai_response ]}.

Definition analyze_competition (w : outside) (product : gmap string pyval)
  : gmap string pyval :=
  let similar_products := find_similar_products w product in
  let competition_count := length similar_products in
  let '(level, score) :=
    if (competition_count <? 10)%nat then ("Low", 8.0%float)
    else if (competition_count <? 50)%nat then ("Medium", 6.0%float)
    else if (competition_count <? 200)%nat then ("High", 4.0%float)
    else ("Very High", 2.0%float) in
  {[ "level" := PStr level;
     "score" := PFloat score;
     "competitor_count" := PInt (Z.of_nat competition_count) ]}.

Definition margin_estimates : gmap string float :=
  {[ "ebay" := 0.25%float;
     "amazon" := 0.15%float;
     "etsy" := 0.35%float;
     "shopify" := 0.45%float ]}.

(** [estimated_profit > 50] compares a float with an int; the bonus for
    the sales is guarded by the truth value of [sales_count]. *)
Definition calculate_profit_potential (product : gmap string pyval)
  : pyoutcome (gmap string pyval) :=
  let price := dict_get product "price" (PInt 0) in
  let sales_count := dict_get product "sales_count" (PInt 0) in
  platform ← str_lower (dict_get product "platform" (PStr ""));
  let estimated_margin := dict_get margin_estimates platform 0.25%float in
  estimated_profit ← of_result (mul_float price estimated_margin);
  let score :=
    if float_gt_int estimated_profit 50 then 9.0%float
    else if float_gt_int estimated_profit 25 then 7.0%float
    else if float_gt_int estimated_profit 10 then 5.0%float
    else if float_gt_int estimated_profit 5 then 3.0%float
    else 2.0%float in
  score ← of_result
    (many ← and_gt_int sales_count 100;
     if (many : bool) then Ok (py_min 10.0 (score + 1.5))
     else
       some ← and_gt_int sales_count 50;
       if (some : bool) then Ok (py_min 10.0 (score + 1.0)) else Ok score);
  Returns {[ "score" := PFloat score;
             "estimated_profit" := PFloat estimated_profit;
             "estimated_margin" := PFloat estimated_margin ]}.

(** Here the comparisons of the counts are not guarded. *)
Definition assess_market_demand (w : outside) (product : gmap string pyval)
  : pyoutcome (gmap string pyval) :=
  let sales_count := dict_get product "sales_count" (PInt 0) in
  let review_count := dict_get product "review_count" (PInt 0) in
  let ai_response := demand_response w in
  of_result
    (demand_score ← extract_numeric_score ai_response 5.0;
     many ← gt_int sales_count 1000;
     demand_score ←
       (if (many : bool) then Ok (py_min 10.0 (demand_score + 1.5))
        else
          some ← gt_int sales_count 100;
          if (some : bool) then Ok (py_min 10.0 (demand_score + 1.0)) else Ok demand_score);
     reviewed ← gt_int review_count 500;
     let demand_score :=
       if (reviewed : bool) then py_min 10.0 (demand_score + 1.0) else demand_score in
     Ok {[ "score" := PFloat (py_min 10.0 (py_max 1.0 demand_score));
           "explanation" := PStr ai_response ]}).

(** The reply to the prompt built from the product and the analysis. *)
Definition get_ai_recommendation (w : outside) (product analysis : gmap string pyval)
  : string :=
  recommendation_response w.

(** The record is updated in place inside one [try]: when a step raises,
    the handler prints and what the record holds by then is returned.  Its
    entries ['risk_factors'] and ['success_indicators'], two empty lists
    that no function of the file reads or writes, are left out: the values
    of a record are scalars. *)
Definition analyze_product_opportunity (w : outside) (product : gmap string pyval)
  : gmap string pyval :=
  let analysis_result : gmap string pyval :=
    {[ "trend_score" := PFloat 0.0;
       "competition_level" := PStr "Unknown";
       "profit_potential" := PFloat 0.0;
       "market_demand" := PFloat 0.0;
       "keyword_difficulty" := PFloat 0.0;
       "opportunity_score" := PFloat 0.0;
       "ai_recommendation" := PStr "" ]} in
  let body : prog (gmap string pyval) unit :=
    trend_analysis ← call (analyze_market_trends w product);
    trend_score ← call (of_result (dict_item trend_analysis "score"));
    _ ← update <["trend_score" := trend_score]>;
    competition_analysis ← call (Returns (analyze_competition w product));
    level ← call (of_result (dict_item competition_analysis "level"));
    _ ← update <["competition_level" := level]>;
    profit_analysis ← call (calculate_profit_potential product);
    profit_score ← call (of_result (dict_item profit_analysis "score"));
    _ ← update <["profit_potential" := profit_score]>;
    demand_analysis ← call (assess_market_demand w product);
    demand_score ← call (of_result (dict_item demand_analysis "score"));
    _ ← update <["market_demand" := demand_score]>;
    analysis ← read;
    let ai_recommendation := get_ai_recommendation w product analysis in
    _ ← update <["ai_recommendation" := PStr ai_recommendation]>;
    analysis ← read;
    opportunity_score ← call (of_result (calculate_opportunity_score analysis));
    update <["opportunity_score" := PFloat opportunity_score]> in
  snd (body analysis_result).

(** [try: execute; commit  except Exception: print; rollback]: an exception
    of the rollback is not caught. *)
Definition save_analysis_results (w : outside) (product_id : pyval)
    (analysis : gmap string pyval) : pyoutcome unit :=
  match insert_metrics w with
  | Returns _ => Returns tt
  | Raises _ => rollback w
  end.

(** [analysis_results] of the batch. *)
Record batch_counts := {
  total_analyzed : Z;
  high_opportunity : Z;
  medium_opportunity : Z;
  low_opportunity : Z;
  recommendations : list (gmap string pyval) }.

(** The body of the inner [try], for one product. *)
Definition batch_body (w : outside) (product : gmap string pyval)
  : prog batch_counts unit :=
  title ← call (of_result (dict_item product "title"));
  _ ← call (of_result (slice_to title 50));
  let analysis := analyze_product_opportunity w product in
  product_id ← call (of_result (dict_item product "id"));
  _ ← call (save_analysis_results w product_id analysis);
  _ ← update (fun r => {| total_analyzed := total_analyzed r + 1;
                          high_opportunity := high_opportunity r;
                          medium_opportunity := medium_opportunity r;
                          low_opportunity := low_opportunity r;
                          recommendations := recommendations r |});
  let score := dict_get analysis "opportunity_score" (PInt 0) in
  high ← call (of_result (ge_float score 7.5));
  if (high : bool) then
    _ ← update (fun r => {| total_analyzed := total_analyzed r;
                            high_opportunity := high_opportunity r + 1;
                            medium_opportunity := medium_opportunity r;
                            low_opportunity := low_opportunity r;
                            recommendations := recommendations r |});
    title ← call (of_result (dict_item product "title"));
    platform ← call (of_result (dict_item product "platform"));
    update (fun r => {| total_analyzed := total_analyzed r;
                        high_opportunity := high_opportunity r;
                        medium_opportunity := medium_opportunity r;
                        low_opportunity := low_opportunity r;
                        recommendations := recommendations r ++
                          [ {[ "product" := title;
                               "platform" := platform;
                               "score" := score;
                               "recommendation" :=
                                 dict_get analysis "ai_recommendation" (PStr "") ]} ] |})
  else
    medium ← call (of_result (ge_float score 5.5));
    if (medium : bool) then
      update (fun r => {| total_analyzed := total_analyzed r;
                          high_opportunity := high_opportunity r;
                          medium_opportunity := medium_opportunity r + 1;
                          low_opportunity := low_opportunity r;
                          recommendations := recommendations r |})
    else
      update (fun r => {| total_analyzed := total_analyzed r;
                          high_opportunity := high_opportunity r;
                          medium_opportunity := medium_opportunity r;
                          low_opportunity := low_opportunity r + 1;
                          recommendations := recommendations r |}).

(** The loop over the products, each with what the outside world answers
    for it.  The handler of the inner [try] prints [product['id']]: without
    that key it raises itself, out of the loop. *)
Fixpoint batch_loop (products : list (gmap string pyval * outside))
    (analysis_results : batch_counts) : pyoutcome batch_counts :=
  match products with
  | [] => Returns analysis_results
  | (product, w) :: rest =>
      match batch_body w product analysis_results with
      | (Returns _, analysis_results) => batch_loop rest analysis_results
      | (Raises _, analysis_results) =>
          _ ← of_result (dict_item product "id");
          batch_loop rest analysis_results
      end
  end.

(** What [batch_analyze_products] returns: the counts, or [{'error': ...}]
    for the exception that reached the outer handler. *)
Inductive batch_result :=
| Analysed (analysis_results : batch_counts)
| BatchError (e : pyerror).

(** [selected] is what the database answers to the query for the products
    to analyse. *)
Definition batch_analyze_products
    (selected : pyoutcome (list (gmap string pyval * outside))) : batch_result :=
  match
    products ← selected;
    batch_loop products
      {| total_analyzed := 0; high_opportunity := 0; medium_opportunity := 0;
         low_opportunity := 0; recommendations := [] |}
  with
  | Returns analysis_results => Analysed analysis_results
  | Raises e => BatchError e
  end.

End ProductAnalysisEngine.

Module KeywordAnalyzer.

(** [commercial value[:\s]+(\d+(?:\.\d+)?)] *)
Definition pattern_commercial_value : regex :=
  RSeq (RLit "commercial value") (RSeq (RPlus label_sep) (RGroup numeral)).

(** [value[:\s]+(\d+(?:\.\d+)?)] *)
Definition pattern_value : regex :=
  RSeq (RLit "value") (RSeq (RPlus label_sep) (RGroup numeral)).

Definition patterns : list regex :=
  [pattern_commercial_value; pattern_value; ProductAnalysisEngine.pattern_out_of_10].

Fixpoint score_loop (patterns : list regex) (txt : text) (default : float)
  : pyresult float :=
  match patterns with
  | [] => Ok default
  | pattern :: rest =>
      match re_search pattern (py_lower txt) with
      | Some g =>
          match float_of_group g with
          | Ok score => Ok score
          | Raise ValueError => score_loop rest txt default
          | Raise e => Raise e
          end
      | None => score_loop rest txt default
      end
  end.

Definition extract_numeric_score (txt : string) (default : float) : pyresult float :=
  score_loop patterns (chars txt) default.

(** [\b[a-zA-Z\s]{2,30}\b] *)
Definition pattern_keyword : wregex :=
  WSeq WBoundary (WSeq (WRepeat (CUnion ascii_letters CSpace) 2 (Some 30%nat)) WBoundary).

(** The [for line in lines] loop, with its two variables. *)
Fixpoint keyword_loop (keyword_type : text) (lines : list text)
    (capture_next : bool) (keywords : list text) : list text :=
  match lines with
  | [] => keywords
  | line :: rest =>
      if py_contains keyword_type line
      then keyword_loop keyword_type rest true keywords
      else if capture_next && nonempty (py_strip line)
      then
        let words := findall pattern_keyword line in
        let keywords :=
          keywords ++
          map py_strip (List.filter (fun w => (2 <? length (py_strip w))%nat) words) in
        if (5 <=? length keywords)%nat then keywords
        else keyword_loop keyword_type rest capture_next keywords
      else keyword_loop keyword_type rest capture_next keywords
  end.

(** [keyword_type] is looked for in the lower-cased lines as it is. *)
Definition extract_keywords_from_response (response keyword_type : string)
  : list string :=
  let lines := py_split newline (py_lower (chars response)) in
  let keywords := keyword_loop (chars keyword_type) lines false [] in
  map to_str (firstn 5 keywords).

End KeywordAnalyzer.

(** * Vocabulary of the statements *)

(** ** The extractor *)

(** The clamp of the extractor: [min(10.0, max(1.0, score))]. *)
Definition clamp (score : float) : float := py_min 10.0 (py_max 1.0 score).

(** A float of the scale: [1.0 <= f <= 10.0]. *)
Definition in_range (f : float) : bool := (1.0 <=? f)%float && (f <=? 10.0)%float.

Definition no_digit (s : text) : bool := negb (existsb is_digit s).

Definition all_digits (s : text) : bool := forallb is_digit s.

(** The texts of [\d+(?:\.\d+)?]. *)
Definition numeral_text (w : text) : Prop :=
  exists ip, ip <> [] /\ all_digits ip = true /\
    (w = ip \/ exists fp, fp <> [] /\ all_digits fp = true /\ w = ip ++ "."%char :: fp).

(** The longest numeral [\d+(?:\.\d+)?] at the start of a text, and the
    text after it. *)
Definition numeral_at (s : text) : option (text * text) :=
  let (ip, r) := digits_prefix s in
  match ip with
  | [] => None
  | _ :: _ =>
      match r with
      | c :: r' =>
          if Ascii.eqb c "."%char
          then let (fp, r'') := digits_prefix r' in
               match fp with
               | [] => Some (ip, r)
               | _ :: _ => Some (ip ++ "."%char :: fp, r'')
               end
          else Some (ip, r)
      | [] => Some (ip, r)
      end
  end.

(** Group 1 of a pattern always takes part when the pattern wraps a
    group on every path. *)
Fixpoint sets_group (r : regex) : bool :=
  match r with
  | RGroup _ => true
  | RSeq r1 r2 => sets_group r1 || sets_group r2
  | RAlt r1 r2 => sets_group r1 && sets_group r2
  | _ => false
  end.

(** A pattern that cannot match without reading a digit. *)
Fixpoint only_digits (cs : charset) : bool :=
  match cs with
  | CDigit => true
  | CSpace => false
  | CAnyOf members => forallb is_digit (chars members)
  | CUnion a b => only_digits a && only_digits b
  end.

Fixpoint needs_digit (r : regex) : bool :=
  match r with
  | RLit l => existsb is_digit (chars l)
  | RStar _ => false
  | RPlus cs => only_digits cs
  | RSeq r1 r2 => needs_digit r1 || needs_digit r2
  | RAlt r1 r2 => needs_digit r1 && needs_digit r2
  | ROpt _ => false
  | RGroup r1 => needs_digit r1
  end.

(** Patterns whose only group is the numeral. *)
Inductive numeral_groups : regex -> Prop :=
| ng_lit l : numeral_groups (RLit l)
| ng_star cs : numeral_groups (RStar cs)
| ng_plus cs : numeral_groups (RPlus cs)
| ng_seq r1 r2 : numeral_groups r1 -> numeral_groups r2 -> numeral_groups (RSeq r1 r2)
| ng_alt r1 r2 : numeral_groups r1 -> numeral_groups r2 -> numeral_groups (RAlt r1 r2)
| ng_opt r : numeral_groups r -> numeral_groups (ROpt r)
| ng_group : numeral_groups (RGroup numeral).

Definition numeral_or_unset (g : option text) : Prop :=
  forall w, g = Some w -> numeral_text w.

(** A character no part of the pattern can read. *)
Fixpoint unread_by (c : ascii) (r : regex) : bool :=
  match r with
  | RLit l => negb (existsb (Ascii.eqb c) (chars l))
  | RStar cs | RPlus cs => negb (in_charset cs c)
  | RSeq r1 r2 | RAlt r1 r2 => unread_by c r1 && unread_by c r2
  | ROpt r1 | RGroup r1 => unread_by c r1
  end.

(** The states of a match, when the text goes on with [rest]. *)
Definition followed_by (rest : text) (st : mstate) : mstate := (fst st ++ rest, snd st).

(** ** The scorer *)

(** The spec's table and formula (section 4.2), written from its words to
    be compared with the code. *)
Definition spec_competition_proxy (level : string) : float :=
  if String.eqb level "Low" then 9.0
  else if String.eqb level "Medium" then 6.0
  else if String.eqb level "High" then 4.0
  else if String.eqb level "Very High" then 2.0
  else 5.0.

Definition spec_score (trend_score profit_potential market_demand : float)
    (level : string) : float :=
  py_round (trend_score * 0.25 + profit_potential * 0.30 + market_demand * 0.30
            + spec_competition_proxy level * 0.15) 2.

(** The sub-scores the scorer can work with: absent, a float, or an int. *)
Definition numeric_or_absent (v : option pyval) : Prop :=
  match v with
  | None | Some (PFloat _) => True
  | Some (PInt n) => exists f, float_of_int n = Ok f
  | _ => False
  end.

(** What a sub-score counts as in the sum: its own value when it is a
    number, 5.0 when the record has no entry for it. *)
Definition counts_as (entry : option pyval) (x : float) : Prop :=
  match entry with
  | None => x = 5.0%float
  | Some v => as_float v = Ok x
  end.

(** A competition level the table has no entry of its own for: no level at
    all, a string that is none of the four levels, or no string. *)
Definition unrecognised (entry : option pyval) : Prop :=
  match entry with
  | Some (PStr level) => level ∉ ["Low"; "Medium"; "High"; "Very High"]
  | _ => True
  end.


(** ** Floats as numbers *)

(** The value [m * 2^e] of a positive float. *)
Definition Fval (m : positive) (e : Z) : Q := (inject_Z (Zpos m) * 2 ^ e)%Q.

(** The mantissa and exponent of a binary64 float in canonical form. *)
Definition canonical (m : positive) (e : Z) : Prop :=
  e = Z.max (Zpos (digits2_pos m) + e - 53) (-1074).

(** The number a float stands for (0 for what is not finite). *)
Definition Qfloat (x : float) : Q :=
  match Prim2SF x with
  | S754_finite false m e => Fval m e
  | S754_finite true m e => - Fval m e
  | _ => 0
  end.

Definition finite_pos (x : float) : Prop :=
  exists m e, Prim2SF x = S754_finite false m e.

(** A positive finite float with its value between two numbers. *)
Definition between (lo hi : Q) (x : float) : Prop :=
  finite_pos x /\ (lo <= Qfloat x <= hi)%Q.

(** [rounded v r]: the positive float (or infinity) [r] is a rounding of
    the number [v], in that every float on one side of [v] is on the same
    side of [r]. *)
Definition rounded (v : Q) (r : spec_float) : Prop :=
  exists m e,
    r = (if e <=? 971 then S754_finite false m e else S754_infinity false) /\
    canonical m e /\
    (forall lm le, canonical lm le -> (Fval lm le <= v)%Q -> (Fval lm le <= Fval m e)%Q) /\
    (forall hm he, canonical hm he -> (v <= Fval hm he)%Q -> (Fval m e <= Fval hm he)%Q).

(** The record [(m, r, s)] of a shifted mantissa stands for a number
    [A / B]: [m] is its integer part, [r] tells whether the rest reaches
    one half, [s] whether it is neither nothing nor exactly one half. *)
Definition shr_inv (A B : Z) (mrs : shr_record) : Prop :=
  shr_m mrs = A / B /\
  shr_r mrs = (B <=? 2 * (A mod B)) /\
  shr_s mrs = negb ((A mod B =? 0) || (2 * (A mod B) =? B)).

(** ** The analysis around the scorer *)

(** One of the letters a-z. *)
Definition is_lower_letter (c : ascii) : bool :=
  let n := code c in (97 <=? n) && (n <=? 122).

(** A character that [str.lower()] leaves as it is. *)
Definition lowered (c : ascii) : Prop := lower_char c = c.

(** The texts of [[cs]{lo,hi}]. *)
Definition bounded_run (cs : charset) (lo : nat) (hi : option nat) (w : text) : Prop :=
  forallb (in_charset cs) w = true /\ (lo <= length w)%nat /\
  match hi with Some h => (length w <= h)%nat | None => True end.

(** The number of places of [s] at which [sub] occurs. *)
Fixpoint count_occurrences (sub s : text) : nat :=
  match s with
  | [] => 0
  | _ :: s' =>
      (match strip_prefix sub s with Some _ => 1 | None => 0 end + count_occurrences sub s')%nat
  end.

(** A keyword as [extract_keywords_from_response] returns it: 3 to 30
    characters, letters a-z and white space, none of it at either end. *)
Definition keyword_text (k : text) : Prop :=
  (3 <= length k)%nat /\ (length k <= 30)%nat /\
  forallb (fun c => is_lower_letter c || is_space c) k = true /\
  py_strip k = k.

(** A float of the profit scale: [2.0 <= f <= 10.0]. *)
Definition in_profit_range (f : float) : bool := (2.0 <=? f)%float && (f <=? 10.0)%float.

(** A field that [.lower()] can be called on: a string, or absent (the default is one). *)
Definition text_or_absent (v : option pyval) : Prop :=
  match v with
  | None | Some (PStr _) => True
  | _ => False
  end.

(** A count that can be compared with an int: an int or a float, or absent (the default is 0). *)
Definition number_or_absent (v : option pyval) : Prop :=
  match v with
  | None | Some (PInt _) | Some (PFloat _) => True
  | _ => False
  end.

(** A count that [count and count > k] accepts: a number, [None], or absent. *)
Definition number_none_or_absent (v : option pyval) : Prop :=
  match v with
  | None | Some PNone | Some (PInt _) | Some (PFloat _) => True
  | Some (PStr _) => False
  end.

(** A value that cannot be ordered with an int: [None] or a string. *)
Definition not_a_number (v : pyval) : Prop :=
  match v with
  | PNone | PStr _ => True
  | PInt _ | PFloat _ => False
  end.

(** A field that adds no condition to the query: the empty string, or absent. *)
Definition empty_or_absent (v : option pyval) : Prop :=
  match v with
  | None | Some (PStr EmptyString) => True
  | _ => False
  end.

Section AnalysisVocabulary.
Import ProductAnalysisEngine.
Local Open Scope string_scope.

(** The record [analyze_product_opportunity] starts from. *)
Definition blank_analysis : gmap string pyval :=
  {[ "trend_score" := PFloat 0.0;
     "competition_level" := PStr "Unknown";
     "profit_potential" := PFloat 0.0;
     "market_demand" := PFloat 0.0;
     "keyword_difficulty" := PFloat 0.0;
     "opportunity_score" := PFloat 0.0;
     "ai_recommendation" := PStr "" ]}.

(** The three ways an analysis can end: at the profit estimate, at the demand
    assessment, or with every step done; [level] is the level that
    [analyze_competition] reports. *)
Inductive analysis_of (w : outside) (product : gmap string pyval)
  : gmap string pyval -> Prop :=
| stops_at_profit t level e :
    in_range t = true -> level ∈ ["Low"; "Medium"; "High"; "Very High"] ->
    calculate_profit_potential product = Raises e ->
    dict_item (analyze_competition w product) "level" = Ok (PStr level) ->
    analysis_of w product
      (<["competition_level" := PStr level]> (<["trend_score" := PFloat t]> blank_analysis))
| stops_at_demand t level p e :
    in_range t = true -> level ∈ ["Low"; "Medium"; "High"; "Very High"] ->
    in_profit_range p = true ->
    assess_market_demand w product = Raises e ->
    dict_item (analyze_competition w product) "level" = Ok (PStr level) ->
    analysis_of w product
      (<["profit_potential" := PFloat p]>
         (<["competition_level" := PStr level]> (<["trend_score" := PFloat t]> blank_analysis)))
| completes t level p d v profit_analysis demand_analysis :
    in_range t = true -> level ∈ ["Low"; "Medium"; "High"; "Very High"] ->
    in_profit_range p = true -> in_range d = true -> in_range v = true ->
    calculate_profit_potential product = Returns profit_analysis ->
    assess_market_demand w product = Returns demand_analysis ->
    calculate_opportunity_score
      (<["ai_recommendation" := PStr (recommendation_response w)]>
         (<["market_demand" := PFloat d]>
            (<["profit_potential" := PFloat p]>
               (<["competition_level" := PStr level]>
                  (<["trend_score" := PFloat t]> blank_analysis))))) = Ok v ->
    dict_item (analyze_competition w product) "level" = Ok (PStr level) ->
    analysis_of w product
      (<["opportunity_score" := PFloat v]>
         (<["ai_recommendation" := PStr (recommendation_response w)]>
            (<["market_demand" := PFloat d]>
               (<["profit_potential" := PFloat p]>
                  (<["competition_level" := PStr level]>
                     (<["trend_score" := PFloat t]> blank_analysis)))))).

(** The counters of a batch fit together: every product analysed is in one
    of the three classes, and no recommendation lacks its count. *)
Definition counts_add_up (r : batch_counts) : Prop :=
  total_analyzed r = high_opportunity r + medium_opportunity r + low_opportunity r /\
  0 <= high_opportunity r /\ 0 <= medium_opportunity r /\ 0 <= low_opportunity r /\
  Z.of_nat (length (recommendations r)) <= high_opportunity r.

(** The results of a product can be handed to the database without an
    exception: the insertion goes through, or else the rollback does. *)
Definition saves (w : outside) : Prop :=
  insert_metrics w = Returns tt \/ rollback w = Returns tt.

(** A product of a batch that has a title and an id, whose results can be
    saved, and whose sales count is [None] or a string. *)
Definition uncounted (pw : gmap string pyval * outside) : Prop :=
  (exists title, fst pw !! "title" = Some (PStr title)) /\
  is_Some (fst pw !! "id") /\
  saves (snd pw) /\
  exists v, fst pw !! "sales_count" = Some v /\ not_a_number v.

(** The counters after [n] products, all of them of low opportunity. *)
Definition low_counts (n : nat) : batch_counts :=
  {| total_analyzed := Z.of_nat n; high_opportunity := 0; medium_opportunity := 0;
     low_opportunity := Z.of_nat n; recommendations := [] |}.

(** An outside world for the examples: fixed replies of the model, and a
    database that answers every query with [rows] rows and saves every result. *)
Definition quiet_world (trend demand : string) (rows : nat) : outside :=
  {| trend_response := trend;
     demand_response := demand;
     recommendation_response := "Recommended";
     execute := fun _ _ => Returns (replicate rows ∅);
     insert_metrics := Returns tt;
     rollback := Returns tt |}.

(** Two products of a batch: one with everything an analysis needs, one
    scraped without a sales count. *)
Definition example_batch : list (gmap string pyval * outside) :=
  [ ({[ "id" := PInt 1; "title" := PStr "Wireless Headphones"; "platform" := PStr "eBay";
        "price" := PFloat 400.0; "sales_count" := PInt 2000 ]},
     quiet_world "Trend score: 9.5" "Demand score: 9" 3);
    ({[ "id" := PInt 2; "title" := PStr "Ceramic Mug"; "platform" := PStr "Etsy";
        "price" := PFloat 24.0; "sales_count" := PNone ]},
     quiet_world "Trend score: 8" "7/10" 12) ].

(** What the batch of the two products returns. *)
Definition example_counts : batch_counts :=
  {| total_analyzed := 2;
     high_opportunity := 1;
     medium_opportunity := 0;
     low_opportunity := 1;
     recommendations :=
       [ {[ "product" := PStr "Wireless Headphones"; "platform" := PStr "eBay";
            "score" := PFloat 9.72; "recommendation" := PStr "Recommended" ]} ] |}.

End AnalysisVocabulary.

(** * Lemmas *)

(** ** Comparisons of floats *)

Lemma ltb_leb (a b : float) : (a <? b)%float = true -> (a <=? b)%float = true.
Proof.
  rewrite ltb_spec, leb_spec. unfold SFltb, SFleb.
  destruct (SFcompare _ _) as [[]|]; congruence.
Qed.

Lemma clamp_range (x : float) :
  (1.0 <=? clamp x)%float = true /\ (clamp x <=? 10.0)%float = true.
Proof.
  unfold clamp, py_max, py_min.
  destruct (1.0 <? x)%float eqn:H1.
  - destruct (x <? 10.0)%float eqn:H2.
    + split; now apply ltb_leb.
    + split; reflexivity.
  - split; reflexivity.
Qed.




Lemma SFcompare_Eq_finite s m e (y : spec_float) :
  SFcompare (S754_finite s m e) y = Some Eq -> y = S754_finite s m e.
Proof.
  destruct y as [[]|[]| |sy my ey], s; cbn; try congruence.
  - destruct sy; try congruence.
    destruct (Z.compare_spec e ey); try congruence.
    rewrite Pos.compare_cont_spec; cbn.
    destruct (Pos.compare_spec m my); cbn; congruence.
  - destruct sy; try congruence.
    destruct (Z.compare_spec e ey); try congruence.
    rewrite Pos.compare_cont_spec; cbn.
    destruct (Pos.compare_spec m my); cbn; congruence.
Qed.

Lemma leb_not_ltb_eq (a x : float) s m e :
  Prim2SF a = S754_finite s m e ->
  (a <=? x)%float = true -> (a <? x)%float = false -> x = a.
Proof.
  intros Ha. rewrite leb_spec, ltb_spec, Ha. unfold SFleb, SFltb.
  destruct (SFcompare _ _) as [[]|] eqn:Hc; try congruence.
  intros _ _. apply Prim2SF_inj. rewrite Ha. now apply SFcompare_Eq_finite.
Qed.

Lemma geb_not_gtb_eq (a x : float) s m e :
  Prim2SF a = S754_finite s m e ->
  (x <=? a)%float = true -> (x <? a)%float = false -> x = a.
Proof.
  intros Ha. rewrite leb_spec, ltb_spec, Ha. unfold SFleb, SFltb.
  destruct (SFcompare _ _) as [[]|] eqn:Hc; try congruence.
  intros _ _. apply Prim2SF_inj. rewrite Ha.
  destruct (Prim2SF x) as [[]|[]| |sx mx ex], s; cbn in Hc; try congruence.
  - destruct sx; try congruence.
    destruct (Z.compare_spec ex e); try congruence.
    rewrite Pos.compare_cont_spec in Hc; cbn in Hc.
    destruct (Pos.compare_spec mx m); cbn in Hc; congruence.
  - destruct sx; try congruence.
    destruct (Z.compare_spec ex e); try congruence.
    rewrite Pos.compare_cont_spec in Hc; cbn in Hc.
    destruct (Pos.compare_spec mx m); cbn in Hc; congruence.
Qed.

(** Inside the range the clamp changes nothing. *)
Lemma clamp_id (x : float) :
  (1.0 <=? x)%float = true -> (x <=? 10.0)%float = true -> clamp x = x.
Proof.
  intros H1 H2. unfold clamp, py_max, py_min.
  destruct (1.0 <? x)%float eqn:L1.
  - destruct (x <? 10.0)%float eqn:L2; [reflexivity|].
    symmetry. eapply geb_not_gtb_eq; [reflexivity|assumption..].
  - assert (x = 1.0%float) as ->
      by (eapply leb_not_ltb_eq; [reflexivity|assumption..]).
    reflexivity.
Qed.



(** ** Rounding in binary64

    The operations of primitive floats are specified by the functions of
    [SpecFloat]; this part shows that they round the exact result, so that
    bounds given by floats carry over from the exact result to the computed
    one. *)

(** *** Binary digits *)

Lemma digits2_size (m : positive) : digits2_pos m = Pos.size m.
Proof. induction m; cbn; congruence. Qed.

Lemma digits2_bounds (m : positive) :
  2 ^ (Zpos (digits2_pos m) - 1) <= Zpos m < 2 ^ Zpos (digits2_pos m).
Proof.
  rewrite digits2_size. split.
  - pose proof (Pos.size_le m) as H.
    assert (Zpos (2 ^ Pos.size m) <= Zpos m~0) as H' by exact H.
    rewrite Pos2Z.inj_pow in H'.
    replace (Zpos (Pos.size m)) with (Zpos (Pos.size m) - 1 + 1) in H' by lia.
    rewrite Z.pow_add_r in H' by lia. lia.
  - pose proof (Pos.size_gt m) as H.
    assert (Zpos m < Zpos (2 ^ Pos.size m)) as H' by exact H.
    now rewrite Pos2Z.inj_pow in H'.
Qed.

Lemma Zdigits2_bounds (m : Z) : 0 < m -> 2 ^ (Zdigits2 m - 1) <= m < 2 ^ Zdigits2 m.
Proof. destruct m; try lia. intros _. apply digits2_bounds. Qed.

Lemma Zdigits2_pos (m : Z) : 0 < m -> 0 < Zdigits2 m.
Proof. destruct m; cbn; lia. Qed.

Lemma pow2_lt_inv (a b : Z) : 0 <= b -> 2 ^ a < 2 ^ b -> a < b.
Proof. intros Hb H. apply (Z.pow_lt_mono_r_iff 2); lia. Qed.

Lemma Zdigits2_unique (m d : Z) : 0 < d -> 2 ^ (d - 1) <= m < 2 ^ d -> Zdigits2 m = d.
Proof.
  intros Hd [H1 H2].
  assert (0 < m) as Hm by (pose proof (Z.pow_pos_nonneg 2 (d - 1)); lia).
  destruct (Zdigits2_bounds m Hm) as [H3 H4].
  pose proof (Zdigits2_pos m Hm).
  assert (d - 1 < Zdigits2 m) by (apply pow2_lt_inv; lia).
  assert (Zdigits2 m - 1 < d) by (apply pow2_lt_inv; lia).
  lia.
Qed.

(** *** Shifting a mantissa to the right *)

Lemma iter_pos_nat {A} (f : A -> A) (n : positive) (x : A) :
  SpecFloat.iter_pos f n x = Nat.iter (Pos.to_nat n) f x.
Proof.
  revert x. induction n as [n IH|n IH|]; intros x; cbn [SpecFloat.iter_pos].
  - rewrite !IH, Pos2Nat.inj_xI.
    replace (S (2 * Pos.to_nat n)) with (S (Pos.to_nat n + Pos.to_nat n)) by lia.
    now rewrite Nat.iter_succ_r, Nat.iter_add.
  - rewrite !IH, Pos2Nat.inj_xO.
    replace (2 * Pos.to_nat n)%nat with (Pos.to_nat n + Pos.to_nat n)%nat by lia.
    now rewrite Nat.iter_add.
  - reflexivity.
Qed.

Lemma shr_1_inv (A B : Z) (mrs : shr_record) :
  0 <= A -> 0 < B -> shr_inv A B mrs -> shr_inv A (2 * B) (shr_1 mrs).
Proof.
  intros HA HB (Hm & Hr & Hs). destruct mrs as [m r s]. cbn in Hm, Hr, Hs.
  assert (0 <= m) as Hm0 by (subst m; apply Z.div_pos; lia).
  assert (A mod (2 * B) = A mod B + B * (m mod 2)) as Hmod.
  { rewrite (Z.mul_comm 2 B), Z.rem_mul_r by lia. now subst m. }
  assert (m / 2 = A / (2 * B)) as Hdiv.
  { subst m. rewrite Z.div_div by lia. now rewrite (Z.mul_comm B 2). }
  pose proof (Z.mod_pos_bound A B HB) as HAB.
  pose proof (Z.mod_pos_bound m 2 ltac:(lia)) as Hm2.
  assert (shr_1 {| shr_m := m; shr_r := r; shr_s := s |} =
          {| shr_m := m / 2; shr_r := Z.odd m; shr_s := r || s |}) as ->.
  { destruct m as [|[p|p|]|]; try lia; cbn [shr_1]; f_equal;
      try reflexivity.
    - rewrite Pos2Z.inj_xI. apply Z.div_unique with 1; lia.
    - rewrite Pos2Z.inj_xO. apply Z.div_unique with 0; lia. }
  unfold shr_inv. cbn [shr_m shr_r shr_s]. rewrite Hmod, Hdiv. split; [done|].
  rewrite (Zmod_odd m) in *. destruct (Z.odd m); subst r s; split.
  - symmetry. apply Z.leb_le. lia.
  - destruct (Z.leb_spec B (2 * (A mod B))), (Z.eqb_spec (A mod B) 0),
      (Z.eqb_spec (2 * (A mod B)) B), (Z.eqb_spec (A mod B + B * 1) 0),
      (Z.eqb_spec (2 * (A mod B + B * 1)) (2 * B)); cbn; try lia; reflexivity.
  - symmetry. apply Z.leb_gt. lia.
  - destruct (Z.leb_spec B (2 * (A mod B))), (Z.eqb_spec (A mod B) 0),
      (Z.eqb_spec (2 * (A mod B)) B), (Z.eqb_spec (A mod B + B * 0) 0),
      (Z.eqb_spec (2 * (A mod B + B * 0)) (2 * B)); cbn; try lia; reflexivity.
Qed.

Lemma shr_iter_inv (A B : Z) (n : nat) (mrs : shr_record) :
  0 <= A -> 0 < B -> shr_inv A B mrs ->
  shr_inv A (B * 2 ^ Z.of_nat n) (Nat.iter n shr_1 mrs).
Proof.
  intros HA HB H. induction n as [|n IH].
  - cbn. now rewrite Z.mul_1_r.
  - cbn [Nat.iter]. rewrite Nat2Z.inj_succ, Z.pow_succ_r by lia.
    replace (B * (2 * 2 ^ Z.of_nat n)) with (2 * (B * 2 ^ Z.of_nat n)) by lia.
    apply shr_1_inv; [lia| |exact IH].
    pose proof (Z.pow_pos_nonneg 2 (Z.of_nat n)). nia.
Qed.

Lemma shr_inv_shift (A B : Z) (mrs : shr_record) (e n : Z) :
  0 <= A -> 0 < B -> 0 <= n -> shr_inv A B mrs ->
  shr_inv A (B * 2 ^ n) (fst (shr mrs e n)) /\ snd (shr mrs e n) = e + n.
Proof.
  intros HA HB Hn H. destruct n as [|p|p]; try lia; cbn [shr fst snd].
  - rewrite Z.mul_1_r, Z.add_0_r. done.
  - split; [|done]. rewrite iter_pos_nat, <- (positive_nat_Z p).
    now apply shr_iter_inv.
Qed.

(** Rounding to nearest even keeps every integer bound of [A / B]. *)
Lemma round_nearest_even_bracket (A B : Z) (mrs : shr_record) :
  0 <= A -> 0 < B -> shr_inv A B mrs ->
  let m := round_nearest_even (shr_m mrs) (loc_of_shr_record mrs) in
  (A / B <= m <= A / B + 1) /\
  (forall c, c * B <= A -> c <= m) /\
  (forall c, A <= c * B -> m <= c).
Proof.
  intros HA HB (Hm & Hr & Hs). destruct mrs as [m r s]. cbn in Hm, Hr, Hs.
  cbn [shr_m loc_of_shr_record].
  pose proof (Z.mod_pos_bound A B HB) as HAB.
  pose proof (Z.div_mod A B ltac:(lia)) as HD.
  assert (forall c, c * B <= A -> c <= A / B) as Hlo.
  { intros c Hc. apply Z.div_le_lower_bound; lia. }
  assert (forall c, A <= c * B -> A / B <= c /\ (A mod B = 0 \/ A / B + 1 <= c)) as Hhi.
  { intros c Hc. split; [nia|]. destruct (Z.eq_dec (A mod B) 0); [auto|right]. nia. }
  set (q := A / B) in *. set (rm := A mod B) in *.
  assert (round_nearest_even m
            match r with
            | true => if s then loc_Inexact Gt else loc_Inexact Eq
            | false => if s then loc_Inexact Lt else loc_Exact
            end = q \/
          rm <> 0 /\ round_nearest_even m
            match r with
            | true => if s then loc_Inexact Gt else loc_Inexact Eq
            | false => if s then loc_Inexact Lt else loc_Exact
            end = q + 1) as Hcase.
  { subst m r s.
    destruct (Z.leb_spec B (2 * rm)), (Z.eqb_spec rm 0), (Z.eqb_spec (2 * rm) B);
      cbn; try lia; try destruct (Z.even q); auto; right; split; auto; lia. }
  destruct Hcase as [->|[Hrm ->]].
  - repeat split; try lia; intros c Hc; [apply Hlo|apply Hhi]; done.
  - repeat split; try lia; intros c Hc.
    + specialize (Hlo c Hc). lia.
    + destruct (Hhi c Hc) as [_ [|]]; lia.
Qed.

(** *** Values of floats as rationals *)

Local Open Scope Q_scope.

Lemma pow2_pos (e : Z) : 0 < 2 ^ e.
Proof. now apply Qpower_0_lt. Qed.

Lemma pow2_add (a b : Z) : 2 ^ (a + b) == 2 ^ a * 2 ^ b.
Proof. now apply Qpower_plus. Qed.

Lemma pow2_le (a b : Z) : (a <= b)%Z -> 2 ^ a <= 2 ^ b.
Proof. intros H. apply Qpower_le_compat_l; [done|]. lra. Qed.

Lemma pow2_lt (a b : Z) : (a < b)%Z -> 2 ^ a < 2 ^ b.
Proof. intros H. apply Qpower_lt_compat_l; [done|]. lra. Qed.

Lemma pow2_lt_cancel (a b : Z) : 2 ^ a < 2 ^ b -> (a < b)%Z.
Proof.
  intros H. destruct (Z_lt_le_dec a b) as [|Hle]; [done|].
  apply pow2_le in Hle. lra.
Qed.

Lemma pow2_Z (n : Z) : (0 <= n)%Z -> inject_Z (2 ^ n) == 2 ^ n.
Proof. intros H. now rewrite Zpower_Qpower. Qed.

(** [z * 2^a <= w * 2^b] between integers, when [b <= a]. *)
Lemma scaled_le_Z (z w a b : Z) :
  (b <= a)%Z ->
  inject_Z z * 2 ^ a <= inject_Z w * 2 ^ b <-> (z * 2 ^ (a - b) <= w)%Z.
Proof.
  intros Hab. replace a with ((a - b) + b)%Z at 1 by lia.
  rewrite pow2_add, <- (pow2_Z (a - b)) by lia.
  pose proof (pow2_pos b) as Hb.
  rewrite Zle_Qle, inject_Z_mult. split; intros H.
  - apply (Qmult_le_r _ _ (2 ^ b)); [done|]. lra.
  - apply (Qmult_le_r _ _ (2 ^ b)) in H; [|done]. lra.
Qed.

Lemma scaled_ge_Z (z w a b : Z) :
  (b <= a)%Z ->
  inject_Z w * 2 ^ b <= inject_Z z * 2 ^ a <-> (w <= z * 2 ^ (a - b))%Z.
Proof.
  intros Hab. replace a with ((a - b) + b)%Z at 1 by lia.
  rewrite pow2_add, <- (pow2_Z (a - b)) by lia.
  pose proof (pow2_pos b) as Hb.
  rewrite Zle_Qle, inject_Z_mult. split; intros H.
  - apply (Qmult_le_r _ _ (2 ^ b)); [done|]. lra.
  - apply (Qmult_le_r _ _ (2 ^ b)) in H; [|done]. lra.
Qed.

Lemma Fval_pos m e : 0 < Fval m e.
Proof.
  unfold Fval. apply Qmult_lt_0_compat; [|apply pow2_pos].
  change 0 with (inject_Z 0). rewrite <- Zlt_Qlt. lia.
Qed.

(** *** Rounding to binary64 *)

Local Close Scope Q_scope.

Lemma fexp64 (e : Z) : fexp prec emax e = Z.max (e - 53) (-1074).
Proof. reflexivity. Qed.

Lemma canonical_mantissa_iff m e :
  canonical_mantissa prec emax m e = true <-> canonical m e.
Proof.
  unfold canonical_mantissa, canonical. rewrite fexp64, Z.eqb_eq.
  split; intros H; lia.
Qed.

Lemma bounded_iff m e :
  bounded prec emax m e = true <-> canonical m e /\ e <= 971.
Proof.
  unfold bounded. rewrite andb_true_iff, canonical_mantissa_iff, Z.leb_le.
  reflexivity.
Qed.

Lemma canonical_facts m e :
  canonical m e -> -1074 <= e /\ Zpos m < 2 ^ 53 /\ (-1074 < e -> 2 ^ 52 <= Zpos m).
Proof.
  unfold canonical. intros H. pose proof (digits2_bounds m) as [H1 H2].
  assert (Zpos (digits2_pos m) <= 53) as Hd by lia.
  split; [lia|]. split.
  - eapply Z.lt_le_trans; [exact H2|]. apply Z.pow_le_mono_r; lia.
  - intros He. assert (Zpos (digits2_pos m) = 53) as Hd' by lia.
    now rewrite Hd' in H1.
Qed.

(** The second shift of [binary_round_aux]: it renormalises a mantissa
    that rounding carried up to [2^53]. *)
Lemma shr_fexp_renormalise (m2 E : Z) :
  1 <= m2 <= 2 ^ 53 -> -1074 <= E -> (-1074 < E -> 2 ^ 52 <= m2) ->
  exists m3 e3,
    shr_fexp prec emax m2 E loc_Exact =
      ({| shr_m := Zpos m3; shr_r := false; shr_s := false |}, e3) /\
    canonical m3 e3 /\ (Fval m3 e3 == inject_Z m2 * 2 ^ E)%Q.
Proof.
  intros [Hlo Hhi] HE Hnorm. unfold shr_fexp. rewrite fexp64. cbn [shr_record_of_loc].
  destruct (Z.eq_dec m2 (2 ^ 53)) as [->|Hne].
  - change (Zdigits2 (2 ^ 53)) with 54.
    replace (Z.max (54 + E - 53) (-1074) - E) with 1 by lia.
    exists (2 ^ 52)%positive, (E + 1). cbn [shr SpecFloat.iter_pos].
    split; [reflexivity|]. split.
    + unfold canonical. change (Zpos (digits2_pos (2 ^ 52))) with 53. lia.
    + unfold Fval. rewrite pow2_add. change (inject_Z (Zpos (2 ^ 52))) with (inject_Z (2 ^ 52)).
      change (inject_Z (2 ^ 53)) with (inject_Z (2 ^ 52 * 2)). 
      rewrite inject_Z_mult. change (2 ^ 1)%Q with (inject_Z 2). ring.
  - destruct m2 as [|m|]; try lia.
    pose proof (digits2_bounds m) as [H1 H2].
    assert (Zpos (digits2_pos m) <= 53) as Hd.
    { assert (Zpos (digits2_pos m) - 1 < 53); [|lia]. apply pow2_lt_inv; lia. }
    assert (-1074 < E -> Zpos (digits2_pos m) = 53) as Hd'.
    { intros He. specialize (Hnorm He).
      assert (52 < Zpos (digits2_pos m)); [|lia]. apply pow2_lt_inv; lia. }
    cbn [Zdigits2].
    replace (Z.max (Zpos (digits2_pos m) + E - 53) (-1074) - E) with 0 by lia.
    exists m, E. cbn [shr]. split; [reflexivity|]. split; [|reflexivity].
    unfold canonical. lia.
Qed.

Lemma Fval_scaled m e (B : Z) : (Fval m e * inject_Z B == inject_Z (Zpos m * B) * 2 ^ e)%Q.
Proof. unfold Fval. rewrite inject_Z_mult. ring. Qed.

(** What [binary_round_aux] returns on the number [A / B * 2^ex], given by
    its integer part [mx] and the place [lx] of the rest: a canonical float,
    or infinity when the exponent overflows, that no float lies strictly
    between it and the number. *)
Lemma binary_round_aux_spec (A B mx ex : Z) (lx : location) :
  0 < A -> 0 < B ->
  shr_inv A B (shr_record_of_loc mx lx) ->
  ex <= fexp prec emax (Zdigits2 mx + ex) ->
  (inject_Z B * 2 ^ (-1074) <= inject_Z A * 2 ^ ex)%Q ->
  exists m e,
    binary_round_aux prec emax false mx ex lx =
      (if e <=? 971 then S754_finite false m e else S754_infinity false) /\
    canonical m e /\
    (forall lm le, canonical lm le ->
       (Fval lm le * inject_Z B <= inject_Z A * 2 ^ ex)%Q -> (Fval lm le <= Fval m e)%Q) /\
    (forall hm he, canonical hm he ->
       (inject_Z A * 2 ^ ex <= Fval hm he * inject_Z B)%Q -> (Fval m e <= Fval hm he)%Q).
Proof.
  intros HA HB Hinv Hn Hmin. rewrite fexp64 in Hn.
  assert (mx = A / B) as Hmx by (destruct Hinv as [H _], lx as [|[]]; exact H).
  pose proof (Z.mul_div_le A B HB) as HAB.
  assert (1 <= mx) as Hmx1.
  { destruct (Z_lt_le_dec mx 1) as [Hlt|]; [exfalso|done].
    assert (0 <= A / B) by (apply Z.div_pos; lia).
    assert (mx = 0) as H0 by lia. rewrite H0 in Hn. cbn [Zdigits2] in Hn.
    assert (A < B) by (assert (A / B = 0) as Hq by lia; apply Z.div_small_iff in Hq; lia).
    apply scaled_le_Z in Hmin; [|lia].
    pose proof (Z.pow_pos_nonneg 2 (-1074 - ex)). nia. }
  pose proof (Zdigits2_bounds mx ltac:(lia)) as [Hd1 Hd2].
  pose proof (Zdigits2_pos mx ltac:(lia)) as Hd0.
  set (d := Zdigits2 mx) in *.
  set (E := Z.max (d + ex - 53) (-1074)) in *.
  set (n := E - ex) in *.
  assert (0 <= n) as Hn0 by lia.
  pose proof (Z.pow_pos_nonneg 2 n ltac:(lia) Hn0) as Hpn.
  destruct (shr_inv_shift A B (shr_record_of_loc mx lx) ex n) as [Hinv1 He1];
    [lia|lia|lia|done|].
  unfold binary_round_aux. unfold shr_fexp at 1. rewrite fexp64. fold d E n.
  destruct (shr (shr_record_of_loc mx lx) ex n) as [rec1 e1]. cbn [fst snd] in Hinv1, He1.
  replace e1 with E by lia. clear e1 He1.
  destruct (round_nearest_even_bracket A (B * 2 ^ n) rec1) as (Hm2 & Hlow & Hupp);
    [lia|nia|done|].
  set (m2 := round_nearest_even (shr_m rec1) (loc_of_shr_record rec1)) in *.
  assert (A / (B * 2 ^ n) = mx / 2 ^ n) as Hm1 by (rewrite Hmx, Z.div_div by lia; done).
  rewrite Hm1 in Hm2.
  assert (B * 2 ^ n <= A /\ mx / 2 ^ n < 2 ^ 53 /\ (-1074 < E -> 2 ^ 52 <= mx / 2 ^ n))
    as (HBn & Hm1hi & Hm1lo).
  { destruct (Z_lt_le_dec (d + ex - 53) (-1074)) as [Hsub|Hnorm].
    - assert (E = -1074) as HE by lia.
      split; [|split; [|lia]].
      + apply scaled_le_Z in Hmin; [|lia]. replace n with (-1074 - ex) by lia. done.
      + apply Z.div_lt_upper_bound; [lia|].
        assert (2 ^ d <= 2 ^ n * 2 ^ 53); [|lia].
        rewrite <- Z.pow_add_r by lia. apply Z.pow_le_mono_r; lia.
    - assert (n = d - 53) as Hnd by lia.
      assert (2 ^ (d - 1) = 2 ^ n * 2 ^ 52) as Hp1.
      { rewrite <- Z.pow_add_r by lia. f_equal. lia. }
      assert (2 ^ d = 2 ^ n * 2 ^ 53) as Hp2.
      { rewrite <- Z.pow_add_r by lia. f_equal. lia. }
      split; [|split].
      + assert (2 ^ n <= mx) by nia. nia.
      + apply Z.div_lt_upper_bound; lia.
      + intros _. apply Z.div_le_lower_bound; lia. }
  assert (1 <= m2) as Hm2pos by (apply Hlow; lia).
  destruct (shr_fexp_renormalise m2 E) as (m3 & e3 & Hshr2 & Hcan & Hval);
    [lia|lia|lia|].
  rewrite Hshr2. cbn [shr_m]. change (emax - prec) with 971.
  exists m3, e3. split; [reflexivity|]. split; [done|]. split.
  - intros lm le Hcl Hlo. rewrite Hval.
    destruct (canonical_facts lm le Hcl) as (Hle & Hlm & _).
    rewrite Fval_scaled in Hlo. unfold Fval.
    destruct (Z_lt_le_dec le E) as [Hlt|Hge].
    + apply scaled_ge_Z; [lia|].
      assert (2 ^ 1 <= 2 ^ (E - le)) by (apply Z.pow_le_mono_r; lia).
      assert (2 ^ 52 <= m2) by lia. nia.
    + apply scaled_le_Z; [lia|]. apply Hlow.
      apply scaled_le_Z in Hlo; [|lia].
      replace (le - ex) with ((le - E) + n) in Hlo by lia.
      rewrite Z.pow_add_r in Hlo by lia. lia.
  - intros hm he Hch Hhi. rewrite Hval.
    destruct (canonical_facts hm he Hch) as (Hhe & Hhm & _).
    rewrite Fval_scaled in Hhi. unfold Fval.
    assert (E <= he) as HEhe.
    { destruct (Z_lt_le_dec he E) as [Hlt|]; [exfalso|done].
      assert (53 + he <= (d - 1) + ex) as Hexp by lia.
      apply pow2_le in Hexp. rewrite !pow2_add in Hexp.
      assert (inject_Z (B * 2 ^ (d - 1)) <= inject_Z A)%Q as HA'
        by (rewrite <- Zle_Qle; nia).
      rewrite inject_Z_mult, pow2_Z in HA' by lia.
      rewrite inject_Z_mult in Hhi.
      assert (inject_Z (Zpos hm) < 2 ^ 53)%Q as Hhm'.
      { rewrite <- pow2_Z by lia. now rewrite <- Zlt_Qlt. }
      assert (0 < inject_Z B)%Q as HB' by (change 0%Q with (inject_Z 0); now rewrite <- Zlt_Qlt).
      pose proof (pow2_pos he) as Hp1. pose proof (pow2_pos ex) as Hp2.
      pose proof (pow2_pos (d - 1)) as Hp3.
      revert Hexp HA' Hhi Hhm' HB' Hp1 Hp2 Hp3.
      generalize (inject_Z A) (inject_Z B) (inject_Z (Zpos hm)) (2 ^ he)%Q (2 ^ ex)%Q
        (2 ^ (d - 1))%Q (2 ^ 53)%Q.
      intros a b h P X D K Hexp HA' Hhi Hhm' HB' Hp1 Hp2 Hp3.
      assert (0 < P * b)%Q by nra.
      assert (h * (P * b) < K * (P * b))%Q by nra.
      assert (K * P * b <= D * X * b)%Q by nra.
      assert (b * D * X <= a * X)%Q by nra.
      nra. }
    apply scaled_ge_Z; [lia|]. apply Hupp.
    apply scaled_ge_Z in Hhi; [|lia].
    replace (he - ex) with ((he - E) + n) in Hhi by lia.
    rewrite Z.pow_add_r in Hhi by lia. lia.
Qed.

(** *** The order of canonical floats is the order of their values *)

Lemma Fval_lt_exp m1 e1 m2 e2 :
  canonical m1 e1 -> canonical m2 e2 -> e1 < e2 -> (Fval m1 e1 < Fval m2 e2)%Q.
Proof.
  intros H1 H2 He.
  destruct (canonical_facts _ _ H1) as (He1 & Hm1 & _).
  destruct (canonical_facts _ _ H2) as (_ & _ & Hm2).
  apply Qnot_le_lt. unfold Fval. intros Hle.
  apply scaled_le_Z in Hle; [|lia].
  assert (2 ^ 1 <= 2 ^ (e2 - e1)) by (apply Z.pow_le_mono_r; lia).
  specialize (Hm2 ltac:(lia)). nia.
Qed.

Lemma Fval_compare_mantissa m1 m2 e :
  (Fval m1 e ?= Fval m2 e)%Q = (m1 ?= m2)%positive.
Proof.
  pose proof (pow2_pos e) as He.
  assert (forall a b : positive, (a < b)%positive -> (Fval a e < Fval b e)%Q) as Hlt.
  { intros a b Hab. unfold Fval. apply Qmult_lt_r; [done|]. rewrite <- Zlt_Qlt. lia. }
  destruct (Pos.compare_spec m1 m2) as [->|H|H].
  - apply (proj1 (Qeq_alt _ _)). reflexivity.
  - apply (proj1 (Qlt_alt _ _)). auto.
  - apply (proj1 (Qgt_alt _ _)). auto.
Qed.

Lemma SFcompare_canonical m1 e1 m2 e2 :
  canonical m1 e1 -> canonical m2 e2 ->
  SFcompare (S754_finite false m1 e1) (S754_finite false m2 e2) =
    Some (Fval m1 e1 ?= Fval m2 e2)%Q.
Proof.
  intros H1 H2. cbn [SFcompare]. f_equal.
  destruct (Z.compare_spec e1 e2) as [->|He|He].
  - rewrite Pos.compare_cont_spec, Fval_compare_mantissa. now destruct (m1 ?= m2)%positive.
  - symmetry. apply (proj1 (Qlt_alt _ _)). now apply Fval_lt_exp.
  - symmetry. apply (proj1 (Qgt_alt _ _)). now apply Fval_lt_exp.
Qed.

Lemma SFleb_canonical m1 e1 m2 e2 :
  canonical m1 e1 -> canonical m2 e2 ->
  SFleb (S754_finite false m1 e1) (S754_finite false m2 e2) = true <->
  (Fval m1 e1 <= Fval m2 e2)%Q.
Proof.
  intros H1 H2. unfold SFleb. rewrite SFcompare_canonical by done.
  rewrite Qle_alt. destruct (Fval m1 e1 ?= Fval m2 e2)%Q; split; congruence.
Qed.

Lemma SFltb_canonical m1 e1 m2 e2 :
  canonical m1 e1 -> canonical m2 e2 ->
  SFltb (S754_finite false m1 e1) (S754_finite false m2 e2) = true <->
  (Fval m1 e1 < Fval m2 e2)%Q.
Proof.
  intros H1 H2. unfold SFltb. rewrite SFcompare_canonical by done.
  rewrite Qlt_alt. destruct (Fval m1 e1 ?= Fval m2 e2)%Q; split; congruence.
Qed.

(** A canonical float below a float in range is in range. *)
Lemma Fval_le_exp m e hm he :
  canonical m e -> canonical hm he -> (Fval m e <= Fval hm he)%Q -> e <= he.
Proof.
  intros H1 H2 Hle. destruct (Z_lt_le_dec he e) as [Hlt|]; [|done].
  pose proof (Fval_lt_exp _ _ _ _ H2 H1 Hlt). lra.
Qed.

Lemma Fval_min m e : canonical m e -> (2 ^ (-1074) <= Fval m e)%Q.
Proof.
  intros H. destruct (canonical_facts _ _ H) as (He & _ & _).
  unfold Fval. assert (2 ^ (-1074) == inject_Z 1 * 2 ^ (-1074))%Q as -> by ring.
  apply scaled_ge_Z; [lia|]. pose proof (Z.pow_pos_nonneg 2 (e - -1074)). lia.
Qed.

(** *** The arithmetic of binary64 rounds exact results *)

Lemma rounded_ext v v' r : (v == v')%Q -> rounded v r -> rounded v' r.
Proof.
  intros Hv (m & e & Hr & Hc & Hlo & Hhi). exists m, e. repeat split; auto.
  - intros lm le Hl H. apply Hlo; [done|]. now rewrite Hv.
  - intros hm he Hh H. apply Hhi; [done|]. now rewrite Hv.
Qed.

Lemma rounded_between v r lm le hm he :
  rounded v r -> canonical lm le -> canonical hm he -> he <= 971 ->
  (Fval lm le <= v)%Q -> (v <= Fval hm he)%Q ->
  exists m e, r = S754_finite false m e /\ canonical m e /\ e <= 971 /\
    (Fval lm le <= Fval m e)%Q /\ (Fval m e <= Fval hm he)%Q.
Proof.
  intros (m & e & Hr & Hc & Hlo & Hhi) Hl Hh Hhe Hv1 Hv2.
  specialize (Hlo _ _ Hl Hv1). specialize (Hhi _ _ Hh Hv2).
  pose proof (Fval_le_exp _ _ _ _ Hc Hh Hhi) as He.
  exists m, e. replace (e <=? 971) with true in Hr by (symmetry; apply Z.leb_le; lia).
  repeat split; auto. lia.
Qed.

Lemma rounded_lower v r lm le :
  rounded v r -> canonical lm le -> (Fval lm le <= v)%Q ->
  SFleb (S754_finite false lm le) r = true.
Proof.
  intros (m & e & Hr & Hc & Hlo & _) Hl Hv. subst r.
  destruct (e <=? 971); [|reflexivity].
  apply SFleb_canonical; auto.
Qed.

Lemma binary_round_aux_rounded (A B mx ex : Z) (lx : location) :
  0 < A -> 0 < B ->
  shr_inv A B (shr_record_of_loc mx lx) ->
  ex <= fexp prec emax (Zdigits2 mx + ex) ->
  (2 ^ (-1074) <= inject_Z A * 2 ^ ex / inject_Z B)%Q ->
  rounded (inject_Z A * 2 ^ ex / inject_Z B) (binary_round_aux prec emax false mx ex lx).
Proof.
  intros HA HB Hinv Hn Hmin.
  assert (0 < inject_Z B)%Q as HB' by (change 0%Q with (inject_Z 0); now rewrite <- Zlt_Qlt).
  assert (inject_Z A * 2 ^ ex / inject_Z B * inject_Z B == inject_Z A * 2 ^ ex)%Q as HE
    by (field; lra).
  assert (forall x, x <= inject_Z A * 2 ^ ex / inject_Z B <->
                    x * inject_Z B <= inject_Z A * 2 ^ ex)%Q as Hdiv1.
  { intros x. split; intros H.
    - apply (Qmult_le_r _ _ (inject_Z B)) in H; [|done]. now rewrite HE in H.
    - now apply Qle_shift_div_l. }
  assert (forall x, inject_Z A * 2 ^ ex / inject_Z B <= x <->
                    inject_Z A * 2 ^ ex <= x * inject_Z B)%Q as Hdiv2.
  { intros x. split; intros H.
    - apply (Qmult_le_r _ _ (inject_Z B)) in H; [|done]. now rewrite HE in H.
    - now apply Qle_shift_div_r. }
  destruct (binary_round_aux_spec A B mx ex lx HA HB Hinv Hn) as (m & e & Hr & Hc & Hlo & Hhi).
  { apply Hdiv1 in Hmin. lra. }
  exists m, e. repeat split; auto.
  - intros lm le Hl H. apply Hlo; [done|]. now apply Hdiv1.
  - intros hm he Hh H. apply Hhi; [done|]. now apply Hdiv2.
Qed.

Lemma shr_inv_exact (A : Z) :
  shr_inv A 1 (shr_record_of_loc A loc_Exact).
Proof.
  unfold shr_inv. cbn [shr_record_of_loc shr_m shr_r shr_s].
  rewrite Z.div_1_r, Z.mod_1_r. repeat split.
Qed.

Lemma digits_ge_53 (p : positive) : 2 ^ 52 <= Zpos p -> 53 <= Zpos (digits2_pos p).
Proof.
  intros H. pose proof (digits2_bounds p) as [_ H2].
  assert (52 < Zpos (digits2_pos p)); [|lia]. apply pow2_lt_inv; lia.
Qed.

Lemma SFmul_rounded mx ex my ey :
  canonical mx ex -> canonical my ey ->
  (2 ^ (-1074) <= Fval mx ex * Fval my ey)%Q ->
  rounded (Fval mx ex * Fval my ey)
    (SFmul prec emax (S754_finite false mx ex) (S754_finite false my ey)).
Proof.
  intros Hx Hy Hmin. cbn [SFmul xorb].
  assert (inject_Z (Zpos (mx * my)) * 2 ^ (ex + ey) / inject_Z 1 == Fval mx ex * Fval my ey)%Q
    as HV.
  { unfold Fval. rewrite Pos2Z.inj_mul, inject_Z_mult, pow2_add. field. }
  apply (rounded_ext _ _ _ HV).
  destruct (canonical_facts _ _ Hx) as (Hex & _ & Hnx).
  destruct (canonical_facts _ _ Hy) as (Hey & _ & Hny).
  apply binary_round_aux_rounded; [lia|lia|apply shr_inv_exact| |now rewrite HV].
  rewrite fexp64. cbn [Zdigits2].
  destruct (Z.eq_dec ex (-1074)) as [->|], (Z.eq_dec ey (-1074)) as [->|]; [lia|..].
  - assert (53 <= Zpos (digits2_pos (mx * my))); [|lia].
    apply digits_ge_53. specialize (Hny ltac:(lia)). nia.
  - assert (53 <= Zpos (digits2_pos (mx * my))); [|lia].
    apply digits_ge_53. specialize (Hnx ltac:(lia)). nia.
  - assert (53 <= Zpos (digits2_pos (mx * my))); [|lia].
    apply digits_ge_53. specialize (Hnx ltac:(lia)). nia.
Qed.

Lemma iter_xO (m d : positive) : Zpos (Pos.iter xO m d) = Zpos m * 2 ^ Zpos d.
Proof.
  induction d as [|d IH] using Pos.peano_ind.
  - cbn. lia.
  - rewrite Pos.iter_succ, Pos2Z.inj_succ, Z.pow_succ_r by lia.
    rewrite Pos2Z.inj_xO, IH. lia.
Qed.

Lemma shl_align_fst m e e' :
  e' <= e -> Zpos (fst (shl_align m e e')) = Zpos m * 2 ^ (e - e').
Proof.
  intros H. unfold shl_align. destruct (e' - e) as [|d|d] eqn:Hd; try lia; cbn [fst].
  - replace (e - e') with 0 by lia. lia.
  - rewrite iter_xO. f_equal. f_equal. lia.
Qed.

Lemma shl_align_keep m e e' : e <= e' -> shl_align m e e' = (m, e).
Proof.
  intros H. unfold shl_align. destruct (e' - e) as [|d|d] eqn:Hd; try lia; reflexivity.
Qed.

Lemma SFadd_rounded mx ex my ey :
  canonical mx ex -> canonical my ey ->
  rounded (Fval mx ex + Fval my ey)
    (SFadd prec emax (S754_finite false mx ex) (S754_finite false my ey)).
Proof.
  intros Hx Hy. cbn [SFadd cond_Zopp].
  destruct (canonical_facts _ _ Hx) as (Hex & _ & Hnx).
  destruct (canonical_facts _ _ Hy) as (Hey & _ & Hny).
  set (ez := Z.min ex ey).
  rewrite !shl_align_fst by lia.
  pose proof (Z.pow_pos_nonneg 2 (ex - ez) ltac:(lia) ltac:(lia)) as Hpx.
  pose proof (Z.pow_pos_nonneg 2 (ey - ez) ltac:(lia) ltac:(lia)) as Hpy.
  destruct (Zpos mx * 2 ^ (ex - ez) + Zpos my * 2 ^ (ey - ez)) as [|s|s] eqn:HS; try lia.
  cbn [binary_normalize]. unfold binary_round.
  assert (ez <= fexp prec emax (Zpos (digits2_pos s) + ez)) as Hn.
  { rewrite fexp64. destruct (Z.eq_dec ez (-1074)) as [->|]; [lia|].
    assert (53 <= Zpos (digits2_pos s)); [|lia]. apply digits_ge_53.
    destruct (Z.le_ge_cases ex ey).
    - specialize (Hnx ltac:(lia)). replace (ex - ez) with 0 in * by lia. nia.
    - specialize (Hny ltac:(lia)). replace (ey - ez) with 0 in * by lia. nia. }
  rewrite shl_align_keep by done.
  assert (inject_Z (Zpos s) * 2 ^ ez / inject_Z 1 == Fval mx ex + Fval my ey)%Q as HV.
  { rewrite <- HS. unfold Fval. rewrite inject_Z_plus, !inject_Z_mult, !pow2_Z by lia.
    replace ex with ((ex - ez) + ez) at 2 by lia.
    replace ey with ((ey - ez) + ez) at 2 by lia.
    rewrite !pow2_add. field. }
  apply (rounded_ext _ _ _ HV).
  apply binary_round_aux_rounded; [lia|lia|apply shr_inv_exact|done|].
  rewrite HV. pose proof (Fval_min _ _ Hx). pose proof (Fval_pos my ey). lra.
Qed.

Lemma new_location_inv (D q r : Z) :
  0 < D -> 0 <= r < D ->
  shr_record_of_loc q (new_location D r) =
    {| shr_m := q; shr_r := (D <=? 2 * r);
       shr_s := negb ((r =? 0) || (2 * r =? D)) |}.
Proof.
  intros HD Hr. unfold new_location, new_location_even, new_location_odd.
  destruct (Z.even D) eqn:Hev.
  - destruct (Z.eqb_spec r 0) as [->|Hr0].
    + cbn. replace (D <=? 2 * 0) with false by (symmetry; apply Z.leb_gt; lia). reflexivity.
    + destruct (Z.compare_spec (2 * r) D), (Z.leb_spec D (2 * r)), (Z.eqb_spec (2 * r) D);
        try lia; reflexivity.
  - assert (Z.odd D = true) as Hodd by (rewrite <- Z.negb_even, Hev; reflexivity).
    apply Z.odd_spec in Hodd as [j Hj].
    destruct (Z.eqb_spec r 0) as [->|Hr0].
    + cbn. replace (D <=? 2 * 0) with false by (symmetry; apply Z.leb_gt; lia). reflexivity.
    + destruct (Z.compare_spec (2 * r + 1) D), (Z.leb_spec D (2 * r)), (Z.eqb_spec (2 * r) D);
        try lia; reflexivity.
Qed.

Lemma div_eucl_div_mod (a b : Z) : Z.div_eucl a b = (a / b, a mod b).
Proof. unfold Z.div, Z.modulo. now destruct (Z.div_eucl a b). Qed.

Lemma SFdiv_rounded (N D : positive) :
  (2 ^ (-1074) <= inject_Z (Zpos N) / inject_Z (Zpos D))%Q ->
  rounded (inject_Z (Zpos N) / inject_Z (Zpos D))
    (SFdiv prec emax (S754_finite false N 0) (S754_finite false D 0)).
Proof.
  intros Hmin. cbn [SFdiv xorb]. unfold SFdiv_core_binary. cbn [Zdigits2].
  rewrite fexp64.
  set (d1 := Zpos (digits2_pos N)). set (d2 := Zpos (digits2_pos D)).
  replace (d1 + 0 - (d2 + 0)) with (d1 - d2) by lia.
  replace (0 - 0) with 0 by lia.
  set (e' := Z.min (Z.max (d1 - d2 - 53) (-1074)) 0).
  set (s := 0 - e').
  assert (0 <= s) as Hs by lia.
  assert (match s with
          | 0 => Zpos N
          | Zpos _ => Z.shiftl (Zpos N) s
          | Zneg _ => 0
          end = Zpos N * 2 ^ s) as ->.
  { destruct s as [|p|p] eqn:Es; try lia.
    rewrite Z.shiftl_mul_pow2; lia. }
  rewrite div_eucl_div_mod.
  pose proof (Z.pow_pos_nonneg 2 s ltac:(lia) Hs) as Hps.
  set (A := Zpos N * 2 ^ s) in *.
  assert (0 < A) as HA by nia.
  assert (inject_Z A * 2 ^ e' / inject_Z (Zpos D) == inject_Z (Zpos N) / inject_Z (Zpos D))%Q
    as HV.
  { unfold A. rewrite inject_Z_mult, pow2_Z by lia.
    assert (2 ^ s * 2 ^ e' == 1)%Q as H1.
    { rewrite <- pow2_add. replace (s + e') with 0 by lia. reflexivity. }
    assert (0 < inject_Z (Zpos D))%Q by (change 0%Q with (inject_Z 0); now rewrite <- Zlt_Qlt).
    rewrite <- Qmult_assoc, H1. field. lra. }
  apply (rounded_ext _ _ _ HV).
  pose proof (Z.mod_pos_bound A (Zpos D) ltac:(lia)) as Hmod.
  apply binary_round_aux_rounded; [done|lia| | |now rewrite HV].
  - rewrite new_location_inv by lia. unfold shr_inv. cbn [shr_m shr_r shr_s]. done.
  - rewrite fexp64.
    destruct (Z.eq_dec e' (-1074)) as [->|Hne]; [lia|].
    assert (s >= 53 + d2 - d1) by lia.
    assert (2 ^ 52 <= A / Zpos D) as Hq.
    { apply Z.div_le_lower_bound; [lia|].
      pose proof (digits2_bounds N) as [HN _]. pose proof (digits2_bounds D) as [_ HD].
      fold d1 in HN. fold d2 in HD.
      assert (0 < d1) by (unfold d1; lia). assert (0 < d2) by (unfold d2; lia).
      assert (2 ^ (52 + d2) <= 2 ^ (d1 - 1) * 2 ^ s).
      { rewrite <- Z.pow_add_r by lia. apply Z.pow_le_mono_r; lia. }
      rewrite Z.pow_add_r in * by lia. unfold A. nia. }
    destruct (A / Zpos D) as [|q|q] eqn:Eq; try lia.
    cbn [Zdigits2]. pose proof (digits_ge_53 q Hq). lia.
Qed.

(** *** Primitive floats *)

Lemma Prim2SF_canonical x m e :
  Prim2SF x = S754_finite false m e -> canonical m e /\ e <= 971.
Proof.
  intros H. pose proof (Prim2SF_valid x) as Hv. rewrite H in Hv.
  cbn [SpecFloat.valid_binary] in Hv. now apply bounded_iff.
Qed.

Lemma Qfloat_finite x m e : Prim2SF x = S754_finite false m e -> Qfloat x = Fval m e.
Proof. intros H. unfold Qfloat. now rewrite H. Qed.

Lemma Prim2SF_SF2Prim_finite m e :
  canonical m e -> e <= 971 ->
  Prim2SF (SF2Prim (S754_finite false m e)) = S754_finite false m e.
Proof.
  intros Hc He. apply Prim2SF_SF2Prim. cbn [SpecFloat.valid_binary].
  now apply bounded_iff.
Qed.

Lemma rounded_float (v : Q) (r : spec_float) (x lo hi : float) :
  Prim2SF x = r -> rounded v r -> finite_pos lo -> finite_pos hi ->
  (Qfloat lo <= v)%Q -> (v <= Qfloat hi)%Q ->
  between (Qfloat lo) (Qfloat hi) x.
Proof.
  intros Hx Hr (lm & le & Hlo) (hm & he & Hhi) Hv1 Hv2.
  destruct (Prim2SF_canonical _ _ _ Hlo) as [Hcl _].
  destruct (Prim2SF_canonical _ _ _ Hhi) as [Hch Hhe].
  rewrite (Qfloat_finite _ _ _ Hlo) in *. rewrite (Qfloat_finite _ _ _ Hhi) in *.
  destruct (rounded_between _ _ _ _ _ _ Hr Hcl Hch Hhe Hv1 Hv2)
    as (m & e & -> & Hc & He & H1 & H2).
  split; [now exists m, e|]. now rewrite (Qfloat_finite _ _ _ Hx).
Qed.

Lemma mul_between (x y lo hi : float) (a b c d : Q) :
  finite_pos lo -> finite_pos hi -> (0 <= a)%Q -> (0 <= c)%Q ->
  between a b x -> between c d y ->
  (Qfloat lo <= a * c)%Q -> (b * d <= Qfloat hi)%Q ->
  between (Qfloat lo) (Qfloat hi) (x * y)%float.
Proof.
  intros Hlo Hhi Ha Hc [(mx & ex & Hx) Hxv] [(my & ey & Hy) Hyv] H1 H2.
  rewrite (Qfloat_finite _ _ _ Hx) in Hxv. rewrite (Qfloat_finite _ _ _ Hy) in Hyv.
  destruct (Prim2SF_canonical _ _ _ Hx) as [Hcx _].
  destruct (Prim2SF_canonical _ _ _ Hy) as [Hcy _].
  assert (Qfloat lo <= Fval mx ex * Fval my ey)%Q as Hv1 by nra.
  assert (Fval mx ex * Fval my ey <= Qfloat hi)%Q as Hv2 by nra.
  eapply rounded_float; [|apply (SFmul_rounded mx ex my ey)|..]; try done.
  - rewrite mul_spec, Hx, Hy. reflexivity.
  - destruct Hlo as (lm & le & Hlo). rewrite (Qfloat_finite _ _ _ Hlo) in Hv1.
    destruct (Prim2SF_canonical _ _ _ Hlo) as [Hcl _].
    pose proof (Fval_min _ _ Hcl). lra.
Qed.

Lemma add_between (x y lo hi : float) (a b c d : Q) :
  finite_pos lo -> finite_pos hi ->
  between a b x -> between c d y ->
  (Qfloat lo <= a + c)%Q -> (b + d <= Qfloat hi)%Q ->
  between (Qfloat lo) (Qfloat hi) (x + y)%float.
Proof.
  intros Hlo Hhi [(mx & ex & Hx) Hxv] [(my & ey & Hy) Hyv] H1 H2.
  rewrite (Qfloat_finite _ _ _ Hx) in Hxv. rewrite (Qfloat_finite _ _ _ Hy) in Hyv.
  destruct (Prim2SF_canonical _ _ _ Hx) as [Hcx _].
  destruct (Prim2SF_canonical _ _ _ Hy) as [Hcy _].
  eapply rounded_float; [|apply (SFadd_rounded mx ex my ey)|..]; try done; try lra.
  rewrite add_spec, Hx, Hy. reflexivity.
Qed.

Lemma leb_Qfloat (a b : float) :
  finite_pos a -> finite_pos b -> (a <=? b)%float = true <-> (Qfloat a <= Qfloat b)%Q.
Proof.
  intros (ma & ea & Ha) (mb & eb & Hb).
  rewrite leb_spec, (Qfloat_finite _ _ _ Ha), (Qfloat_finite _ _ _ Hb), Ha, Hb.
  apply SFleb_canonical; eapply Prim2SF_canonical; eassumption.
Qed.

(** A float compared with two positive finite floats is one itself. *)
Lemma leb_finite_pos (lo hi x : float) :
  finite_pos lo -> finite_pos hi ->
  (lo <=? x)%float = true -> (x <=? hi)%float = true -> finite_pos x.
Proof.
  intros (lm & le & Hlo) (hm & he & Hhi). rewrite !leb_spec, Hlo, Hhi.
  unfold SFleb. destruct (Prim2SF x) as [[]|[]| |[] m e] eqn:Hx; cbn; try discriminate.
  intros _ _. now exists m, e.
Qed.

Lemma leb_between (lo hi x : float) :
  finite_pos lo -> finite_pos hi ->
  (lo <=? x)%float = true -> (x <=? hi)%float = true ->
  between (Qfloat lo) (Qfloat hi) x.
Proof.
  intros Hlo Hhi H1 H2. pose proof (leb_finite_pos _ _ _ Hlo Hhi H1 H2) as Hx.
  split; [done|]. split; [now apply (proj1 (leb_Qfloat _ _ Hlo Hx))|
                          now apply (proj1 (leb_Qfloat _ _ Hx Hhi))].
Qed.

Lemma between_leb (lo hi x : float) :
  finite_pos lo -> finite_pos hi -> between (Qfloat lo) (Qfloat hi) x ->
  (lo <=? x)%float = true /\ (x <=? hi)%float = true.
Proof.
  intros Hlo Hhi [Hx [H1 H2]].
  split; [now apply (proj2 (leb_Qfloat _ _ Hlo Hx))|now apply (proj2 (leb_Qfloat _ _ Hx Hhi))].
Qed.

Lemma between_weaken (lo hi lo' hi' : Q) (x : float) :
  between lo hi x -> (lo' <= lo)%Q -> (hi <= hi')%Q -> between lo' hi' x.
Proof. intros [Hx [H1 H2]] Hl Hh. split; [done|]. split; lra. Qed.

Lemma ratio_to_float_between (N D : positive) (lo hi : float) :
  finite_pos lo -> finite_pos hi ->
  (Qfloat lo <= inject_Z (Zpos N) / inject_Z (Zpos D))%Q ->
  (inject_Z (Zpos N) / inject_Z (Zpos D) <= Qfloat hi)%Q ->
  between (Qfloat lo) (Qfloat hi) (ratio_to_float (Zpos N) D).
Proof.
  intros (lm & le & Hlo) (hm & he & Hhi) Hv1 Hv2.
  destruct (Prim2SF_canonical _ _ _ Hlo) as [Hcl _].
  destruct (Prim2SF_canonical _ _ _ Hhi) as [Hch Hhe].
  rewrite (Qfloat_finite _ _ _ Hlo) in *. rewrite (Qfloat_finite _ _ _ Hhi) in *.
  assert (rounded (inject_Z (Zpos N) / inject_Z (Zpos D))
            (SFdiv prec emax (S754_finite false N 0) (S754_finite false D 0))) as Hr.
  { apply SFdiv_rounded. pose proof (Fval_min _ _ Hcl). lra. }
  destruct (rounded_between _ _ _ _ _ _ Hr Hcl Hch Hhe Hv1 Hv2)
    as (m & e & Hres & Hc & He & H1 & H2).
  unfold ratio_to_float. rewrite Hres.
  pose proof (Prim2SF_SF2Prim_finite m e Hc He) as Hx.
  split; [now exists m, e|]. now rewrite (Qfloat_finite _ _ _ Hx).
Qed.


Lemma round_half_even_bracket (num den : Z) :
  0 <= num -> 0 < den ->
  (forall c, c * den <= num -> c <= round_half_even num den) /\
  (forall c, num <= c * den -> round_half_even num den <= c).
Proof.
  intros Hn Hd. unfold round_half_even.
  pose proof (Z.mod_pos_bound num den Hd) as Hm.
  pose proof (Z.div_mod num den ltac:(lia)) as HD.
  set (q := num / den) in *. set (r := num mod den) in *.
  split; intros c Hc.
  - assert (c <= q) by (apply Z.div_le_lower_bound; lia).
    destruct (2 * r ?= den); try destruct (Z.even q); lia.
  - assert (q <= c) by nia.
    destruct (Z.compare_spec (2 * r) den); try destruct (Z.even q); try lia;
      assert (q + 1 <= c) by nia; lia.
Qed.

Lemma py_round_between (x lo hi : float) (nd : N) (c1 c2 : Z) :
  finite_pos lo -> finite_pos hi -> finite_pos x -> 0 < c1 ->
  (inject_Z c1 / inject_Z (10 ^ Z.of_N nd) <= Qfloat x)%Q ->
  (Qfloat x <= inject_Z c2 / inject_Z (10 ^ Z.of_N nd))%Q ->
  (Qfloat lo <= inject_Z c1 / inject_Z (10 ^ Z.of_N nd))%Q ->
  (inject_Z c2 / inject_Z (10 ^ Z.of_N nd) <= Qfloat hi)%Q ->
  between (Qfloat lo) (Qfloat hi) (py_round x nd).
Proof.
  intros Hlo Hhi (m & e & Hx) Hc1 Hx1 Hx2 Hl Hh.
  rewrite (Qfloat_finite _ _ _ Hx) in *. unfold py_round. rewrite Hx.
  set (scale := 10 ^ Z.of_N nd) in *.
  assert (0 < scale) as Hsc by (apply Z.pow_pos_nonneg; lia).
  assert (0 < inject_Z scale)%Q as Hsc' by (change 0%Q with (inject_Z 0); now rewrite <- Zlt_Qlt).
  set (den := 2 ^ Z.max (- e) 0).
  set (num := Zpos m * 2 ^ Z.max e 0 * scale).
  assert (0 < den) as Hden by (apply Z.pow_pos_nonneg; lia).
  assert (0 < num) as Hnum.
  { pose proof (Z.pow_pos_nonneg 2 (Z.max e 0)). unfold num. nia. }
  assert (Fval m e * inject_Z scale * inject_Z den == inject_Z num)%Q as HV.
  { unfold Fval, num, den. rewrite !inject_Z_mult, !pow2_Z by lia.
    replace (Z.max e 0) with (e + Z.max (- e) 0) by lia. rewrite pow2_add. ring. }
  assert (0 < inject_Z den)%Q as Hden' by (change 0%Q with (inject_Z 0); now rewrite <- Zlt_Qlt).
  destruct (round_half_even_bracket num den ltac:(lia) Hden) as [Hlow Hupp].
  assert (c1 <= round_half_even num den) as Hk1.
  { apply Hlow. rewrite Zle_Qle, inject_Z_mult, <- HV.
    apply Qmult_le_compat_r; [|lra].
    apply (Qmult_le_r _ _ (inject_Z scale)) in Hx1; [|done].
    assert (inject_Z c1 / inject_Z scale * inject_Z scale == inject_Z c1)%Q as HE by (field; lra).
    now rewrite HE in Hx1. }
  assert (round_half_even num den <= c2) as Hk2.
  { apply Hupp. rewrite Zle_Qle, inject_Z_mult, <- HV.
    apply Qmult_le_compat_r; [|lra].
    apply (Qmult_le_r _ _ (inject_Z scale)) in Hx2; [|done].
    assert (inject_Z c2 / inject_Z scale * inject_Z scale == inject_Z c2)%Q as HE by (field; lra).
    now rewrite HE in Hx2. }
  destruct (round_half_even num den) as [|k|k] eqn:Hk; try lia.
  assert (inject_Z (Zpos (Z.to_pos scale)) = inject_Z scale) as Hsp by (rewrite Z2Pos.id; done).
  apply ratio_to_float_between; try done; rewrite Hsp.
  - eapply Qle_trans; [exact Hl|]. apply Qmult_le_compat_r; [now rewrite <- Zle_Qle|].
    apply Qinv_le_0_compat. lra.
  - eapply Qle_trans; [|exact Hh]. apply Qmult_le_compat_r; [now rewrite <- Zle_Qle|].
    apply Qinv_le_0_compat. lra.
Qed.

(** ** The matcher *)

(** What the matcher leaves is a suffix of what it was given. *)
Lemma star_set_suffix cs (s t : text) : In t (star_set cs s) -> t `suffix_of` s.
Proof.
  revert t. induction s as [|c s IH]; intros t; cbn.
  - intros [<-|[]]. done.
  - destruct (in_charset cs c); rewrite ?in_app_iff; cbn.
    + intros [H|[<-|[]]]; [|done]. apply suffix_cons_r. auto.
    + intros [<-|[]]. done.
Qed.

Lemma strip_prefix_app (p s t : text) : strip_prefix p s = Some t -> s = p ++ t.
Proof.
  revert s. induction p as [|a p IH]; intros [|b s]; cbn; try congruence.
  destruct (Ascii.eqb_spec a b); [|congruence].
  intros H. subst b. f_equal. auto.
Qed.

Lemma rmatch_suffix r : forall (s : text) g st,
  In st (rmatch r s g) -> fst st `suffix_of` s.
Proof.
  induction r as [l|cs|cs|r1 IH1 r2 IH2|r1 IH1 r2 IH2|r1 IH1|r1 IH1]; intros s g st; cbn.
  - destruct (strip_prefix _ s) as [s'|] eqn:E; [|intros []].
    intros [<-|[]]. cbn. apply strip_prefix_app in E. subst s. apply suffix_app_r. done.
  - rewrite in_map_iff. intros (t & <- & Ht). cbn. eauto using star_set_suffix.
  - destruct s as [|c s]; [intros []|]. destruct (in_charset cs c); [|intros []].
    rewrite in_map_iff. intros (t & <- & Ht). cbn.
    apply suffix_cons_r. eauto using star_set_suffix.
  - rewrite in_flat_map. intros (st1 & H1 & H2).
    etrans; [eapply IH2; eassumption|]. eapply IH1; eassumption.
  - rewrite in_app_iff. intros [H|H]; eauto.
  - rewrite in_app_iff. intros [H|[<-|[]]]; eauto.
  - rewrite in_map_iff. intros (st1 & <- & H1). cbn. eauto.
Qed.

Lemma rmatch_keeps_group r : forall (s : text) g st,
  is_Some g -> In st (rmatch r s g) -> is_Some (snd st).
Proof.
  induction r as [l|cs|cs|r1 IH1 r2 IH2|r1 IH1 r2 IH2|r1 IH1|r1 IH1]; intros s g st Hg; cbn.
  - destruct (strip_prefix _ s); [|intros []]. now intros [<-|[]].
  - rewrite in_map_iff. now intros (t & <- & _).
  - destruct s as [|c s]; [intros []|]. destruct (in_charset cs c); [|intros []].
    rewrite in_map_iff. now intros (t & <- & _).
  - rewrite in_flat_map. intros (st1 & H1 & H2). eauto.
  - rewrite in_app_iff. intros [H|H]; eauto.
  - rewrite in_app_iff. intros [H|[<-|[]]]; eauto.
  - rewrite in_map_iff. intros (st1 & <- & _). cbn. eauto.
Qed.

Lemma rmatch_sets_group r : sets_group r = true -> forall (s : text) g st,
  In st (rmatch r s g) -> is_Some (snd st).
Proof.
  induction r as [l|cs|cs|r1 IH1 r2 IH2|r1 IH1 r2 IH2|r1 IH1|r1 IH1];
    cbn; try discriminate; intros Hr s g st.
  - rewrite in_flat_map. intros (st1 & H1 & H2).
    apply orb_true_iff in Hr as [Hr|Hr]; [|eauto].
    eapply rmatch_keeps_group; [|eassumption]. eauto.
  - apply andb_true_iff in Hr as [Hr1 Hr2].
    rewrite in_app_iff. intros [H|H]; eauto.
  - rewrite in_map_iff. intros (st1 & <- & _). cbn. eauto.
Qed.

Lemma re_search_found r : forall (s : text) g,
  re_search r s = Some g ->
  exists (s' : text) st, s' `suffix_of` s /\ In st (rmatch r s' None) /\ snd st = g.
Proof.
  induction s as [|c s IH]; intros g; cbn.
  - destruct (rmatch r [] None) as [|st l] eqn:E; [discriminate|].
    intros [= <-]. exists [], st. rewrite E. cbn. auto.
  - destruct (rmatch r (c :: s) None) as [|st l] eqn:E.
    + intros H. destruct (IH _ H) as (s' & st & Hs & Hin & Hg).
      exists s', st. split; [now apply suffix_cons_r|auto].
    + intros [= <-]. exists (c :: s), st. rewrite E. cbn. auto.
Qed.

Lemma re_search_group r (s : text) g :
  sets_group r = true -> re_search r s = Some g -> is_Some g.
Proof.
  intros Hr H. destruct (re_search_found _ _ _ H) as (s' & st & _ & Hin & <-).
  eapply rmatch_sets_group; eassumption.
Qed.

Lemma no_digit_cons c (s : text) :
  no_digit (c :: s) = negb (is_digit c) && no_digit s.
Proof. unfold no_digit. cbn. now rewrite negb_orb. Qed.

Lemma no_digit_app (s t : text) : no_digit (s ++ t) = no_digit s && no_digit t.
Proof. unfold no_digit. now rewrite existsb_app, negb_orb. Qed.

Lemma no_digit_suffix (s t : text) : t `suffix_of` s -> no_digit s = true -> no_digit t = true.
Proof. intros [k ->]. rewrite no_digit_app, andb_true_iff. tauto. Qed.

Lemma only_digits_sound cs c : only_digits cs = true -> in_charset cs c = true -> is_digit c = true.
Proof.
  induction cs as [| |members|a IHa b IHb]; cbn; try done.
  - intros Hall Hex. apply existsb_exists in Hex as (d & Hd & Heq).
    apply Ascii.eqb_eq in Heq. subst d.
    rewrite forallb_forall in Hall. auto.
  - rewrite andb_true_iff, orb_true_iff. intros [] []; auto.
Qed.

Lemma flat_map_empty {A B} (f : A -> list B) (l : list A) :
  (forall x, In x l -> f x = []) -> flat_map f l = [].
Proof.
  induction l as [|a l IH]; cbn; [done|]. intros H.
  rewrite (H a) by auto. cbn. apply IH. auto.
Qed.

Lemma needs_digit_sound r : needs_digit r = true -> forall (s : text) g,
  no_digit s = true -> rmatch r s g = [].
Proof.
  induction r as [l|cs|cs|r1 IH1 r2 IH2|r1 IH1 r2 IH2|r1 IH1|r1 IH1];
    cbn; try discriminate; intros Hr s g Hs.
  - destruct (strip_prefix _ s) as [s'|] eqn:E; [|done].
    apply strip_prefix_app in E. subst s.
    rewrite no_digit_app in Hs. apply andb_true_iff in Hs as [Hs _].
    unfold no_digit in Hs. rewrite Hr in Hs. discriminate.
  - destruct s as [|c s]; [done|].
    destruct (in_charset cs c) eqn:E; [|done].
    rewrite no_digit_cons, (only_digits_sound _ _ Hr E) in Hs. discriminate.
  - destruct (needs_digit r1) eqn:E1.
    + now rewrite IH1.
    + cbn in Hr. apply flat_map_empty. intros st Hst.
      apply IH2; [done|]. eapply no_digit_suffix; [|exact Hs].
      eapply rmatch_suffix; eassumption.
  - apply andb_true_iff in Hr as [Hr1 Hr2]. now rewrite IH1, IH2.
  - now rewrite IH1.
Qed.

Lemma re_search_no_digit r (s : text) :
  needs_digit r = true -> no_digit s = true -> re_search r s = None.
Proof.
  intros Hr. induction s as [|c s IH]; intros Hs; cbn; rewrite needs_digit_sound by done.
  - done.
  - apply IH. rewrite no_digit_cons in Hs. now apply andb_true_iff in Hs.
Qed.

(** ** A text that goes on with a character the pattern cannot read *)

Lemma strip_prefix_unread (l u w : text) c :
  existsb (Ascii.eqb c) l = false ->
  strip_prefix l (u ++ c :: w) = option_map (fun t => t ++ c :: w) (strip_prefix l u).
Proof.
  revert u. induction l as [|a l IH]; intros u Hc; [reflexivity|].
  cbn in Hc. apply orb_false_iff in Hc as [Ha Hl].
  destruct u as [|b u]; cbn.
  - rewrite Ascii.eqb_sym. now rewrite Ha.
  - destruct (Ascii.eqb a b); [now apply IH|reflexivity].
Qed.

Lemma star_set_unread cs (u w : text) c :
  in_charset cs c = false ->
  star_set cs (u ++ c :: w) = map (fun t => t ++ c :: w) (star_set cs u).
Proof.
  intros Hc. induction u as [|a u IH]; cbn.
  - now rewrite Hc.
  - destruct (in_charset cs a); [|reflexivity].
    now rewrite IH, map_app.
Qed.

Lemma firstn_before (k s : text) :
  firstn (length (k ++ s) - length s) (k ++ s) = k.
Proof.
  rewrite length_app, Nat.add_sub.
  now rewrite firstn_app, Nat.sub_diag, firstn_all, firstn_O, app_nil_r.
Qed.

Lemma rmatch_unread r c : unread_by c r = true -> forall (u w : text) g,
  rmatch r (u ++ c :: w) g = map (followed_by (c :: w)) (rmatch r u g).
Proof.
  induction r as [l|cs|cs|r1 IH1 r2 IH2|r1 IH1 r2 IH2|r1 IH1|r1 IH1];
    cbn [unread_by]; intros Hr u w g.
  - apply negb_true_iff in Hr. cbn [rmatch]. rewrite strip_prefix_unread by done.
    now destruct (strip_prefix (chars l) u).
  - apply negb_true_iff in Hr. cbn [rmatch]. rewrite star_set_unread by done.
    rewrite !map_map. reflexivity.
  - apply negb_true_iff in Hr. cbn [rmatch]. destruct u as [|a u]; cbn [app].
    + now rewrite Hr.
    + destruct (in_charset cs a); [|reflexivity].
      rewrite star_set_unread by done. rewrite !map_map. reflexivity.
  - apply andb_true_iff in Hr as [Hr1 Hr2]. cbn [rmatch]. rewrite IH1 by done.
    induction (rmatch r1 u g) as [|st l IHl]; [reflexivity|].
    cbn [map flat_map]. rewrite map_app, <- IHl. f_equal.
    unfold followed_by at 1. cbn [fst snd]. now apply IH2.
  - apply andb_true_iff in Hr as [Hr1 Hr2]. cbn [rmatch].
    now rewrite IH1, IH2, map_app.
  - cbn [rmatch]. now rewrite IH1, map_app.
  - cbn [rmatch]. rewrite IH1 by done. rewrite !map_map.
    apply map_ext_in. intros st Hst. unfold followed_by. cbn [fst snd]. f_equal. f_equal.
    destruct (rmatch_suffix _ _ _ _ Hst) as [k ->].
    rewrite <- app_assoc, !firstn_before. reflexivity.
Qed.

(** ** What a group captures *)

Lemma star_set_consumed cs (s t : text) :
  In t (star_set cs s) -> exists w, s = w ++ t /\ forallb (in_charset cs) w = true.
Proof.
  revert t. induction s as [|c s IH]; intros t; cbn.
  - intros [<-|[]]. now exists [].
  - destruct (in_charset cs c) eqn:E; rewrite ?in_app_iff; cbn.
    + intros [H|[<-|[]]]; [|now exists []].
      destruct (IH _ H) as (w & -> & Hw). exists (c :: w). cbn. now rewrite E.
    + intros [<-|[]]. now exists [].
Qed.

Lemma plus_consumed cs (s : text) g st :
  In st (rmatch (RPlus cs) s g) ->
  exists w, w <> [] /\ s = w ++ fst st /\ forallb (in_charset cs) w = true /\ snd st = g.
Proof.
  cbn. destruct s as [|c s]; [intros []|].
  destruct (in_charset cs c) eqn:E; [|intros []].
  rewrite in_map_iff. intros (t & <- & Ht).
  destruct (star_set_consumed _ _ _ Ht) as (w & -> & Hw).
  exists (c :: w). cbn. now rewrite E.
Qed.

Lemma numeral_consumed (s : text) g st :
  In st (rmatch numeral s g) ->
  exists w, numeral_text w /\ s = w ++ fst st /\ snd st = g.
Proof.
  unfold numeral. cbn [rmatch]. rewrite in_flat_map.
  intros ([s1 g1] & H1 & H2).
  apply plus_consumed in H1 as (ip & Hne & Hs & Hip & Hg).
  cbn [fst snd] in *. subst s g1.
  apply in_app_iff in H2 as [H2|[<-|[]]].
  - rewrite in_flat_map in H2. destruct H2 as ([s2 g2] & Hdot & Hfp).
    cbn [fst snd] in *.
    destruct (strip_prefix (chars ".") s1) as [s2'|] eqn:Es; [|destruct Hdot].
    destruct Hdot as [[= <- <-]|[]].
    apply strip_prefix_app in Es. cbn in Es. subst s1.
    apply plus_consumed in Hfp as (fp & Hfne & Hr & Hfp & Hg).
    subst s2'.
    exists (ip ++ "."%char :: fp). split; [|split].
    + exists ip. repeat split; auto. right. exists fp. auto.
    + now rewrite <- app_assoc.
    + exact Hg.
  - exists ip. split; [|auto]. exists ip. auto.
Qed.

Lemma group_captures (r : regex) (s : text) g st :
  In st (rmatch (RGroup r) s g) ->
  exists st1 w, In st1 (rmatch r s g) /\ s = w ++ fst st1 /\
    fst st = fst st1 /\ snd st = Some w.
Proof.
  cbn. rewrite in_map_iff. intros (st1 & <- & H1).
  destruct (rmatch_suffix _ _ _ _ H1) as [w Hw].
  exists st1, w. repeat split; auto. cbn. f_equal.
  rewrite Hw, length_app, Nat.add_sub. now rewrite firstn_app, Nat.sub_diag, firstn_all, firstn_O, app_nil_r.
Qed.

Lemma rmatch_numeral_groups r : numeral_groups r -> forall (s : text) g st,
  numeral_or_unset g -> In st (rmatch r s g) -> numeral_or_unset (snd st).
Proof.
  induction 1 as [l|cs|cs|r1 r2 _ IH1 _ IH2|r1 r2 _ IH1 _ IH2|r1 _ IH1|];
    intros s g st Hg.
  - cbn. destruct (strip_prefix _ s); [|intros []]. now intros [<-|[]].
  - cbn. rewrite in_map_iff. now intros (t & <- & _).
  - intros Hin. now apply plus_consumed in Hin as (_ & _ & _ & _ & ->).
  - cbn. rewrite in_flat_map. intros (st1 & H1 & H2). eauto.
  - cbn. rewrite in_app_iff. intros [Hin|Hin]; eauto.
  - cbn. rewrite in_app_iff. intros [Hin|[<-|[]]]; eauto.
  - intros Hin. apply group_captures in Hin as (st1 & w & H1 & Hs & _ & Hw).
    apply numeral_consumed in H1 as (w' & Hnum & Hs' & _).
    rewrite Hs' in Hs. apply app_inv_tail in Hs. subst w'.
    intros w' Hw'. congruence.
Qed.

Lemma re_search_numeral r (s : text) w :
  numeral_groups r -> re_search r s = Some (Some w) -> numeral_text w.
Proof.
  intros Hr H. destruct (re_search_found _ _ _ H) as (s' & st & _ & Hin & Hst).
  eapply (rmatch_numeral_groups r Hr s' None st); [discriminate|done..].
Qed.

(** Every numeral parses as a float. *)
Lemma digits_prefix_all (ip r : text) :
  all_digits ip = true ->
  match r with c :: _ => is_digit c = false | [] => True end ->
  digits_prefix (ip ++ r) = (ip, r).
Proof.
  intros Hip Hr. induction ip as [|c ip IH]; cbn.
  - destruct r as [|c r]; [done|]. cbn. now rewrite Hr.
  - cbn in Hip. apply andb_true_iff in Hip as [-> Hip]. now rewrite IH.
Qed.

Lemma py_float_numeral (w : text) : numeral_text w -> is_Some (py_float w).
Proof.
  intros (ip & Hne & Hip & [->|(fp & Hfne & Hfp & ->)]); unfold py_float.
  - rewrite <- (app_nil_r ip) at 1. rewrite digits_prefix_all by done.
    destruct ip; [done|eauto].
  - rewrite digits_prefix_all by done. cbn [Ascii.eqb Bool.eqb andb].
    fold (all_digits fp). rewrite Hfp. cbn.
    destruct ip; [done|]. cbn. eauto.
Qed.

(** ** The loop over the patterns *)

Section ScoreLoop.
Import ProductAnalysisEngine.

Variables (txt : text) (default : float).

Lemma score_loop_skip p ps :
  re_search p (py_lower txt) = None ->
  score_loop (p :: ps) txt default = score_loop ps txt default.
Proof. intros H. cbn. now rewrite H. Qed.

Lemma score_loop_hit p ps w f :
  re_search p (py_lower txt) = Some (Some w) -> py_float w = Some f ->
  score_loop (p :: ps) txt default = Ok (clamp f).
Proof. intros H Hf. cbn. now rewrite H; cbn; rewrite Hf. Qed.

Lemma score_loop_unparsed p ps w :
  re_search p (py_lower txt) = Some (Some w) -> py_float w = None ->
  score_loop (p :: ps) txt default = score_loop ps txt default.
Proof. intros H Hf. cbn. now rewrite H; cbn; rewrite Hf. Qed.

Lemma score_loop_no_match ps :
  Forall (fun p => re_search p (py_lower txt) = None) ps ->
  score_loop ps txt default = Ok default.
Proof.
  induction 1 as [|p ps Hp _ IH]; [done|]. now rewrite score_loop_skip.
Qed.

Lemma score_loop_returns ps :
  Forall (fun p => sets_group p = true) ps ->
  exists v, score_loop ps txt default = Ok v.
Proof.
  induction 1 as [|p ps Hp _ IH]; cbn; [eauto|].
  destruct (re_search p (py_lower txt)) as [g|] eqn:E; [|done].
  destruct (re_search_group _ _ _ Hp E) as [w ->]. cbn.
  destruct (py_float w); eauto.
Qed.


End ScoreLoop.

Lemma patterns_set_group :
  Forall (fun p => sets_group p = true) ProductAnalysisEngine.patterns.
Proof. repeat constructor. Qed.

Lemma patterns_need_digit :
  Forall (fun p => needs_digit p = true) ProductAnalysisEngine.patterns.
Proof. repeat constructor. Qed.

Lemma patterns_numeral_groups :
  Forall numeral_groups ProductAnalysisEngine.patterns.
Proof. repeat constructor. Qed.

Lemma is_digit_lower c : is_digit (lower_char c) = is_digit c.
Proof. destruct c as [[] [] [] [] [] [] [] []]; reflexivity. Qed.

Lemma no_digit_lower (s : text) : no_digit (py_lower s) = no_digit s.
Proof.
  induction s as [|c s IH]; [done|].
  cbn [py_lower map]. fold (py_lower s).
  now rewrite !no_digit_cons, is_digit_lower, IH.
Qed.

(** ** The score label met first *)

Lemma digits_prefix_split (s : text) :
  s = fst (digits_prefix s) ++ snd (digits_prefix s) /\
  all_digits (fst (digits_prefix s)) = true /\
  match snd (digits_prefix s) with c :: _ => is_digit c = false | [] => True end.
Proof.
  induction s as [|c s IH]; cbn; [done|].
  destruct (is_digit c) eqn:Ec.
  - destruct (digits_prefix s) as [d r]. cbn in *. destruct IH as (-> & Hd & Hr).
    rewrite Ec. done.
  - cbn. now rewrite Ec.
Qed.

Lemma star_set_digits (s : text) :
  exists l, star_set CDigit s = snd (digits_prefix s) :: l.
Proof.
  induction s as [|c s IH]; cbn; [eauto|].
  destruct (is_digit c) eqn:Ec.
  - destruct IH as [l ->]. destruct (digits_prefix s) as [d r]. cbn. eauto.
  - cbn. eauto.
Qed.

Lemma rmatch_plus_digits (s : text) g :
  match fst (digits_prefix s) with
  | [] => rmatch (RPlus CDigit) s g = []
  | _ :: _ => exists l, rmatch (RPlus CDigit) s g = (snd (digits_prefix s), g) :: l
  end.
Proof.
  destruct s as [|c s]; cbn; [done|].
  destruct (is_digit c) eqn:Ec; [|done].
  destruct (star_set_digits s) as [l ->].
  destruct (digits_prefix s) as [d r]. cbn. eauto.
Qed.

Lemma numeral_at_split (s w r : text) : numeral_at s = Some (w, r) -> s = w ++ r.
Proof.
  unfold numeral_at. pose proof (digits_prefix_split s) as (Hs & _ & _).
  destruct (digits_prefix s) as [ip r0]. cbn in Hs.
  destruct ip as [|d ip]; [discriminate|].
  destruct r0 as [|c r']; [now intros [= <- <-]|].
  destruct (Ascii.eqb_spec c "."%char) as [->|]; [|now intros [= <- <-]].
  pose proof (digits_prefix_split r') as (Hr & _ & _).
  destruct (digits_prefix r') as [fp r'']. cbn in Hr.
  destruct fp as [|f fp]; intros [= <- <-]; [done|].
  rewrite Hs, Hr. cbn [app]. now rewrite <- app_assoc.
Qed.

Lemma rmatch_seq r1 r2 (s : text) g :
  rmatch (RSeq r1 r2) s g = flat_map (fun st => rmatch r2 (fst st) (snd st)) (rmatch r1 s g).
Proof. reflexivity. Qed.

Lemma rmatch_opt r (s : text) g : rmatch (ROpt r) s g = rmatch r s g ++ [(s, g)].
Proof. reflexivity. Qed.

Lemma rmatch_lit_dot (s : text) g :
  rmatch (RLit ".") s g =
    match s with
    | c :: s' => if Ascii.eqb c "."%char then [(s', g)] else []
    | [] => []
    end.
Proof.
  destruct s as [|c s]; [reflexivity|].
  change (rmatch (RLit ".") (c :: s) g)
    with (match (if Ascii.eqb "."%char c then Some s else None) with
          | Some s' => [(s', g)]
          | None => []
          end).
  rewrite Ascii.eqb_sym. now destruct (Ascii.eqb c "."%char).
Qed.

(** The match the numeral pattern reports is the longest numeral. *)
Lemma rmatch_numeral_head (s w r : text) g :
  numeral_at s = Some (w, r) -> exists l, rmatch numeral s g = (r, g) :: l.
Proof.
  unfold numeral_at, numeral. rewrite rmatch_seq.
  pose proof (rmatch_plus_digits s g) as Hp.
  destruct (digits_prefix s) as [ip r0]. cbn [fst snd] in Hp.
  destruct ip as [|d ip]; [discriminate|]. destruct Hp as [l ->].
  cbn [flat_map fst snd]. rewrite rmatch_opt, rmatch_seq, rmatch_lit_dot.
  destruct r0 as [|c r'].
  - intros [= <- <-]. cbn. eauto.
  - destruct (Ascii.eqb c "."%char).
    + pose proof (rmatch_plus_digits r' g) as Hp'.
      cbn [flat_map fst snd]. rewrite app_nil_r.
      destruct (digits_prefix r') as [fp r'']. cbn [fst snd] in Hp'.
      destruct fp as [|f fp]; intros [= <- <-].
      * rewrite Hp'. cbn. eauto.
      * destruct Hp' as [l' ->]. cbn. eauto.
    + intros [= <- <-]. cbn. eauto.
Qed.

Lemma rmatch_group_numeral_head (s w r : text) g :
  numeral_at s = Some (w, r) ->
  exists l, rmatch (RGroup numeral) s g = (r, Some w) :: l.
Proof.
  intros H. destruct (rmatch_numeral_head s w r g H) as [l Hl].
  apply numeral_at_split in H. cbn [rmatch]. rewrite Hl. cbn [map fst].
  exists (map (fun st => (fst st, Some (firstn (length s - length (fst st)) s))) l).
  f_equal. f_equal. f_equal.
  rewrite H, length_app, Nat.add_sub.
  now rewrite firstn_app, Nat.sub_diag, firstn_all, firstn_O, app_nil_r.
Qed.

Lemma rmatch_group_numeral_none (s : text) g :
  match s with c :: _ => is_digit c = false | [] => True end ->
  rmatch (RGroup numeral) s g = [].
Proof.
  intros H. unfold numeral. cbn [rmatch].
  destruct s as [|c s]; [reflexivity|]. cbn [in_charset]. now rewrite H.
Qed.

Lemma digit_not_label_sep c : is_digit c = true -> in_charset label_sep c = false.
Proof. destruct c as [[] [] [] [] [] [] [] []]; vm_compute; congruence. Qed.

Lemma numeral_at_head (s : text) wr :
  numeral_at s = Some wr -> exists d s', s = d :: s' /\ is_digit d = true.
Proof.
  unfold numeral_at. destruct s as [|d s']; [discriminate|]. cbn [digits_prefix].
  destruct (is_digit d) eqn:Ed; [eauto|discriminate].
Qed.

(** Right after the label "score: " the pattern captures the longest
    numeral. *)
Lemma pattern_score_at_label (rest w r : text) :
  numeral_at rest = Some (w, r) ->
  exists l, rmatch ProductAnalysisEngine.pattern_score (chars "score: " ++ rest) None
            = (r, Some w) :: l.
Proof.
  intros H. destruct (numeral_at_head _ _ H) as (d & s' & -> & Hd).
  destruct (rmatch_group_numeral_head _ _ _ None H) as [l Hl].
  unfold ProductAnalysisEngine.pattern_score. rewrite rmatch_seq.
  change (rmatch (RLit "score") (chars "score: " ++ d :: s') None)
    with [(":"%char :: " "%char :: d :: s', @None text)].
  cbn [flat_map fst snd]. rewrite rmatch_seq, app_nil_r.
  change (rmatch (RPlus label_sep) (":"%char :: " "%char :: d :: s') None)
    with (map (fun t => (t, @None text))
            ((if in_charset label_sep d then star_set label_sep s' ++ [d :: s'] else [d :: s'])
             ++ [" "%char :: d :: s'])).
  rewrite (digit_not_label_sep _ Hd). cbn [map app flat_map fst snd].
  rewrite Hl. cbn [app]. eauto.
Qed.

(** Before it, in a text without digits, the pattern matches nowhere. *)
Lemma star_set_before_letter cs (u w : text) (t : text) :
  no_digit u = true ->
  match w with c :: _ => in_charset cs c = false /\ is_digit c = false | [] => True end ->
  In t (star_set cs (u ++ w)) ->
  match t with c :: _ => is_digit c = false | [] => True end.
Proof.
  intros Hu Hw. revert t. induction u as [|a u IH]; intros t; cbn [app].
  - destruct w as [|c w]; cbn.
    + now intros [<-|[]].
    + destruct Hw as [-> Hc]. now intros [<-|[]].
  - rewrite no_digit_cons in Hu. apply andb_true_iff in Hu as [Ha Hu].
    apply negb_true_iff in Ha. cbn [star_set].
    destruct (in_charset cs a); rewrite ?in_app_iff; cbn [In].
    + intros [H|[<-|[]]]; [now apply IH|exact Ha].
    + intros [<-|[]]. exact Ha.
Qed.

Lemma label_then_numeral_none (u w : text) g :
  no_digit u = true ->
  match w with c :: _ => in_charset label_sep c = false /\ is_digit c = false | [] => True end ->
  rmatch (RSeq (RPlus label_sep) (RGroup numeral)) (u ++ w) g = [].
Proof.
  intros Hu Hw. rewrite rmatch_seq. apply flat_map_empty. intros st Hst.
  apply rmatch_group_numeral_none.
  cbn [rmatch] in Hst. destruct (u ++ w) as [|c s] eqn:Es; [destruct Hst|].
  destruct (in_charset label_sep c) eqn:Ec; [|destruct Hst].
  apply in_map_iff in Hst as (t & <- & Ht). cbn [fst].
  destruct u as [|a u].
  - cbn in Es. subst w. destruct Hw as [Hw _]. congruence.
  - cbn in Es. injection Es as -> <-.
    rewrite no_digit_cons in Hu. apply andb_true_iff in Hu as [_ Hu].
    eapply star_set_before_letter; eassumption.
Qed.

Lemma pattern_score_not_before (u w : text) :
  u <> [] -> no_digit u = true ->
  rmatch ProductAnalysisEngine.pattern_score (u ++ "s"%char :: w) None = [].
Proof.
  intros Hne Hu. unfold ProductAnalysisEngine.pattern_score. rewrite rmatch_seq.
  apply flat_map_empty. intros st Hst. cbn [rmatch] in Hst.
  destruct (strip_prefix (chars "score") (u ++ "s"%char :: w)) as [t|] eqn:E; [|destruct Hst].
  destruct Hst as [<-|[]]. cbn [fst snd].
  apply strip_prefix_app in E. cbn in E.
  destruct u as [|c1 [|c2 [|c3 [|c4 [|c5 u]]]]]; try done; cbn in E; try congruence.
  injection E as -> -> -> -> -> <-.
  apply label_then_numeral_none; [|done].
  rewrite !no_digit_cons in Hu. now repeat (apply andb_true_iff in Hu as [_ Hu]).
Qed.

Lemma re_search_after (r : regex) (u w : text) :
  (forall u1 u2, u = u1 ++ u2 -> u2 <> [] -> rmatch r (u2 ++ w) None = []) ->
  re_search r (u ++ w) = re_search r w.
Proof.
  induction u as [|a u IH]; intros H; [reflexivity|].
  pose proof (H [] (a :: u) eq_refl ltac:(done)) as H0.
  cbn [app re_search] in *. rewrite H0.
  apply IH. intros u1 u2 -> Hu2. apply (H (a :: u1)); done.
Qed.

Lemma re_search_score_label (pre rest w r : text) :
  no_digit pre = true -> numeral_at rest = Some (w, r) ->
  re_search ProductAnalysisEngine.pattern_score (pre ++ chars "score: " ++ rest) = Some (Some w).
Proof.
  intros Hpre Hrest. rewrite re_search_after.
  - destruct (pattern_score_at_label _ _ _ Hrest) as [l Hl].
    destruct rest; cbn [app chars list_ascii_of_string re_search] in *; now rewrite Hl.
  - intros u1 u2 -> Hu2. apply pattern_score_not_before; [done|].
    rewrite no_digit_app in Hpre. now apply andb_true_iff in Hpre.
Qed.

(** An earlier match of the score pattern. *)
Lemma strip_score_before_s (u w : text) :
  u <> [] ->
  strip_prefix (chars "score") (u ++ "s"%char :: w) =
    option_map (fun t => t ++ "s"%char :: w) (strip_prefix (chars "score") u).
Proof.
  intros Hu.
  destruct u as [|c1 [|c2 [|c3 [|c4 [|c5 u]]]]]; try done;
    cbn [app strip_prefix chars list_ascii_of_string option_map];
    repeat match goal with
           | |- context [Ascii.eqb ?a ?b] =>
               destruct (Ascii.eqb_spec a b); try discriminate; try reflexivity
           end.
Qed.

(** A match of the score pattern that starts before a further "s" ends
    before it. *)
Lemma pattern_score_before_s (u w : text) :
  u <> [] ->
  rmatch ProductAnalysisEngine.pattern_score (u ++ "s"%char :: w) None =
    map (followed_by ("s"%char :: w)) (rmatch ProductAnalysisEngine.pattern_score u None).
Proof.
  intros Hu. unfold ProductAnalysisEngine.pattern_score. rewrite !(rmatch_seq (RLit "score")).
  cbn [rmatch]. rewrite strip_score_before_s by done.
  destruct (strip_prefix (chars "score") u) as [t|]; [|reflexivity].
  cbn [option_map flat_map fst snd]. rewrite !app_nil_r.
  now apply (rmatch_unread (RSeq (RPlus label_sep) (RGroup numeral))).
Qed.

(** The search in a text that goes on with an "s": a match in the first
    part is the one reported; without one, the search starts at the "s". *)
Lemma re_search_before_s (u w : text) :
  re_search ProductAnalysisEngine.pattern_score (u ++ "s"%char :: w) =
    match re_search ProductAnalysisEngine.pattern_score u with
    | Some g => Some g
    | None => re_search ProductAnalysisEngine.pattern_score ("s"%char :: w)
    end.
Proof.
  induction u as [|a u IH]; [reflexivity|].
  cbn [app re_search].
  change (a :: u ++ "s"%char :: w) with ((a :: u) ++ "s"%char :: w).
  rewrite pattern_score_before_s by done.
  destruct (rmatch ProductAnalysisEngine.pattern_score (a :: u) None) as [|st l]; [exact IH|reflexivity].
Qed.



(** *** The value of a numeral *)








Lemma chars_app (a b : string) : chars (a +:+ b) = chars a ++ chars b.
Proof.
  unfold chars. induction a as [|c a IH]; [reflexivity|].
  change (list_ascii_of_string (String c a +:+ b))
    with (c :: list_ascii_of_string (a +:+ b)).
  now rewrite IH.
Qed.

Lemma py_lower_app (s t : text) : py_lower (s ++ t) = py_lower s ++ py_lower t.
Proof. apply map_app. Qed.

(** * The claims about the score extractor *)

Section Extractor.
Import ProductAnalysisEngine.

(** C3.  [extract_numeric_score] always returns: it raises nothing, whatever
    the text and the default.  When no pattern matches, and in particular
    when the text holds no digit, the result is the default itself, not
    clamped.  A matched token that [float] rejects makes the loop go on with
    the remaining patterns. *)
Theorem extract_numeric_score_total (txt : string) (default : float) :
  (exists v, extract_numeric_score txt default = Ok v) /\
  (Forall (fun p => re_search p (py_lower (chars txt)) = None) patterns ->
   extract_numeric_score txt default = Ok default) /\
  (no_digit (chars txt) = true -> extract_numeric_score txt default = Ok default) /\
  (forall p ps w,
     re_search p (py_lower (chars txt)) = Some (Some w) -> py_float w = None ->
     score_loop (p :: ps) (chars txt) default = score_loop ps (chars txt) default).
Proof.
  unfold extract_numeric_score. repeat split.
  - apply score_loop_returns, patterns_set_group.
  - apply score_loop_no_match.
  - intros Hd. apply score_loop_no_match.
    eapply Forall_impl; [apply patterns_need_digit|].
    intros p Hp. apply re_search_no_digit; [done|]. now rewrite no_digit_lower.
  - intros p ps w. apply score_loop_unparsed.
Qed.

(** The default comes back as it is, in the range or not. *)
Example extract_default_unclamped :
  extract_numeric_score "no rating was given" 42.0 = Ok 42.0%float /\
  extract_numeric_score "" (-3.0) = Ok (-3.0)%float.
Proof. split; reflexivity. Qed.

(** A token that does not parse sends the loop to the next pattern. *)
Example score_loop_goes_on :
  re_search (RGroup (RLit "n/a")) (py_lower (chars "n/a, score: 7")) = Some (Some (chars "n/a")) /\
  py_float (chars "n/a") = None /\
  score_loop [RGroup (RLit "n/a"); pattern_score] (chars "n/a, score: 7") 5.0 = Ok 7.0%float.
Proof. repeat split; reflexivity. Qed.

(** C4.  The patterns are tried in their order, each over the whole
    lower-cased text: when the score-label pattern matches anywhere, its
    leftmost match gives the result, whatever the other patterns would match
    and wherever. *)
Theorem score_label_has_priority (txt : string) (default : float) (w : text) :
  re_search pattern_score (py_lower (chars txt)) = Some (Some w) ->
  exists f, py_float w = Some f /\ extract_numeric_score txt default = Ok (clamp f).
Proof.
  intros H.
  assert (numeral_text w) as Hw.
  { eapply re_search_numeral; [|exact H]. repeat constructor. }
  destruct (py_float_numeral _ Hw) as [f Hf].
  exists f. split; [done|]. unfold extract_numeric_score, patterns.
  eapply score_loop_hit; eassumption.
Qed.

Lemma score_label_has_priority_witness :
  re_search pattern_out_of_10 (py_lower (chars "8/10 overall. Score: 3")) = Some (Some (chars "8")) /\
  exists f, py_float (chars "3") = Some f /\
    extract_numeric_score "8/10 overall. Score: 3" 5.0 = Ok (clamp f).
Proof.
  split; [reflexivity|].
  apply (score_label_has_priority "8/10 overall. Score: 3" 5.0 (chars "3")).
  reflexivity.
Defined.

Example score_label_beats_earlier_fraction :
  extract_numeric_score "8/10 overall. Score: 3" 5.0 = Ok 3.0%float.
Proof. reflexivity. Qed.

(** C10.  The suffix patterns accept a digit run directly followed by the
    digits 10: in the text "in 2010" they capture "20", and the extractor
    returns 20 clamped, 10.0, for any default. *)
Theorem year_read_as_score (default : float) :
  re_search pattern_score (py_lower (chars "in 2010")) = None /\
  re_search pattern_out_of_10 (py_lower (chars "in 2010")) = Some (Some (chars "20")) /\
  re_search pattern_slash_10 (py_lower (chars "in 2010")) = Some (Some (chars "20")) /\
  extract_numeric_score "in 2010" default = Ok 10.0%float.
Proof. repeat split; reflexivity. Qed.

End Extractor.

(** C6.  The commercial-value extractor returns the parsed number as it
    is: unlike its sibling it applies no clamp, and "value: 15" gives 15.0. *)
Theorem keyword_extractor_does_not_clamp :
  KeywordAnalyzer.extract_numeric_score "value: 15" 5.0 = Ok 15.0%float /\
  KeywordAnalyzer.extract_numeric_score "commercial value: 0.2" 5.0 = Ok 0.2%float /\
  ProductAnalysisEngine.extract_numeric_score "score: 15" 5.0 = Ok 10.0%float.
Proof. repeat split; reflexivity. Qed.

Section FirstLabel.
Import ProductAnalysisEngine.

Local Open Scope string_scope.





Lemma extract_after_first_label (pre rest : string) (default : float) (w r : text) f :
  re_search pattern_score (py_lower (chars pre)) = None ->
  numeral_at (py_lower (chars rest)) = Some (w, r) -> py_float w = Some f ->
  extract_numeric_score (pre +:+ "score: " +:+ rest) default = Ok (clamp f).
Proof.
  intros Hpre Hrest Hf. unfold extract_numeric_score, patterns.
  eapply score_loop_hit; [|exact Hf].
  rewrite !chars_app, !py_lower_app.
  change (py_lower (chars "score: ")) with ("s"%char :: chars "core: ").
  rewrite <- app_comm_cons, re_search_before_s, Hpre.
  now apply (re_search_score_label [] _ w r).
Qed.

(** A score label with its number in the text before: that number is the
    one returned. *)
Lemma earlier_score_label_is_returned (pre rest : string) (default : float) (w : text) :
  re_search pattern_score (py_lower (chars pre)) = Some (Some w) ->
  exists f, py_float w = Some f /\
    extract_numeric_score (pre +:+ "score: " +:+ rest) default = Ok (clamp f).
Proof.
  intros Hpre.
  assert (numeral_text w) as Hw.
  { eapply re_search_numeral; [|exact Hpre]. repeat constructor. }
  destruct (py_float_numeral _ Hw) as [f Hf].
  exists f. split; [done|]. unfold extract_numeric_score, patterns.
  eapply score_loop_hit; [|exact Hf].
  rewrite !chars_app, !py_lower_app.
  change (py_lower (chars "score: ")) with ("s"%char :: chars "core: ").
  now rewrite <- app_comm_cons, re_search_before_s, Hpre.
Qed.

(** C5, as the code has it.  When the score pattern has no match in the
    text before "score: N" - no score label with a number earlier -, N
    being the whole numeral at that place and a float of [1.0, 10.0], the
    extractor returns that float, whatever the default. *)
Theorem first_score_label_is_returned (pre N post : string) (default f : float) :
  re_search pattern_score (py_lower (chars pre)) = None ->
  numeral_at (py_lower (chars (N +:+ post))) = Some (chars N, py_lower (chars post)) ->
  py_float (chars N) = Some f -> in_range f = true ->
  extract_numeric_score (pre +:+ "score: " +:+ N +:+ post) default = Ok f.
Proof.
  intros Hpre HN Hf Hr. unfold in_range in Hr. apply andb_true_iff in Hr as [H1 H2].
  rewrite <- (clamp_id f H1 H2).
  apply (extract_after_first_label pre (N +:+ post) default _ _ f Hpre HN Hf).
Qed.

Lemma first_score_label_is_returned_witness :
  no_digit (chars "Top 3 of 2024, 8/10. Trend ") = false /\
  extract_numeric_score ("Top 3 of 2024, 8/10. Trend " +:+ "score: " +:+ "7.5" +:+ " out of 10, rising")
    42.0 = Ok 7.5%float /\
  extract_numeric_score ("Top 3 of 2024, 8/10. Trend " +:+ "score: " +:+ "7.5" +:+ " out of 10, rising")
    (-1.0)%float = Ok 7.5%float.
Proof.
  split; [reflexivity|]. split.
  - apply (first_score_label_is_returned "Top 3 of 2024, 8/10. Trend " "7.5" " out of 10, rising"
             42.0%float 7.5%float); reflexivity.
  - apply (first_score_label_is_returned "Top 3 of 2024, 8/10. Trend " "7.5" " out of 10, rising"
             (-1.0)%float 7.5%float); reflexivity.
Defined.

(** The text holds "score: 7", and 7 lies in [1, 10]; the result is the
    earlier 2.0. *)
Lemma later_score_label_is_not_returned :
  py_float (chars "7") = Some 7.0%float /\
  extract_numeric_score "score: 2 and then score: 7" 5.0 = Ok 2.0%float.
Proof. split; reflexivity. Qed.

End FirstLabel.

(** * The claims about the opportunity scorer *)

Section Scorer.
Import ProductAnalysisEngine.

Ltac in_list := solve [rewrite !elem_of_cons; repeat first [left; reflexivity | right]].

Local Open Scope string_scope.

Lemma weights_trend : dict_item weights "trend_score" = Ok 0.25%float.
Proof. reflexivity. Qed.

Lemma weights_profit : dict_item weights "profit_potential" = Ok 0.30%float.
Proof. reflexivity. Qed.

Lemma weights_demand : dict_item weights "market_demand" = Ok 0.30%float.
Proof. reflexivity. Qed.

Lemma weights_competition : dict_item weights "competition_score" = Ok 0.15%float.
Proof. reflexivity. Qed.

(** The scorer, with the look-ups in the weight table carried out. *)
Lemma calculate_opportunity_score_eq (analysis : gmap string pyval) :
  calculate_opportunity_score analysis =
    (t ← as_float (dict_get analysis "trend_score" (PFloat 5.0));
     p ← as_float (dict_get analysis "profit_potential" (PFloat 5.0));
     m ← as_float (dict_get analysis "market_demand" (PFloat 5.0));
     Ok (py_round (t * 0.25 + p * 0.30 + m * 0.30
                   + competition_score analysis * 0.15) 2)).
Proof.
  unfold calculate_opportunity_score, weighted, mul_float.
  rewrite weights_trend, weights_profit, weights_demand, weights_competition.
  destruct (as_float (dict_get analysis "trend_score" (PFloat 5.0))); [|reflexivity].
  destruct (as_float (dict_get analysis "profit_potential" (PFloat 5.0))); [|reflexivity].
  destruct (as_float (dict_get analysis "market_demand" (PFloat 5.0))); reflexivity.
Qed.

Lemma competition_scores_unknown (level : string) :
  level ∉ ["Low"; "Medium"; "High"; "Very High"] ->
  dict_get competition_scores level 5.0%float = 5.0%float.
Proof.
  intros H. rewrite !not_elem_of_cons in H. destruct H as (H1 & H2 & H3 & H4 & _).
  unfold dict_get, competition_scores.
  destruct (decide (level = "Unknown")) as [->|Hu]; [reflexivity|].
  rewrite !lookup_insert_ne, lookup_singleton_ne by congruence. reflexivity.
Qed.

Lemma competition_scores_spec (level : string) :
  dict_get competition_scores level 5.0%float = spec_competition_proxy level.
Proof.
  unfold spec_competition_proxy.
  destruct (String.eqb_spec level "Low") as [->|H1]; [reflexivity|].
  destruct (String.eqb_spec level "Medium") as [->|H2]; [reflexivity|].
  destruct (String.eqb_spec level "High") as [->|H3]; [reflexivity|].
  destruct (String.eqb_spec level "Very High") as [->|H4]; [reflexivity|].
  apply competition_scores_unknown. rewrite !not_elem_of_cons.
  repeat split; auto. apply not_elem_of_nil.
Qed.

(** C1.  On a record whose three sub-scores are numbers of [1.0, 10.0] and
    whose competition level is one of the five labels, the scorer returns
    the spec's rounded weighted sum, with the proxy of the spec's table;
    all-10 with Low gives 9.85, all-1 with Very High 1.15, all-5.0 with
    Unknown 5.0. *)
Theorem calculate_opportunity_score_formula :
  (forall (analysis : gmap string pyval) vt vp vm t p m level,
     analysis !! "trend_score" = Some vt -> as_float vt = Ok t -> in_range t = true ->
     analysis !! "profit_potential" = Some vp -> as_float vp = Ok p -> in_range p = true ->
     analysis !! "market_demand" = Some vm -> as_float vm = Ok m -> in_range m = true ->
     analysis !! "competition_level" = Some (PStr level) ->
     level ∈ ["Low"; "Medium"; "High"; "Very High"; "Unknown"] ->
     calculate_opportunity_score analysis = Ok (spec_score t p m level)) /\
  calculate_opportunity_score
    {[ "trend_score" := PInt 10; "profit_potential" := PInt 10;
       "market_demand" := PInt 10; "competition_level" := PStr "Low" ]} = Ok 9.85%float /\
  calculate_opportunity_score
    {[ "trend_score" := PInt 1; "profit_potential" := PInt 1;
       "market_demand" := PInt 1; "competition_level" := PStr "Very High" ]} = Ok 1.15%float /\
  calculate_opportunity_score
    {[ "trend_score" := PFloat 5.0; "profit_potential" := PFloat 5.0;
       "market_demand" := PFloat 5.0; "competition_level" := PStr "Unknown" ]} = Ok 5.0%float.
Proof.
  split; [|repeat split; reflexivity].
  intros analysis vt vp vm t p m level Ht Hft _ Hp Hfp _ Hm Hfm _ Hl _.
  rewrite calculate_opportunity_score_eq. unfold dict_get at 1 2 3.
  rewrite Ht, Hp, Hm. cbn [from_option id]. rewrite Hft, Hfp, Hfm.
  unfold spec_score, competition_score, dict_get at 1. rewrite Hl. cbn [from_option id].
  now rewrite competition_scores_spec.
Qed.

Lemma calculate_opportunity_score_formula_witness :
  calculate_opportunity_score
    {[ "trend_score" := PFloat 7.5; "profit_potential" := PInt 9;
       "market_demand" := PFloat 6.0; "competition_level" := PStr "Medium" ]}
  = Ok (spec_score 7.5 9.0 6.0 "Medium").
Proof.
  apply (proj1 calculate_opportunity_score_formula _ (PFloat 7.5) (PInt 9) (PFloat 6.0));
    first [reflexivity | in_list].
Defined.

(** With floats for the same numbers the three results are the same. *)
Example calculate_opportunity_score_examples :
  calculate_opportunity_score
    {[ "trend_score" := PFloat 10.0; "profit_potential" := PFloat 10.0;
       "market_demand" := PFloat 10.0; "competition_level" := PStr "Low" ]} = Ok 9.85%float /\
  calculate_opportunity_score
    {[ "trend_score" := PFloat 1.0; "profit_potential" := PFloat 1.0;
       "market_demand" := PFloat 1.0; "competition_level" := PStr "Very High" ]} = Ok 1.15%float /\
  spec_score 7.5 9.0 6.0 "Medium" = 7.27%float.
Proof. repeat split; reflexivity. Qed.

(** C7, as the code has it.  The scorer checks no range: whatever floats
    the record supplies for the three sub-scores, inside [1.0, 10.0] or
    not, they enter the weighted sum as they are, and the rounded sum is
    returned; nothing is rejected and nothing is clamped. *)
Theorem calculate_opportunity_score_unchecked
    (analysis : gmap string pyval) (t p m : float) :
  analysis !! "trend_score" = Some (PFloat t) ->
  analysis !! "profit_potential" = Some (PFloat p) ->
  analysis !! "market_demand" = Some (PFloat m) ->
  calculate_opportunity_score analysis =
    Ok (py_round (t * 0.25 + p * 0.30 + m * 0.30 + competition_score analysis * 0.15) 2).
Proof.
  intros Ht Hp Hm. rewrite calculate_opportunity_score_eq. unfold dict_get at 1 2 3.
  now rewrite Ht, Hp, Hm.
Qed.

Lemma calculate_opportunity_score_unchecked_witness :
  calculate_opportunity_score
    {[ "trend_score" := PFloat 100.0; "profit_potential" := PFloat 0.0;
       "market_demand" := PFloat (-20.0) ]}
  = Ok (py_round (100.0 * 0.25 + 0.0 * 0.30 + (-20.0) * 0.30
                  + competition_score
                      {[ "trend_score" := PFloat 100.0; "profit_potential" := PFloat 0.0;
                         "market_demand" := PFloat (-20.0) ]} * 0.15) 2).
Proof.
  apply (calculate_opportunity_score_unchecked _ 100.0 0.0 (-20.0)); reflexivity.
Defined.

(** A trend score of 100 is neither rejected nor clamped to 10: the result
    is 28.75, where the clamped value would give 6.25. *)
Lemma out_of_range_score_flows_through :
  calculate_opportunity_score {[ "trend_score" := PFloat 100.0 ]} = Ok 28.75%float /\
  calculate_opportunity_score {[ "trend_score" := PFloat 10.0 ]} = Ok 6.25%float.
Proof. split; reflexivity. Qed.

Lemma as_float_numeric (analysis : gmap string pyval) (key : string) :
  numeric_or_absent (analysis !! key) ->
  exists f, as_float (dict_get analysis key (PFloat 5.0)) = Ok f.
Proof.
  unfold dict_get. destruct (analysis !! key) as [[f|n|s|]|]; cbn; try done; eauto.
Qed.

Lemma competition_score_insert (analysis : gmap string pyval) (key : string) v :
  key <> "competition_level" ->
  competition_score (<[key := v]> analysis) = competition_score analysis.
Proof.
  intros H. unfold competition_score, dict_get. now rewrite lookup_insert_ne.
Qed.

Lemma dict_get_insert_ne {V} (d : gmap string V) (k k' : string) v dflt :
  k <> k' -> dict_get (<[k := v]> d) k' dflt = dict_get d k' dflt.
Proof. intros H. unfold dict_get. now rewrite lookup_insert_ne. Qed.

Lemma dict_get_insert_absent {V} (d : gmap string V) (k : string) dflt :
  d !! k = None -> dict_get (<[k := dflt]> d) k dflt = dict_get d k dflt.
Proof. intros H. unfold dict_get. now rewrite lookup_insert_eq, H. Qed.

Lemma dict_get_counts_as (analysis : gmap string pyval) (key : string) (x : float) :
  counts_as (analysis !! key) x ->
  as_float (dict_get analysis key (PFloat 5.0)) = Ok x.
Proof.
  unfold counts_as, dict_get. destruct (analysis !! key) as [v|]; cbn; [done|].
  now intros ->.
Qed.

Lemma competition_score_unrecognised (analysis : gmap string pyval) :
  unrecognised (analysis !! "competition_level") -> competition_score analysis = 5.0%float.
Proof.
  unfold unrecognised, competition_score, dict_get at 1.
  destruct (analysis !! "competition_level") as [[f|n|level|]|]; cbn; try reflexivity.
  apply competition_scores_unknown.
Qed.

(** C8.  Missing or unrecognised inputs make no failure, and 5.0 stands
    in for them in the weighted sum.  With each of the three factors absent
    or a number, the scorer returns the rounded sum of the weighted factors,
    an absent one taken as 5.0 (not as zero); a competition level that is
    absent, that is a string outside the table, or that is no string at all
    enters that sum as 5.0.  An absent level and an explicit "Unknown" give
    the same result, and an absent factor the result of the record with 5.0
    filled in. *)
Theorem calculate_opportunity_score_defaults (analysis : gmap string pyval) :
  (forall t p m,
     counts_as (analysis !! "trend_score") t ->
     counts_as (analysis !! "profit_potential") p ->
     counts_as (analysis !! "market_demand") m ->
     calculate_opportunity_score analysis =
       Ok (py_round (t * 0.25 + p * 0.30 + m * 0.30 + competition_score analysis * 0.15) 2) /\
     (unrecognised (analysis !! "competition_level") ->
      calculate_opportunity_score analysis =
        Ok (py_round (t * 0.25 + p * 0.30 + m * 0.30 + 5.0 * 0.15) 2))) /\
  (analysis !! "competition_level" = None -> competition_score analysis = 5.0%float) /\
  (forall level, analysis !! "competition_level" = Some (PStr level) ->
     level ∉ ["Low"; "Medium"; "High"; "Very High"] ->
     competition_score analysis = 5.0%float) /\
  (forall v, analysis !! "competition_level" = Some v -> (forall level, v <> PStr level) ->
     competition_score analysis = 5.0%float) /\
  calculate_opportunity_score (delete "competition_level" analysis) =
    calculate_opportunity_score (<["competition_level" := PStr "Unknown"]> analysis) /\
  (forall key, key ∈ ["trend_score"; "profit_potential"; "market_demand"] ->
     analysis !! key = None ->
     calculate_opportunity_score analysis =
       calculate_opportunity_score (<[key := PFloat 5.0]> analysis)) /\
  (numeric_or_absent (analysis !! "trend_score") ->
   numeric_or_absent (analysis !! "profit_potential") ->
   numeric_or_absent (analysis !! "market_demand") ->
   exists v, calculate_opportunity_score analysis = Ok v).
Proof.
  split; [|repeat split].
  - intros t p m Ht Hp Hm.
    assert (calculate_opportunity_score analysis =
              Ok (py_round (t * 0.25 + p * 0.30 + m * 0.30
                            + competition_score analysis * 0.15) 2)) as Hsum.
    { rewrite calculate_opportunity_score_eq.
      now rewrite (dict_get_counts_as _ _ _ Ht), (dict_get_counts_as _ _ _ Hp),
        (dict_get_counts_as _ _ _ Hm). }
    split; [exact Hsum|].
    intros Hl. now rewrite Hsum, (competition_score_unrecognised _ Hl).
  - intros H. unfold competition_score, dict_get. now rewrite H.
  - intros level H Hl. unfold competition_score, dict_get at 1. rewrite H.
    now apply competition_scores_unknown.
  - intros v H Hv. unfold competition_score, dict_get. rewrite H.
    destruct v; try reflexivity. now destruct (Hv s).
  - rewrite !calculate_opportunity_score_eq. unfold competition_score, dict_get.
    rewrite lookup_delete_eq, lookup_insert_eq.
    rewrite !lookup_delete_ne, !lookup_insert_ne by done. reflexivity.
  - intros key Hkey Habs. rewrite !calculate_opportunity_score_eq.
    rewrite competition_score_insert
      by (intros ->; repeat (apply elem_of_cons in Hkey as [Hkey|Hkey]; [done|]);
          now apply elem_of_nil in Hkey).
    repeat (apply elem_of_cons in Hkey as [->|Hkey]);
      [..|now apply elem_of_nil in Hkey];
      rewrite dict_get_insert_absent by done;
      rewrite !dict_get_insert_ne by done; reflexivity.
  - intros Ht Hp Hm. rewrite calculate_opportunity_score_eq.
    destruct (as_float_numeric _ _ Ht) as [t ->].
    destruct (as_float_numeric _ _ Hp) as [p ->].
    destruct (as_float_numeric _ _ Hm) as [m ->].
    cbn [mbind pyresult_bind]. eauto.
Qed.

Lemma calculate_opportunity_score_defaults_witness :
  calculate_opportunity_score
    {[ "profit_potential" := PInt 9; "competition_level" := PStr "low" ]}
  = Ok (py_round (5.0 * 0.25 + 9.0 * 0.30 + 5.0 * 0.30 + 5.0 * 0.15) 2) /\
  py_round (5.0 * 0.25 + 9.0 * 0.30 + 5.0 * 0.30 + 5.0 * 0.15) 2 = 6.2%float /\
  py_round (0.0 * 0.25 + 9.0 * 0.30 + 0.0 * 0.30 + 0.0 * 0.15) 2 = 2.7%float.
Proof.
  split; [|split; reflexivity].
  refine (proj2 (proj1 (calculate_opportunity_score_defaults
                          {[ "profit_potential" := PInt 9; "competition_level" := PStr "low" ]})
                   5.0%float 9.0%float 5.0%float _ _ _) _); try reflexivity.
  change (unrecognised (Some (PStr "low"))). unfold unrecognised.
  rewrite !not_elem_of_cons. repeat (split; [discriminate|]). apply not_elem_of_nil.
Defined.

(** With nothing supplied every factor is 5.0 and the result is 5.0; a
    factor read as zero would give less. *)
Example calculate_opportunity_score_empty :
  calculate_opportunity_score ∅ = Ok 5.0%float /\
  calculate_opportunity_score {[ "competition_level" := PStr "low" ]} = Ok 5.0%float /\
  calculate_opportunity_score {[ "competition_level" := PNone ]} = Ok 5.0%float /\
  calculate_opportunity_score {[ "trend_score" := PFloat 0.0 ]} = Ok 3.75%float.
Proof. repeat split; reflexivity. Qed.

(** The competition proxy is one of the five numbers of the table. *)
Lemma competition_score_values (analysis : gmap string pyval) :
  competition_score analysis ∈ [9.0; 6.0; 4.0; 2.0; 5.0]%float.
Proof.
  unfold competition_score.
  destruct (dict_get analysis "competition_level" (PStr "Unknown")) as [f|n|level|];
    try in_list.
  rewrite competition_scores_spec. unfold spec_competition_proxy.
  repeat (destruct (String.eqb level _); [in_list|]). in_list.
Qed.

Ltac closed_float_facts :=
  lazymatch goal with
  | |- finite_pos _ => eexists; eexists; vm_compute; reflexivity
  | |- between _ _ _ =>
      split; [eexists; eexists; vm_compute; reflexivity
             |split; vm_compute; intros Hcmp; discriminate Hcmp]
  | |- (_ <= _)%Q => vm_compute; intros Hcmp; discriminate Hcmp
  | |- (_ < _)%Z => reflexivity
  end.

Lemma in_range_between (f : float) :
  in_range f = true -> between (Qfloat 1.0) (Qfloat 10.0) f.
Proof.
  unfold in_range. rewrite andb_true_iff. intros [H1 H2].
  apply leb_between; [closed_float_facts..|done|done].
Qed.

Lemma between_in_range (f : float) :
  between (Qfloat 1.0) (Qfloat 10.0) f -> in_range f = true.
Proof.
  intros H. apply between_leb in H as [H1 H2]; [|closed_float_facts..].
  unfold in_range. now rewrite H1, H2.
Qed.

(** The weighted sum of in-range factors, before rounding, lies between
    1.140625 and 9.875. *)
Lemma weighted_sum_between (t p m cs : float) :
  in_range t = true -> in_range p = true -> in_range m = true ->
  cs ∈ [9.0; 6.0; 4.0; 2.0; 5.0]%float ->
  between (Qfloat 1.140625) (Qfloat 9.875) (t * 0.25 + p * 0.30 + m * 0.30 + cs * 0.15)%float.
Proof.
  intros Ht Hp Hm Hcs.
  apply in_range_between in Ht, Hp, Hm.
  assert (between (Qfloat 0.25) (Qfloat 2.5) (t * 0.25)%float) as Ha.
  { apply (mul_between t 0.25 0.25 2.5 (Qfloat 1.0) (Qfloat 10.0) (Qfloat 0.25) (Qfloat 0.25));
      first [assumption | closed_float_facts]. }
  assert (between (Qfloat 0.296875) (Qfloat 3.0) (p * 0.30)%float) as Hb.
  { apply (mul_between p 0.30 0.296875 3.0 (Qfloat 1.0) (Qfloat 10.0) (Qfloat 0.30) (Qfloat 0.30));
      first [assumption | closed_float_facts]. }
  assert (between (Qfloat 0.296875) (Qfloat 3.0) (m * 0.30)%float) as Hc.
  { apply (mul_between m 0.30 0.296875 3.0 (Qfloat 1.0) (Qfloat 10.0) (Qfloat 0.30) (Qfloat 0.30));
      first [assumption | closed_float_facts]. }
  assert (between (Qfloat 0.296875) (Qfloat 1.375) (cs * 0.15)%float) as Hd.
  { repeat (apply elem_of_cons in Hcs as [->|Hcs]; [closed_float_facts|]).
    now apply elem_of_nil in Hcs. }
  assert (between (Qfloat 0.546875) (Qfloat 5.5) (t * 0.25 + p * 0.30)%float) as Hab.
  { apply (add_between _ _ 0.546875 5.5 _ _ _ _ ltac:(closed_float_facts)
             ltac:(closed_float_facts) Ha Hb); closed_float_facts. }
  assert (between (Qfloat 0.84375) (Qfloat 8.5) (t * 0.25 + p * 0.30 + m * 0.30)%float) as Habc.
  { apply (add_between _ _ 0.84375 8.5 _ _ _ _ ltac:(closed_float_facts)
             ltac:(closed_float_facts) Hab Hc); closed_float_facts. }
  apply (add_between _ _ 1.140625 9.875 _ _ _ _ ltac:(closed_float_facts)
           ltac:(closed_float_facts) Habc Hd); closed_float_facts.
Qed.



End Scorer.

(** * The analysis around the scorer *)

Ltac in_list := solve [rewrite !elem_of_cons; repeat first [left; reflexivity | right]].

Ltac closed_float_facts :=
  lazymatch goal with
  | |- finite_pos _ => eexists; eexists; vm_compute; reflexivity
  | |- between _ _ _ =>
      split; [eexists; eexists; vm_compute; reflexivity
             |split; vm_compute; intros Hcmp; discriminate Hcmp]
  | |- (_ <= _)%Q => vm_compute; intros Hcmp; discriminate Hcmp
  | |- (_ < _)%Z => reflexivity
  end.

Ltac split_ands := repeat match goal with |- _ /\ _ => split end.

(** Runs a program of the [prog] monad as far as its calls are known. *)
Ltac run_prog := cbv [mbind prog_bind call update read of_result].

(** ** Scores of the scale *)

Section ScaleScores.
Import ProductAnalysisEngine.
Local Open Scope string_scope.

(** What the score loop returns is the default or a clamped number. *)
Lemma score_loop_value (ps : list regex) (txt : text) (default v : float) :
  score_loop ps txt default = Ok v -> v = default \/ exists f, v = clamp f.
Proof.
  induction ps as [|p ps IH]; cbn [score_loop].
  - intros [= <-]. now left.
  - destruct (re_search p (py_lower txt)) as [g|]; [|exact IH].
    destruct (float_of_group g) as [score|[]]; try discriminate; [|exact IH].
    intros [= <-]. right. now exists score.
Qed.

Lemma in_range_clamp (f : float) : in_range (clamp f) = true.
Proof. unfold in_range. destruct (clamp_range f) as [-> ->]. reflexivity. Qed.

Lemma clamp_in_range (f : float) : in_range f = true -> clamp f = f.
Proof.
  unfold in_range. rewrite andb_true_iff. intros [H1 H2]. now apply clamp_id.
Qed.

(** The extractor with the default 5.0 yields a float of the scale. *)
Lemma extract_numeric_score_in_range (txt : string) :
  exists f, extract_numeric_score txt 5.0 = Ok f /\ in_range f = true.
Proof.
  unfold extract_numeric_score.
  destruct (score_loop_returns (chars txt) 5.0 patterns patterns_set_group) as [v Hv].
  exists v. split; [exact Hv|].
  destruct (score_loop_value _ _ _ _ Hv) as [->|[f ->]]; [reflexivity|apply in_range_clamp].
Qed.

(** Adding a positive float never gives less. *)
Lemma add_ge_left (x y : float) :
  finite_pos x -> finite_pos y -> (x <=? x + y)%float = true.
Proof.
  intros (mx & ex & Hx) (my & ey & Hy).
  destruct (Prim2SF_canonical _ _ _ Hx) as [Hcx _].
  destruct (Prim2SF_canonical _ _ _ Hy) as [Hcy _].
  rewrite leb_spec, add_spec, Hx, Hy.
  apply (rounded_lower (Fval mx ex + Fval my ey)%Q); [apply SFadd_rounded; assumption|assumption|].
  pose proof (Fval_pos my ey). lra.
Qed.

Lemma in_range_finite_pos (x : float) : in_range x = true -> finite_pos x.
Proof.
  unfold in_range. rewrite andb_true_iff. intros [H1 H2].
  apply (leb_finite_pos 1.0 10.0); [closed_float_facts..|done|done].
Qed.

Lemma leb_trans_pos (a b c : float) :
  finite_pos a -> finite_pos b -> finite_pos c ->
  (a <=? b)%float = true -> (b <=? c)%float = true -> (a <=? c)%float = true.
Proof.
  intros Ha Hb Hc. rewrite !leb_Qfloat by assumption. intros; lra.
Qed.

Lemma leb_refl_pos (a : float) : finite_pos a -> (a <=? a)%float = true.
Proof. intros Ha. rewrite leb_Qfloat by assumption. lra. Qed.

(** [min(10.0, score + bonus)] keeps a score of the scale on the scale and
    never lowers it. *)
Lemma bonus_in_range (x b : float) :
  in_range x = true -> b ∈ [1.5; 1.0]%float ->
  in_range (py_min 10.0 (x + b)) = true /\ (x <=? py_min 10.0 (x + b))%float = true.
Proof.
  intros Hx Hb. pose proof (in_range_finite_pos x Hx) as Hfx.
  assert (finite_pos b) as Hfb.
  { repeat (apply elem_of_cons in Hb as [->|Hb]; [closed_float_facts|]).
    now apply elem_of_nil in Hb. }
  pose proof (add_ge_left x b Hfx Hfb) as Hge.
  unfold in_range in Hx. apply andb_true_iff in Hx as [H1 H2].
  unfold py_min. destruct (x + b <? 10.0)%float eqn:Hlt.
  - split; [|exact Hge]. unfold in_range. rewrite (ltb_leb _ _ Hlt), andb_true_r.
    assert (finite_pos (x + b)) as Hfs.
    { apply (leb_finite_pos x 10.0); [done|closed_float_facts|done|now apply ltb_leb]. }
    apply (leb_trans_pos 1.0 x); [closed_float_facts|done..].
  - split; [reflexivity|exact H2].
Qed.

Lemma in_profit_range_in_range (f : float) : in_profit_range f = true -> in_range f = true.
Proof.
  unfold in_profit_range, in_range. rewrite !andb_true_iff. intros [H1 H2]. split; [|done].
  assert (finite_pos f) as Hf by (apply (leb_finite_pos 2.0 10.0); [closed_float_facts..|done|done]).
  apply (leb_trans_pos 1.0 2.0 f); [closed_float_facts|closed_float_facts|done|reflexivity|done].
Qed.

Lemma bonus_in_profit_range (score bonus : float) :
  score ∈ [9.0; 7.0; 5.0; 3.0; 2.0]%float -> bonus ∈ [1.5; 1.0]%float ->
  in_profit_range score = true /\ in_profit_range (py_min 10.0 (score + bonus)) = true.
Proof.
  intros Hs Hb.
  repeat (apply elem_of_cons in Hs as [->|Hs]);
    [repeat (apply elem_of_cons in Hb as [->|Hb]); [split; reflexivity..|];
     now apply elem_of_nil in Hb ..|].
  now apply elem_of_nil in Hs.
Qed.

End ScaleScores.

(** ** The trend analysis *)

Section MarketTrends.
Import ProductAnalysisEngine.
Local Open Scope string_scope.

Lemma analyze_market_trends_returns (w : outside) (product : gmap string pyval) :
  exists t, in_range t = true /\
    analyze_market_trends w product =
      Returns {[ "score" := PFloat t; "explanation" := PStr (trend_response w) ]}.
Proof.
  destruct (extract_numeric_score_in_range (trend_response w)) as (f & Hf & Hr).
  exists f. split; [exact Hr|].
  unfold analyze_market_trends. rewrite Hf. cbn [of_result mbind pyoutcome_bind].
  fold (clamp f). now rewrite (clamp_in_range f Hr).
Qed.

(** X1.  Whatever the model replies, [analyze_market_trends] returns: its
    score is the number [extract_numeric_score] reads in the reply, with the
    default 5.0, a float of [1.0, 10.0] that the second clamp leaves as it
    is; its explanation is the reply. *)
Theorem analyze_market_trends_score (w : outside) (product : gmap string pyval) :
  exists f,
    extract_numeric_score (trend_response w) 5.0 = Ok f /\
    in_range f = true /\
    analyze_market_trends w product =
      Returns {[ "score" := PFloat f; "explanation" := PStr (trend_response w) ]}.
Proof.
  destruct (extract_numeric_score_in_range (trend_response w)) as (f & Hf & Hr).
  exists f. repeat split; [exact Hf|exact Hr|].
  unfold analyze_market_trends. rewrite Hf. cbn [of_result mbind pyoutcome_bind].
  fold (clamp f). now rewrite (clamp_in_range f Hr).
Qed.

End MarketTrends.

(** ** The profit estimate *)

Section ProfitPotential.
Import ProductAnalysisEngine.
Local Open Scope string_scope.

Lemma str_lower_text (d : gmap string pyval) (key : string) :
  text_or_absent (d !! key) ->
  exists s, str_lower (dict_get d key (PStr "")) = Returns s.
Proof.
  unfold dict_get. destruct (d !! key) as [[f|n|s|]|]; cbn; try done; eauto.
Qed.

Lemma margin_estimates_values (platform : string) :
  dict_get margin_estimates platform 0.25%float ∈ [0.25; 0.15; 0.35; 0.45]%float.
Proof.
  unfold dict_get, margin_estimates.
  destruct (decide (platform = "ebay")) as [->|H1]; [in_list|].
  destruct (decide (platform = "amazon")) as [->|H2]; [in_list|].
  destruct (decide (platform = "etsy")) as [->|H3]; [in_list|].
  destruct (decide (platform = "shopify")) as [->|H4]; [in_list|].
  rewrite !lookup_insert_ne, lookup_singleton_ne by congruence. in_list.
Qed.

Lemma margin_estimates_default (p : string) :
  p ∉ ["amazon"; "etsy"; "shopify"] -> dict_get margin_estimates p 0.25%float = 0.25%float.
Proof.
  intros H. rewrite !not_elem_of_cons in H. destruct H as (H1 & H2 & H3 & _).
  unfold dict_get, margin_estimates.
  destruct (decide (p = "ebay")) as [->|H0]; [reflexivity|].
  rewrite !lookup_insert_ne, lookup_singleton_ne by congruence. reflexivity.
Qed.

Lemma and_gt_int_number (d : gmap string pyval) (key : string) (k : Z) :
  number_none_or_absent (d !! key) ->
  exists b, and_gt_int (dict_get d key (PInt 0)) k = Ok b.
Proof.
  unfold dict_get, and_gt_int, gt_int.
  destruct (d !! key) as [[f|n|s|]|]; cbn [from_option id truthy]; try done;
    try destruct (negb _); eauto.
Qed.

Lemma mul_float_numeric (d : gmap string pyval) (key : string) (w : float) :
  numeric_or_absent (d !! key) ->
  exists f, mul_float (dict_get d key (PInt 0)) w = Ok f.
Proof.
  unfold dict_get, mul_float. destruct (d !! key) as [[f|n|s|]|]; cbn [from_option id]; try done.
  - cbn. eauto.
  - intros [f Hf]. cbn [as_float]. rewrite Hf. cbn. eauto.
  - cbn. eauto.
Qed.

(** X2.  For a product whose price is a number or absent, whose platform is
    a string or absent and whose sales count is a number, [None] or absent,
    [calculate_profit_potential] returns its record of three entries.  The
    score is one of thirteen values from 2.0 to 10.0: a tier 2, 3, 5, 7 or
    9, or a tier raised by 1.0 or 1.5 and capped at 10.0.  The margin is one
    of the four estimates. *)
Theorem calculate_profit_potential_score (product : gmap string pyval) :
  numeric_or_absent (product !! "price") ->
  text_or_absent (product !! "platform") ->
  number_none_or_absent (product !! "sales_count") ->
  exists score estimated_profit estimated_margin,
    calculate_profit_potential product =
      Returns {[ "score" := PFloat score;
                 "estimated_profit" := PFloat estimated_profit;
                 "estimated_margin" := PFloat estimated_margin ]} /\
    score ∈ [2.0; 3.0; 3.5; 4.0; 4.5; 5.0; 6.0; 6.5; 7.0; 8.0; 8.5; 9.0; 10.0]%float /\
    in_profit_range score = true /\
    estimated_margin ∈ [0.25; 0.15; 0.35; 0.45]%float.
Proof.
  intros Hprice Hplatform Hsales. unfold calculate_profit_potential.
  destruct (str_lower_text _ _ Hplatform) as [platform ->]. cbn [mbind pyoutcome_bind].
  destruct (mul_float_numeric _ _ (dict_get margin_estimates platform 0.25%float) Hprice)
    as [estimated_profit ->].
  cbn [of_result mbind pyoutcome_bind].
  destruct (and_gt_int_number _ _ 100 Hsales) as [many ->].
  destruct (and_gt_int_number _ _ 50 Hsales) as [some ->].
  cbn [mbind pyresult_bind].
  pose proof (margin_estimates_values platform) as Hm.
  destruct (float_gt_int estimated_profit 50), (float_gt_int estimated_profit 25),
    (float_gt_int estimated_profit 10), (float_gt_int estimated_profit 5), many, some;
    cbn [of_result mbind pyoutcome_bind pyresult_bind];
    (eexists; eexists; eexists; split; [reflexivity|]);
    (split; [vm_compute py_min; in_list|]);
    (split; [reflexivity|]); exact Hm.
Qed.

Lemma calculate_profit_potential_score_witness :
  exists score estimated_profit estimated_margin,
    calculate_profit_potential
      {[ "price" := PFloat 129.99; "platform" := PStr "eBay"; "sales_count" := PNone ]} =
      Returns {[ "score" := PFloat score;
                 "estimated_profit" := PFloat estimated_profit;
                 "estimated_margin" := PFloat estimated_margin ]} /\
    score ∈ [2.0; 3.0; 3.5; 4.0; 4.5; 5.0; 6.0; 6.5; 7.0; 8.0; 8.5; 9.0; 10.0]%float /\
    in_profit_range score = true /\
    estimated_margin ∈ [0.25; 0.15; 0.35; 0.45]%float.
Proof.
  apply (calculate_profit_potential_score
           {[ "price" := PFloat 129.99; "platform" := PStr "eBay"; "sales_count" := PNone ]});
    exact I.
Defined.

Lemma lower_char_idem (c : ascii) : lower_char (lower_char c) = lower_char c.
Proof. destruct c as [[] [] [] [] [] [] [] []]; reflexivity. Qed.

Lemma py_lower_idem (s : text) : py_lower (py_lower s) = py_lower s.
Proof.
  unfold py_lower. rewrite map_map. apply map_ext. intros c. apply lower_char_idem.
Qed.

Lemma chars_to_str (s : text) : chars (to_str s) = s.
Proof. apply list_ascii_of_string_of_list_ascii. Qed.

(** X3.  The profit estimate reads the platform without regard to case.  A
    platform that is none of amazon, etsy and shopify, and a product
    without a platform, are estimated as ebay is. *)
Theorem calculate_profit_potential_platform (product : gmap string pyval) (platform : string) :
  calculate_profit_potential (<["platform" := PStr platform]> product) =
    calculate_profit_potential
      (<["platform" := PStr (to_str (py_lower (chars platform)))]> product) /\
  (to_str (py_lower (chars platform)) ∉ ["amazon"; "etsy"; "shopify"] ->
   calculate_profit_potential (<["platform" := PStr platform]> product) =
     calculate_profit_potential (<["platform" := PStr "ebay"]> product)) /\
  (product !! "platform" = None ->
   calculate_profit_potential product =
     calculate_profit_potential (<["platform" := PStr "ebay"]> product)).
Proof.
  repeat split.
  - unfold calculate_profit_potential, dict_get.
    rewrite !lookup_insert_eq, !lookup_insert_ne by done.
    cbn [from_option id str_lower]. now rewrite chars_to_str, py_lower_idem.
  - intros H. apply margin_estimates_default in H.
    unfold calculate_profit_potential, dict_get in *.
    rewrite !lookup_insert_eq, !lookup_insert_ne by done.
    cbn [from_option id str_lower mbind pyoutcome_bind].
    rewrite H. reflexivity.
  - intros H. unfold calculate_profit_potential, dict_get.
    rewrite !lookup_insert_eq, !lookup_insert_ne, H by done.
    reflexivity.
Qed.

Lemma calculate_profit_potential_platform_witness :
  calculate_profit_potential (<["platform" := PStr "Walmart"]> {[ "price" := PFloat 250.0 ]}) =
  calculate_profit_potential (<["platform" := PStr "ebay"]> {[ "price" := PFloat 250.0 ]}).
Proof.
  apply (proj1 (proj2 (calculate_profit_potential_platform _ "Walmart"))).
  rewrite !not_elem_of_cons. repeat split; try discriminate. apply not_elem_of_nil.
Defined.

(** X4.  How the profit estimate fails.  A platform that is present and no
    string raises [AttributeError], whatever the price.  With a usable
    platform, a price that is no number ([None], a string) raises
    [TypeError], and with a usable price a sales count that is a non-empty
    string does. *)
Theorem calculate_profit_potential_errors (product : gmap string pyval) :
  (forall v, product !! "platform" = Some v -> (forall s, v <> PStr s) ->
     calculate_profit_potential product = Raises AttributeError) /\
  (text_or_absent (product !! "platform") ->
   forall v, product !! "price" = Some v -> as_float v = Raise TypeError ->
     calculate_profit_potential product = Raises (Builtin TypeError)) /\
  (text_or_absent (product !! "platform") -> numeric_or_absent (product !! "price") ->
   forall s, product !! "sales_count" = Some (PStr s) -> s <> "" ->
     calculate_profit_potential product = Raises (Builtin TypeError)).
Proof.
  repeat split.
  - intros v Hv Hs. unfold calculate_profit_potential, dict_get. rewrite Hv.
    cbn [from_option id]. destruct v; try reflexivity. now destruct (Hs s).
  - intros Hplatform v Hv Hf. unfold calculate_profit_potential.
    destruct (str_lower_text _ _ Hplatform) as [platform ->]. cbn [mbind pyoutcome_bind].
    unfold dict_get. rewrite Hv. cbn [from_option id]. unfold mul_float. rewrite Hf.
    reflexivity.
  - intros Hplatform Hprice s Hs Hne. unfold calculate_profit_potential.
    destruct (str_lower_text _ _ Hplatform) as [platform ->]. cbn [mbind pyoutcome_bind].
    destruct (mul_float_numeric _ _ (dict_get margin_estimates platform 0.25%float) Hprice)
      as [estimated_profit ->].
    cbn [of_result mbind pyoutcome_bind].
    unfold dict_get. rewrite Hs. cbn [from_option id].
    unfold and_gt_int. cbn [truthy gt_int].
    destruct (String.eqb_spec s ""); [done|]. reflexivity.
Qed.

Lemma calculate_profit_potential_errors_witness :
  calculate_profit_potential {[ "platform" := PNone; "price" := PStr "12" ]} = Raises AttributeError /\
  calculate_profit_potential {[ "platform" := PStr "eBay"; "price" := PNone ]} = Raises (Builtin TypeError) /\
  calculate_profit_potential {[ "price" := PInt 12; "sales_count" := PStr "many" ]} = Raises (Builtin TypeError).
Proof.
  split; [|split].
  - apply (proj1 (calculate_profit_potential_errors _) PNone); [reflexivity|discriminate].
  - apply (proj1 (proj2 (calculate_profit_potential_errors _))) with (v := PNone);
      [exact I|reflexivity|reflexivity].
  - apply (proj2 (proj2 (calculate_profit_potential_errors _))) with (s := "many");
      [exact I|now exists 12%float|reflexivity|discriminate].
Defined.

(** The record of a profit estimate holds a score of the profit scale. *)
Lemma calculate_profit_potential_returns (product r : gmap string pyval) :
  calculate_profit_potential product = Returns r ->
  exists score, r !! "score" = Some (PFloat score) /\ in_profit_range score = true.
Proof.
  unfold calculate_profit_potential.
  destruct (str_lower _) as [platform|]; [|discriminate]. cbn [mbind pyoutcome_bind].
  destruct (mul_float _ _) as [estimated_profit|]; [|discriminate].
  cbn [of_result mbind pyoutcome_bind].
  set (score := if float_gt_int estimated_profit 50 then _ else _).
  assert (score ∈ [9.0; 7.0; 5.0; 3.0; 2.0]%float) as Hscore.
  { subst score. repeat (destruct (float_gt_int estimated_profit _); [in_list|]). in_list. }
  clearbody score.
  destruct (bonus_in_profit_range score 1.5 Hscore ltac:(in_list)) as [H0 H15].
  destruct (bonus_in_profit_range score 1.0 Hscore ltac:(in_list)) as [_ H10].
  destruct (and_gt_int _ 100) as [[]|]; cbn [mbind pyresult_bind of_result pyoutcome_bind];
    [|destruct (and_gt_int _ 50) as [[]|]; cbn [mbind pyresult_bind of_result pyoutcome_bind]|];
    try discriminate; intros [= <-]; eexists; (split; [reflexivity|assumption]).
Qed.

Lemma calculate_profit_potential_total (product : gmap string pyval) :
  numeric_or_absent (product !! "price") ->
  text_or_absent (product !! "platform") ->
  number_none_or_absent (product !! "sales_count") ->
  exists r, calculate_profit_potential product = Returns r.
Proof.
  intros Hprice Hplatform Hsales. unfold calculate_profit_potential.
  destruct (str_lower_text _ _ Hplatform) as [platform ->]. cbn [mbind pyoutcome_bind].
  destruct (mul_float_numeric _ _ (dict_get margin_estimates platform 0.25%float) Hprice)
    as [estimated_profit ->].
  cbn [of_result mbind pyoutcome_bind].
  destruct (and_gt_int_number _ _ 100 Hsales) as [many ->].
  destruct (and_gt_int_number _ _ 50 Hsales) as [some ->].
  cbn [mbind pyresult_bind]. destruct many, some; cbn [of_result mbind pyoutcome_bind]; eauto.
Qed.

End ProfitPotential.

(** ** The demand assessment *)

Section MarketDemand.
Import ProductAnalysisEngine.
Local Open Scope string_scope.

Lemma gt_int_number (d : gmap string pyval) (key : string) (k : Z) :
  number_or_absent (d !! key) ->
  exists b, gt_int (dict_get d key (PInt 0)) k = Ok b.
Proof.
  unfold dict_get, gt_int. destruct (d !! key) as [[f|n|s|]|]; cbn [from_option id]; try done; eauto.
Qed.

Lemma float_gt_int_mono (x : float) (k k' : Z) :
  k' <= k -> float_gt_int x k = true -> float_gt_int x k' = true.
Proof.
  intros Hk. unfold float_gt_int. destruct (Prim2SF x) as [s|s| |s m e]; try done.
  - rewrite !Z.ltb_lt. lia.
  - destruct (0 <=? e)%Z eqn:He; rewrite !Z.ltb_lt; [lia|].
    apply Z.leb_gt in He. assert (0 < 2 ^ (- e)) by (apply Z.pow_pos_nonneg; lia). nia.
Qed.

Lemma gt_int_mono (v : pyval) (k k' : Z) :
  k' <= k -> gt_int v k = Ok true -> gt_int v k' = Ok true.
Proof.
  intros Hk. destruct v as [x|n|s|]; cbn [gt_int]; try discriminate.
  - intros [= H]. now rewrite (float_gt_int_mono x k k' Hk H).
  - intros [= H]. f_equal. apply Z.ltb_lt in H. apply Z.ltb_lt. lia.
Qed.

(** X5.  When the sales and review counts are numbers or absent,
    [assess_market_demand] returns.  Its score lies in [1.0, 10.0] and is
    never below the number read in the model's reply; it is that number
    when the sales count is not above 100 and the review count not above
    500. *)
Theorem assess_market_demand_score (w : outside) (product : gmap string pyval) :
  number_or_absent (product !! "sales_count") ->
  number_or_absent (product !! "review_count") ->
  exists f score,
    extract_numeric_score (demand_response w) 5.0 = Ok f /\
    assess_market_demand w product =
      Returns {[ "score" := PFloat score; "explanation" := PStr (demand_response w) ]} /\
    in_range score = true /\
    (f <=? score)%float = true /\
    (gt_int (dict_get product "sales_count" (PInt 0)) 100 = Ok false ->
     gt_int (dict_get product "review_count" (PInt 0)) 500 = Ok false ->
     score = f).
Proof.
  intros Hsales Hreviews.
  destruct (extract_numeric_score_in_range (demand_response w)) as (f & Hf & Hr).
  destruct (gt_int_number _ _ 1000 Hsales) as [many Hmany].
  destruct (gt_int_number _ _ 100 Hsales) as [some Hsome].
  destruct (gt_int_number _ _ 500 Hreviews) as [reviewed Hreviewed].
  pose proof (in_range_finite_pos f Hr) as Hff.
  assert (exists d, in_range d = true /\ (f <=? d)%float = true /\ (some = false -> d = f) /\
            (if many then Ok (py_min 10.0 (f + 1.5))
             else some ← gt_int (dict_get product "sales_count" (PInt 0)) 100;
                  if (some : bool) then Ok (py_min 10.0 (f + 1.0)) else Ok f) = Ok d)
    as (d & Hd & Hfd & Hsd & Hstep).
  { rewrite Hsome. cbn [mbind pyresult_bind]. destruct many; [|destruct some].
    - destruct (bonus_in_range f 1.5 Hr ltac:(in_list)) as [H1 H2].
      exists (py_min 10.0 (f + 1.5)). split; [exact H1|]. split; [exact H2|]. split; [|reflexivity].
      intros ->. rewrite (gt_int_mono _ 1000 100 ltac:(lia) Hmany) in Hsome. discriminate.
    - destruct (bonus_in_range f 1.0 Hr ltac:(in_list)) as [H1 H2].
      exists (py_min 10.0 (f + 1.0)). split; [exact H1|]. split; [exact H2|]. split; [discriminate|reflexivity].
    - exists f. split; [exact Hr|]. split; [now apply leb_refl_pos|]. split; reflexivity. }
  pose proof (in_range_finite_pos d Hd) as Hfd'.
  set (score := if reviewed then py_min 10.0 (d + 1.0) else d).
  assert (in_range score = true /\ (d <=? score)%float = true) as [Hs Hds].
  { subst score. destruct reviewed; [apply bonus_in_range; [done|in_list]|].
    split; [done|now apply leb_refl_pos]. }
  exists f, score. split; [exact Hf|]. split; [|split; [exact Hs|split]].
  - unfold assess_market_demand. rewrite Hf, Hmany. cbn [mbind pyresult_bind].
    rewrite Hstep. cbn [mbind pyresult_bind]. rewrite Hreviewed. cbn [mbind pyresult_bind of_result].
    fold score. fold (clamp score). now rewrite (clamp_in_range score Hs).
  - apply (leb_trans_pos f d score); try done. now apply in_range_finite_pos.
  - intros H100 H500. rewrite Hsome in H100. rewrite Hreviewed in H500.
    injection H100 as ->. injection H500 as ->. subst score. now apply Hsd.
Qed.

Lemma assess_market_demand_score_witness :
  exists f score,
    extract_numeric_score "Demand score: 9.5" 5.0 = Ok f /\
    assess_market_demand (quiet_world "" "Demand score: 9.5" 0)
      {[ "sales_count" := PInt 150; "review_count" := PInt 20 ]} =
      Returns {[ "score" := PFloat score; "explanation" := PStr "Demand score: 9.5" ]} /\
    in_range score = true /\
    (f <=? score)%float = true /\
    (gt_int (dict_get ({[ "sales_count" := PInt 150; "review_count" := PInt 20 ]} : gmap string pyval)
               "sales_count" (PInt 0)) 100 = Ok false ->
     gt_int (dict_get ({[ "sales_count" := PInt 150; "review_count" := PInt 20 ]} : gmap string pyval)
               "review_count" (PInt 0)) 500 = Ok false ->
     score = f).
Proof.
  apply (assess_market_demand_score (quiet_world "" "Demand score: 9.5" 0)
           {[ "sales_count" := PInt 150; "review_count" := PInt 20 ]}); exact I.
Defined.

(** The record of a demand assessment holds a score of the scale. *)
Lemma assess_market_demand_returns (w : outside) (product r : gmap string pyval) :
  assess_market_demand w product = Returns r ->
  exists score, r !! "score" = Some (PFloat score) /\ in_range score = true.
Proof.
  unfold assess_market_demand.
  destruct (extract_numeric_score _ _) as [f|]; [|discriminate]. cbn [mbind pyresult_bind].
  destruct (gt_int _ 1000) as [many|]; [|discriminate]. cbn [mbind pyresult_bind].
  destruct (if many then _ else _) as [demand_score|]; [|discriminate]. cbn [mbind pyresult_bind].
  destruct (gt_int _ 500) as [reviewed|]; [|discriminate]. cbn [mbind pyresult_bind of_result].
  intros [= <-]. eexists. split; [reflexivity|]. apply in_range_clamp.
Qed.

Lemma assess_market_demand_total (w : outside) (product : gmap string pyval) :
  number_or_absent (product !! "sales_count") ->
  number_or_absent (product !! "review_count") ->
  exists r, assess_market_demand w product = Returns r.
Proof.
  intros Hsales Hreviews. unfold assess_market_demand.
  destruct (extract_numeric_score_in_range (demand_response w)) as (f & -> & _).
  destruct (gt_int_number _ _ 1000 Hsales) as [many ->].
  destruct (gt_int_number _ _ 100 Hsales) as [some ->].
  destruct (gt_int_number _ _ 500 Hreviews) as [reviewed ->].
  cbn [mbind pyresult_bind]. destruct many, some; cbn [mbind pyresult_bind of_result]; eauto.
Qed.

End MarketDemand.

(** ** Key terms of a title *)

Section KeyTerms.
Import ProductAnalysisEngine.

(** What [[cs]{lo,hi}] consumes is a run of [cs] of a length within the bounds. *)
Lemma repeat_set_spec (cs : charset) (s : text) :
  forall lo hi prev st, In st (repeat_set cs lo hi prev s) ->
  exists w, s = w ++ snd st /\ bounded_run cs lo hi w.
Proof.
  induction s as [|c s IH]; intros lo hi prev st; cbn [repeat_set].
  - destruct lo; [|intros []]. intros [<-|[]]. exists []. repeat split; [lia|now destruct hi; cbn; lia].
  - assert (In st (match lo with O => [(prev, c :: s)] | S _ => [] end) ->
            exists w, c :: s = w ++ snd st /\ bounded_run cs lo hi w) as Hhere.
    { destruct lo; [|intros []]. intros [<-|[]]. exists [].
      repeat split; [lia|now destruct hi; cbn; lia]. }
    destruct (in_charset cs c && negb (hi_reached hi)) eqn:Hc; [|exact Hhere].
    rewrite in_app_iff. intros [H|H]; [|now apply Hhere].
    apply andb_true_iff in Hc as [Hc Hhi].
    destruct (IH _ _ _ _ H) as (w & Hw & Hall & Hlo & Hh).
    exists (c :: w). split; [cbn; now rewrite <- Hw|].
    split; [cbn; now rewrite Hc|]. split; [cbn; lia|].
    destruct hi as [[|h]|]; cbn in *; try done. lia.
Qed.

Lemma bounded_pattern_spec (cs : charset) (lo : nat) (hi : option nat) (st st' : wstate) :
  In st' (wmatch (WSeq WBoundary (WSeq (WRepeat cs lo hi) WBoundary)) st) ->
  exists w, snd st = w ++ snd st' /\ bounded_run cs lo hi w.
Proof.
  cbn [wmatch]. destruct (at_boundary st); [|intros []].
  cbn [flat_map]. rewrite app_nil_r, in_flat_map. intros (st1 & H1 & H2).
  destruct (at_boundary st1); [|destruct H2]. destruct H2 as [<-|[]].
  now apply repeat_set_spec in H1.
Qed.

Lemma firstn_consumed {A} (w r : list A) : firstn (length (w ++ r) - length r) (w ++ r) = w.
Proof.
  rewrite length_app. replace (length w + length r - length r)%nat with (length w) by lia.
  now rewrite firstn_app, Nat.sub_diag, firstn_all, app_nil_r.
Qed.

(** Every match [findall] reports is a match of the pattern at some place
    of the text. *)
Lemma findall_from_Forall (pattern : wregex) (Q : ascii -> Prop) (P : text -> Prop) :
  (forall prev s st rest, Forall Q s -> wmatch pattern (prev, s) = st :: rest ->
     P (firstn (length s - length (snd st)) s)) ->
  forall s, Forall Q s -> forall skip prev, Forall P (findall_from pattern skip prev s).
Proof.
  intros HP s Hs. induction Hs as [|c s Hc Hs IH]; intros skip prev.
  - destruct skip; cbn [findall_from]; [|constructor].
    destruct (wmatch pattern (prev, [])) as [|st rest] eqn:Hm; constructor; [|constructor].
    now apply (HP prev [] st rest).
  - destruct skip; cbn [findall_from]; [|apply IH].
    destruct (wmatch pattern (prev, c :: s)) as [|st rest] eqn:Hm; [apply IH|].
    constructor; [|apply IH]. apply (HP prev (c :: s) st rest); [now constructor|exact Hm].
Qed.

Lemma py_lower_lowered (s : text) : Forall lowered (py_lower s).
Proof.
  unfold py_lower. apply Forall_map, List.Forall_forall. intros c _. apply lower_char_idem.
Qed.

Lemma lowered_letter (c : ascii) :
  in_charset ascii_letters c = true -> lowered c -> is_lower_letter c = true.
Proof.
  unfold lowered. destruct c as [[] [] [] [] [] [] [] []]; vm_compute; intros H1 H2;
    first [reflexivity | discriminate H1 | discriminate H2].
Qed.

Lemma Forall_app_l {A} (P : A -> Prop) (l1 l2 : list A) : Forall P (l1 ++ l2) -> Forall P l1.
Proof. rewrite Forall_app. tauto. Qed.

Lemma length_to_str (s : text) : String.length (to_str s) = length s.
Proof. unfold to_str. induction s as [|c s IH]; cbn; congruence. Qed.

Local Open Scope string_scope.

Lemma findall_term (s : text) :
  Forall lowered s ->
  Forall (fun w => (3 <= length w)%nat /\ forallb is_lower_letter w = true)
    (findall pattern_term s).
Proof.
  intros Hs. unfold findall.
  apply (findall_from_Forall pattern_term lowered); [|exact Hs].
  clear s Hs. intros prev s st rest Hs Hm.
  destruct (bounded_pattern_spec ascii_letters 3 None (prev, s) st) as (w & Hw & Hall & Hlen & _).
  { unfold pattern_term in Hm. rewrite Hm. now left. }
  cbn [snd] in Hw. subst s. rewrite firstn_consumed. split; [exact Hlen|].
  apply Forall_app_l in Hs. apply forallb_forall. intros c Hc.
  apply lowered_letter; [|now apply (proj1 (List.Forall_forall _ _) Hs)].
  now apply (proj1 (forallb_forall _ _) Hall).
Qed.

(** X6.  [extract_key_terms] returns at most five terms; each has at least
    three characters, all of them letters a-z, and is no stop word. *)
Theorem extract_key_terms_terms (title : string) :
  (length (extract_key_terms title) <= 5)%nat /\
  Forall (fun term =>
            (3 <= String.length term)%nat /\
            forallb is_lower_letter (chars term) = true /\
            term ∉ stop_words)
    (extract_key_terms title).
Proof.
  unfold extract_key_terms. split; [rewrite length_firstn; lia|].
  apply Forall_take, List.Forall_forall. intros term Hterm.
  apply filter_In in Hterm as [Hin Hstop].
  apply in_map_iff in Hin as (w & <- & Hw).
  pose proof (findall_term _ (py_lower_lowered (chars title))) as Hall.
  apply (proj1 (List.Forall_forall _ _) Hall) in Hw as [Hlen Hlow].
  split; [now rewrite length_to_str|]. split; [now rewrite chars_to_str|].
  apply negb_true_iff in Hstop. now apply bool_decide_eq_false in Hstop.
Qed.

(** Stop words, short words and what is no letter a-z fall away. *)
Example extract_key_terms_example :
  extract_key_terms "The NEW Wireless Head-phones for iPhone 13 Pro, used" =
    ["wireless"; "head"; "phones"; "iphone"; "pro"] /\
  extract_key_terms "USB-C to HDMI 4K" = ["usb"; "hdmi"] /\
  extract_key_terms "" = [].
Proof. repeat split; reflexivity. Qed.

End KeyTerms.

(** ** The search for competitors *)

Section Competition.
Import ProductAnalysisEngine.
Local Open Scope string_scope.

(** X7.  [find_similar_products] returns the empty list, and gives no sign
    of why, in three cases: the database raises on every query; the title,
    the category or the platform is present and no string; the title is
    absent or yields no key term while category and platform are empty or
    absent - and then the database is not asked at all. *)
Theorem find_similar_products_nothing (w : outside) (product : gmap string pyval) :
  ((forall query params, exists e, execute w query params = Raises e) ->
   find_similar_products w product = []) /\
  (forall key v, key ∈ ["title"; "category"; "platform"] ->
     product !! key = Some v -> (forall s, v <> PStr s) ->
     find_similar_products w product = []) /\
  (product !! "title" = None \/
   (exists title, product !! "title" = Some (PStr title) /\ extract_key_terms title = []) ->
   empty_or_absent (product !! "category") -> empty_or_absent (product !! "platform") ->
   find_similar_products w product = []).
Proof.
  split; [|split].
  - intros Hdb. unfold find_similar_products, find_similar_products_try.
    destruct (str_lower (dict_get product "title" (PStr ""))) as [title|]; [|reflexivity]. cbn [mbind pyoutcome_bind].
    destruct (str_lower (dict_get product "category" (PStr ""))) as [category|]; [|reflexivity]. cbn [mbind pyoutcome_bind].
    destruct (str_lower (dict_get product "platform" (PStr ""))) as [platform|]; [|reflexivity]. cbn [mbind pyoutcome_bind].
    destruct (search_conditions title category platform) as [conditions params].
    destruct (nonempty conditions); [|reflexivity].
    destruct (Hdb (similar_query conditions) params) as [e ->]. reflexivity.
  - intros key v Hkey Hv Hs.
    assert (str_lower (dict_get product key (PStr "")) = Raises AttributeError) as Hl.
    { unfold dict_get. rewrite Hv. cbn [from_option id]. destruct v; try reflexivity.
      now destruct (Hs s). }
    unfold find_similar_products, find_similar_products_try.
    repeat (apply elem_of_cons in Hkey as [->|Hkey]); [..|now apply elem_of_nil in Hkey].
    + now rewrite Hl.
    + destruct (str_lower (dict_get product "title" (PStr ""))) as [title|]; [|reflexivity]. cbn [mbind pyoutcome_bind].
      now rewrite Hl.
    + destruct (str_lower (dict_get product "title" (PStr ""))) as [title|]; [|reflexivity]. cbn [mbind pyoutcome_bind].
      destruct (str_lower (dict_get product "category" (PStr ""))) as [category|]; [|reflexivity]. cbn [mbind pyoutcome_bind].
      now rewrite Hl.
  - intros Ht Hc Hp.
    unfold find_similar_products, find_similar_products_try.
    assert (forall key, empty_or_absent (product !! key) ->
              str_lower (dict_get product key (PStr "")) = Returns "") as He.
    { intros key. unfold dict_get. destruct (product !! key) as [[f|n|[|c s]|]|]; try done. }
    rewrite (He _ Hc), (He _ Hp). unfold dict_get at 1.
    destruct Ht as [->|(title & -> & Hterms)]; [reflexivity|].
    cbn [from_option id str_lower mbind pyoutcome_bind].
    unfold search_conditions.
    assert (extract_key_terms (to_str (py_lower (chars title))) = []) as ->.
    { unfold extract_key_terms in *. now rewrite chars_to_str, py_lower_idem. }
    reflexivity.
Qed.

Lemma find_similar_products_nothing_witness :
  find_similar_products
    {| trend_response := ""; demand_response := ""; recommendation_response := "";
       execute := fun _ _ => Raises DatabaseError;
       insert_metrics := Returns tt; rollback := Returns tt |}
    {[ "title" := PStr "Wireless Headphones"; "platform" := PStr "eBay" ]} = [] /\
  find_similar_products (quiet_world "" "" 120)
    {[ "title" := PStr "Wireless Headphones"; "category" := PNone ]} = [] /\
  find_similar_products (quiet_world "" "" 120) {[ "title" := PStr "The new 4K TV" ]} = [].
Proof.
  split; [|split].
  - apply (proj1 (find_similar_products_nothing _ _)). intros. now eexists.
  - apply (proj1 (proj2 (find_similar_products_nothing _ _)) "category" PNone);
      [in_list|reflexivity|discriminate].
  - apply (proj2 (proj2 (find_similar_products_nothing _ _)));
      [right; now exists "The new 4K TV"|exact I|exact I].
Defined.

(** A product that can be searched for is searched for. *)
Example find_similar_products_example :
  length (find_similar_products (quiet_world "" "" 120)
            {[ "title" := PStr "Wireless Headphones" ]}) = 120%nat.
Proof. reflexivity. Qed.

(** X8.  The query of [find_similar_products] holds as many [%s] as there
    are parameters, whatever the product; and no condition is built exactly
    when there is no key term, no category and no platform. *)
Theorem search_conditions_placeholders (title category platform : string) :
  count_occurrences (chars "%s")
    (chars (similar_query (fst (search_conditions title category platform)))) =
    length (snd (search_conditions title category platform)) /\
  (nonempty (fst (search_conditions title category platform)) = false <->
   extract_key_terms title = [] /\ category = "" /\ platform = "").
Proof.
  unfold search_conditions.
  destruct (extract_key_terms title) as [|term terms];
    destruct (String.eqb_spec category ""); destruct (String.eqb_spec platform "");
    cbn [nonempty negb fst snd app]; (split; [reflexivity|]); split; try done;
    intros (? & ? & ?); done.
Qed.

Lemma analyze_competition_level (w : outside) (product : gmap string pyval) :
  exists level, level ∈ ["Low"; "Medium"; "High"; "Very High"] /\
    dict_item (analyze_competition w product) "level" = Ok (PStr level).
Proof.
  unfold analyze_competition.
  set (n := length (find_similar_products w product)).
  repeat (destruct (n <? _)%nat; [eexists; split; [|reflexivity]; in_list|]).
  eexists; split; [|reflexivity]; in_list.
Qed.

(** X9.  [analyze_competition] sorts a product by the number of similar
    products found: Low below 10, Medium below 50, High below 200, Very
    High from there on, with the scores 8.0, 6.0, 4.0 and 2.0.  Each level
    is a key of the table of [calculate_opportunity_score], which holds the
    same number for it, except that Low counts there as 9.0. *)
Theorem analyze_competition_levels (w : outside) (product : gmap string pyval) :
  exists level score,
    analyze_competition w product =
      {[ "level" := PStr level; "score" := PFloat score;
         "competitor_count" := PInt (Z.of_nat (length (find_similar_products w product))) ]} /\
    ((length (find_similar_products w product) < 10)%nat /\
       level = "Low" /\ score = 8.0%float /\
       dict_get competition_scores level 5.0%float = 9.0%float
     \/
     (10 <= length (find_similar_products w product) < 50)%nat /\
       level = "Medium" /\ score = 6.0%float /\
       dict_get competition_scores level 5.0%float = 6.0%float
     \/
     (50 <= length (find_similar_products w product) < 200)%nat /\
       level = "High" /\ score = 4.0%float /\
       dict_get competition_scores level 5.0%float = 4.0%float
     \/
     (200 <= length (find_similar_products w product))%nat /\
       level = "Very High" /\ score = 2.0%float /\
       dict_get competition_scores level 5.0%float = 2.0%float).
Proof.
  unfold analyze_competition.
  set (n := length (find_similar_products w product)).
  destruct (n <? 10)%nat eqn:H10; [apply Nat.ltb_lt in H10|apply Nat.ltb_ge in H10].
  { eexists; eexists; split; [reflexivity|]. left. repeat split; lia. }
  destruct (n <? 50)%nat eqn:H50; [apply Nat.ltb_lt in H50|apply Nat.ltb_ge in H50].
  { eexists; eexists; split; [reflexivity|]. right; left. repeat split; lia. }
  destruct (n <? 200)%nat eqn:H200; [apply Nat.ltb_lt in H200|apply Nat.ltb_ge in H200].
  { eexists; eexists; split; [reflexivity|]. right; right; left. repeat split; lia. }
  eexists; eexists; split; [reflexivity|]. right; right; right. repeat split; lia.
Qed.

(** What the search returns comes from the database, or is nothing. *)
Lemma find_similar_products_rows (w : outside) (product : gmap string pyval) :
  find_similar_products w product = [] \/
  exists query params, execute w query params = Returns (find_similar_products w product).
Proof.
  unfold find_similar_products, find_similar_products_try.
  destruct (str_lower (dict_get product "title" (PStr ""))) as [title|]; [|now left].
  cbn [mbind pyoutcome_bind].
  destruct (str_lower (dict_get product "category" (PStr ""))) as [category|]; [|now left].
  cbn [mbind pyoutcome_bind].
  destruct (str_lower (dict_get product "platform" (PStr ""))) as [platform|]; [|now left].
  cbn [mbind pyoutcome_bind].
  destruct (search_conditions title category platform) as [conditions params].
  destruct (nonempty conditions); [|now left].
  destruct (execute w (similar_query conditions) params) as [rows|e] eqn:Hdb; [|now left].
  right. exists (similar_query conditions), params. exact Hdb.
Qed.

End Competition.

(** ** The analysis of a product *)

Section ProductOpportunity.
Import ProductAnalysisEngine.
Local Open Scope string_scope.

(** On factors of the scale the scorer returns a float of the scale. *)
Lemma calculate_opportunity_score_in_range (analysis : gmap string pyval) (t p m : float) :
  analysis !! "trend_score" = Some (PFloat t) ->
  analysis !! "profit_potential" = Some (PFloat p) ->
  analysis !! "market_demand" = Some (PFloat m) ->
  in_range t = true -> in_range p = true -> in_range m = true ->
  exists v, calculate_opportunity_score analysis = Ok v /\ in_range v = true.
Proof.
  intros Ht Hp Hm Hrt Hrp Hrm. rewrite calculate_opportunity_score_eq.
  unfold dict_get at 1 2 3. rewrite Ht, Hp, Hm.
  cbn [from_option id as_float mbind pyresult_bind]. eexists. split; [reflexivity|].
  pose proof (weighted_sum_between t p m _ Hrt Hrp Hrm (competition_score_values analysis))
    as [Hfin [Hlo Hhi]].
  apply between_in_range.
  apply (py_round_between _ 1.0 10.0 2 100 1000 ltac:(closed_float_facts)
           ltac:(closed_float_facts) Hfin ltac:(reflexivity)).
  - eapply Qle_trans; [|exact Hlo]. closed_float_facts.
  - eapply Qle_trans; [exact Hhi|]. closed_float_facts.
  - closed_float_facts.
  - closed_float_facts.
Qed.

(** Every analysis ends in one of the three ways. *)
Lemma analyze_product_opportunity_cases (w : outside) (product : gmap string pyval) :
  analysis_of w product (analyze_product_opportunity w product).
Proof.
  unfold analyze_product_opportunity. fold blank_analysis.
  destruct (analyze_market_trends_returns w product) as (t & Ht & ->).
  destruct (analyze_competition_level w product) as (level & Hlevel & Hl).
  run_prog.
  change (dict_item {[ "score" := PFloat t; "explanation" := PStr (trend_response w) ]} "score")
    with (Ok (PFloat t)).
  rewrite Hl.
  destruct (calculate_profit_potential product) as [profit_analysis|e] eqn:Hprofit.
  2: { cbn [snd]. now apply (stops_at_profit w product t level e). }
  destruct (calculate_profit_potential_returns _ _ Hprofit) as (p & Hp & Hrp).
  unfold dict_item at 1. rewrite Hp.
  destruct (assess_market_demand w product) as [demand_analysis|e] eqn:Hdemand.
  2: { cbn [snd]. now apply (stops_at_demand w product t level p e). }
  destruct (assess_market_demand_returns _ _ _ Hdemand) as (d & Hd & Hrd).
  unfold dict_item at 1. rewrite Hd.
  unfold get_ai_recommendation.
  set (r := <["ai_recommendation" := _]> _).
  destruct (calculate_opportunity_score_in_range r t p d) as (v & Hv & Hrv);
    [reflexivity|reflexivity|reflexivity|done|now apply in_profit_range_in_range|done|].
  rewrite Hv. cbn [snd]. now apply (completes w product t level p d v profit_analysis demand_analysis).
Qed.

(** X10.  What every analysis record holds, whatever the product and the
    outside world.  The trend score lies in
    [1.0, 10.0] and the competition level is one of the four levels of
    [analyze_competition].  The profit potential is 0.0 or lies in
    [2.0, 10.0]; the market demand is 0.0 or lies in [1.0, 10.0].  The
    opportunity score is 0.0, with an empty recommendation (a step raised),
    or lies in [1.0, 10.0]; then profit and demand are on their scales, the
    recommendation is the model's reply, and the score is what
    [calculate_opportunity_score] gives on the record.  The keyword
    difficulty is never computed. *)
Theorem analyze_product_opportunity_scores (w : outside) (product : gmap string pyval) :
  exists t level p d v,
    analyze_product_opportunity w product !! "trend_score" = Some (PFloat t) /\
    in_range t = true /\
    analyze_product_opportunity w product !! "competition_level" = Some (PStr level) /\
    level ∈ ["Low"; "Medium"; "High"; "Very High"] /\
    analyze_product_opportunity w product !! "profit_potential" = Some (PFloat p) /\
    (p = 0%float \/ in_profit_range p = true) /\
    analyze_product_opportunity w product !! "market_demand" = Some (PFloat d) /\
    (d = 0%float \/ in_range d = true) /\
    analyze_product_opportunity w product !! "opportunity_score" = Some (PFloat v) /\
    (v = 0%float /\
       analyze_product_opportunity w product !! "ai_recommendation" = Some (PStr "")
     \/
     in_range v = true /\ in_profit_range p = true /\ in_range d = true /\
       analyze_product_opportunity w product !! "ai_recommendation" =
         Some (PStr (recommendation_response w)) /\
       calculate_opportunity_score (analyze_product_opportunity w product) = Ok v) /\
    analyze_product_opportunity w product !! "keyword_difficulty" = Some (PFloat 0).
Proof.
  destruct (analyze_product_opportunity_cases w product)
    as [t level e Ht Hl He|t level p e Ht Hl Hp He|t level p d v pa da Ht Hl Hp Hd Hv Hpa Hda Hs].
  - exists t, level, 0%float, 0%float, 0%float.
    split_ands; first [reflexivity | assumption | now left | left; split; reflexivity].
  - exists t, level, p, 0%float, 0%float.
    split_ands; first [reflexivity | assumption | now left | now right | left; split; reflexivity].
  - exists t, level, p, d, v.
    split_ands; try first [reflexivity | assumption | right; assumption].
    right. split_ands; first [reflexivity | assumption].
Qed.

(** X11.  With a price that is a number or absent, a platform that is a
    string or absent, and sales and review counts that are numbers or
    absent, every step of the analysis goes through: the opportunity score
    is the scorer's result on the record, a float of [1.0, 10.0], and the
    recommendation is the model's reply. *)
Theorem analyze_product_opportunity_completes (w : outside) (product : gmap string pyval) :
  numeric_or_absent (product !! "price") ->
  text_or_absent (product !! "platform") ->
  number_or_absent (product !! "sales_count") ->
  number_or_absent (product !! "review_count") ->
  exists v,
    analyze_product_opportunity w product !! "opportunity_score" = Some (PFloat v) /\
    in_range v = true /\
    calculate_opportunity_score (analyze_product_opportunity w product) = Ok v /\
    analyze_product_opportunity w product !! "ai_recommendation" =
      Some (PStr (recommendation_response w)).
Proof.
  intros Hprice Hplatform Hsales Hreviews.
  assert (number_none_or_absent (product !! "sales_count")) as Hsales'.
  { destruct (product !! "sales_count") as [[]|]; done. }
  destruct (calculate_profit_potential_total _ Hprice Hplatform Hsales') as [pa Hpa].
  destruct (assess_market_demand_total w _ Hsales Hreviews) as [da Hda].
  destruct (analyze_product_opportunity_cases w product)
    as [t level e Ht Hl He|t level p e Ht Hl Hp He|t level p d v pa' da' Ht Hl Hp Hd Hv _ _ Hs].
  - rewrite Hpa in He. discriminate.
  - rewrite Hda in He. discriminate.
  - exists v. split_ands; first [reflexivity | assumption].
Qed.

Lemma analyze_product_opportunity_completes_witness :
  exists v,
    analyze_product_opportunity (quiet_world "Trend score: 8" "7/10" 12)
      {[ "title" := PStr "Wireless Headphones"; "platform" := PStr "eBay";
         "price" := PFloat 129.99; "sales_count" := PInt 340 ]} !! "opportunity_score" =
      Some (PFloat v) /\
    in_range v = true /\
    calculate_opportunity_score
      (analyze_product_opportunity (quiet_world "Trend score: 8" "7/10" 12)
         {[ "title" := PStr "Wireless Headphones"; "platform" := PStr "eBay";
            "price" := PFloat 129.99; "sales_count" := PInt 340 ]}) = Ok v /\
    analyze_product_opportunity (quiet_world "Trend score: 8" "7/10" 12)
      {[ "title" := PStr "Wireless Headphones"; "platform" := PStr "eBay";
         "price" := PFloat 129.99; "sales_count" := PInt 340 ]} !! "ai_recommendation" =
      Some (PStr "Recommended").
Proof.
  apply (analyze_product_opportunity_completes (quiet_world "Trend score: 8" "7/10" 12)); exact I.
Defined.

(** An analysis with every step done. *)
Example analyze_product_opportunity_example :
  analyze_product_opportunity (quiet_world "Trend score: 8" "7/10" 12)
    {[ "title" := PStr "Wireless Headphones"; "platform" := PStr "eBay";
       "price" := PFloat 129.99; "sales_count" := PInt 340 ]} =
    {[ "trend_score" := PFloat 8.0;
       "competition_level" := PStr "Medium";
       "profit_potential" := PFloat 8.5;
       "market_demand" := PFloat 8.0;
       "keyword_difficulty" := PFloat 0.0;
       "opportunity_score" := PFloat 7.85;
       "ai_recommendation" := PStr "Recommended" ]}.
Proof. vm_compute. reflexivity. Qed.

(** X12.  A sales count that is present and [None] or a string (or such a
    review count beside a usable sales count) makes [assess_market_demand]
    raise [TypeError]: the comparison [sales_count > 1000] is not guarded as
    it is in [calculate_profit_potential].  [analyze_product_opportunity]
    catches it and returns a record whose market demand and opportunity
    score are still 0.0 and whose recommendation is empty. *)
Theorem count_that_is_no_number (w : outside) (product : gmap string pyval) (v : pyval) :
  not_a_number v ->
  product !! "sales_count" = Some v \/
  (number_or_absent (product !! "sales_count") /\ product !! "review_count" = Some v) ->
  assess_market_demand w product = Raises (Builtin TypeError) /\
  analyze_product_opportunity w product !! "market_demand" = Some (PFloat 0) /\
  analyze_product_opportunity w product !! "opportunity_score" = Some (PFloat 0) /\
  analyze_product_opportunity w product !! "ai_recommendation" = Some (PStr "").
Proof.
  intros Hv H.
  assert (assess_market_demand w product = Raises (Builtin TypeError)) as Hraises.
  { unfold assess_market_demand.
    destruct (extract_numeric_score_in_range (demand_response w)) as (f & -> & _).
    cbn [mbind pyresult_bind].
    assert (forall k, gt_int v k = Raise TypeError) as Hk.
    { intros k. destruct v; try done. }
    destruct H as [Hs|[Hs Hr]].
    - unfold dict_get. rewrite Hs. cbn [from_option id]. rewrite !Hk. reflexivity.
    - destruct (gt_int_number _ _ 1000 Hs) as [many ->].
      destruct (gt_int_number _ _ 100 Hs) as [some ->].
      unfold dict_get. rewrite Hr. cbn [from_option id]. rewrite Hk.
      destruct many, some; reflexivity. }
  split; [exact Hraises|].
  destruct (analyze_product_opportunity_cases w product)
    as [t level e Ht Hl He|t level p e Ht Hl Hp He|t level p d x pa' da' Ht Hl Hp Hd Hx _ Hda Hs].
  - split_ands; reflexivity.
  - split_ands; reflexivity.
  - rewrite Hraises in Hda. discriminate.
Qed.

Lemma count_that_is_no_number_witness :
  assess_market_demand (quiet_world "Trend score: 8" "7/10" 12)
    {[ "title" := PStr "Ceramic Mug"; "platform" := PStr "Etsy"; "price" := PFloat 24.0;
       "sales_count" := PNone ]} = Raises (Builtin TypeError) /\
  analyze_product_opportunity (quiet_world "Trend score: 8" "7/10" 12)
    {[ "title" := PStr "Ceramic Mug"; "platform" := PStr "Etsy"; "price" := PFloat 24.0;
       "sales_count" := PNone ]} !! "market_demand" = Some (PFloat 0) /\
  analyze_product_opportunity (quiet_world "Trend score: 8" "7/10" 12)
    {[ "title" := PStr "Ceramic Mug"; "platform" := PStr "Etsy"; "price" := PFloat 24.0;
       "sales_count" := PNone ]} !! "opportunity_score" = Some (PFloat 0) /\
  analyze_product_opportunity (quiet_world "Trend score: 8" "7/10" 12)
    {[ "title" := PStr "Ceramic Mug"; "platform" := PStr "Etsy"; "price" := PFloat 24.0;
       "sales_count" := PNone ]} !! "ai_recommendation" = Some (PStr "").
Proof.
  apply (count_that_is_no_number _ _ PNone); [exact I|left; reflexivity].
Defined.

(** The level of the record is the level [analyze_competition] reports. *)
Lemma analyze_product_opportunity_level (w : outside) (product : gmap string pyval) :
  exists level,
    dict_item (analyze_competition w product) "level" = Ok (PStr level) /\
    analyze_product_opportunity w product !! "competition_level" = Some (PStr level).
Proof.
  destruct (analyze_product_opportunity_cases w product)
    as [t level e _ _ _ Hl|t level p e _ _ _ _ Hl|t level p d v pa da _ _ _ _ _ _ _ _ Hl];
    exists level; (split; [exact Hl|reflexivity]).
Qed.

(** X19.  A database that fails reads as low competition: when every query
    raises, [analyze_competition] reports the level Low with no competitor,
    and so does the record of [analyze_product_opportunity]. *)
Theorem database_failure_reads_as_low_competition (w : outside) (product : gmap string pyval) :
  (forall query params, exists e, execute w query params = Raises e) ->
  analyze_competition w product =
    {[ "level" := PStr "Low"; "score" := PFloat 8.0; "competitor_count" := PInt 0 ]} /\
  analyze_product_opportunity w product !! "competition_level" = Some (PStr "Low").
Proof.
  intros Hdb.
  assert (find_similar_products w product = []) as Hnone.
  { destruct (find_similar_products_rows w product) as [H|(query & params & H)]; [exact H|].
    destruct (Hdb query params) as [e He]. rewrite He in H. discriminate. }
  assert (analyze_competition w product =
            {[ "level" := PStr "Low"; "score" := PFloat 8.0; "competitor_count" := PInt 0 ]})
    as Hlow.
  { unfold analyze_competition. rewrite Hnone. reflexivity. }
  split; [exact Hlow|].
  destruct (analyze_product_opportunity_level w product) as (level & Hl & ->).
  rewrite Hlow in Hl. now injection Hl as <-.
Qed.

Lemma database_failure_reads_as_low_competition_witness :
  analyze_competition
    {| trend_response := "Trend score: 8"; demand_response := "7/10";
       recommendation_response := "Recommended";
       execute := fun _ _ => Raises DatabaseError;
       insert_metrics := Raises DatabaseError; rollback := Returns tt |}
    {[ "title" := PStr "Wireless Headphones"; "platform" := PStr "eBay" ]} =
    {[ "level" := PStr "Low"; "score" := PFloat 8.0; "competitor_count" := PInt 0 ]} /\
  analyze_product_opportunity
    {| trend_response := "Trend score: 8"; demand_response := "7/10";
       recommendation_response := "Recommended";
       execute := fun _ _ => Raises DatabaseError;
       insert_metrics := Raises DatabaseError; rollback := Returns tt |}
    {[ "title" := PStr "Wireless Headphones"; "platform" := PStr "eBay" ]}
    !! "competition_level" = Some (PStr "Low").
Proof.
  apply database_failure_reads_as_low_competition. intros query params. now eexists.
Defined.

(** X20.  The query asks for 100 rows at most.  With a database that
    returns no more rows than that, [find_similar_products] finds at most
    100 products, so that the level is Low, Medium or High: Very High, which
    takes 200, is never reported. *)
Theorem limit_rules_out_very_high (w : outside) (product : gmap string pyval) :
  (forall query params rows, execute w query params = Returns rows -> (length rows <= 100)%nat) ->
  (length (find_similar_products w product) <= 100)%nat /\
  exists level,
    dict_item (analyze_competition w product) "level" = Ok (PStr level) /\
    level ∈ ["Low"; "Medium"; "High"] /\
    analyze_product_opportunity w product !! "competition_level" = Some (PStr level).
Proof.
  intros Hlimit.
  assert (length (find_similar_products w product) <= 100)%nat as Hn.
  { destruct (find_similar_products_rows w product) as [->|(query & params & H)]; [cbn; lia|].
    exact (Hlimit _ _ _ H). }
  split; [exact Hn|].
  destruct (analyze_product_opportunity_level w product) as (level & Hl & Hr).
  exists level. split; [exact Hl|]. split; [|exact Hr].
  revert Hl. unfold analyze_competition.
  destruct (length (find_similar_products w product) <? 10)%nat; [intros [= <-]; in_list|].
  destruct (length (find_similar_products w product) <? 50)%nat; [intros [= <-]; in_list|].
  destruct (length (find_similar_products w product) <? 200)%nat eqn:H200;
    [intros [= <-]; in_list|].
  apply Nat.ltb_ge in H200. lia.
Qed.

Lemma limit_rules_out_very_high_witness :
  (length (find_similar_products (quiet_world "Trend score: 8" "7/10" 100)
             {[ "title" := PStr "Wireless Headphones" ]}) <= 100)%nat /\
  exists level,
    dict_item (analyze_competition (quiet_world "Trend score: 8" "7/10" 100)
                 {[ "title" := PStr "Wireless Headphones" ]}) "level" = Ok (PStr level) /\
    level ∈ ["Low"; "Medium"; "High"] /\
    analyze_product_opportunity (quiet_world "Trend score: 8" "7/10" 100)
      {[ "title" := PStr "Wireless Headphones" ]} !! "competition_level" = Some (PStr level).
Proof.
  apply limit_rules_out_very_high. intros query params rows [= <-].
  apply Nat.leb_le. reflexivity.
Defined.

End ProductOpportunity.

(** ** Batches *)

Section Batch.
Import ProductAnalysisEngine.
Local Open Scope string_scope.

Ltac counts :=
  unfold counts_add_up;
  cbn [snd total_analyzed high_opportunity medium_opportunity low_opportunity recommendations];
  rewrite ?length_app; cbn [length];
  split_ands; try lia; intros; try lia.

Lemma opportunity_score_float (w : outside) (product : gmap string pyval) :
  exists v, dict_get (analyze_product_opportunity w product) "opportunity_score" (PInt 0) = PFloat v.
Proof.
  unfold dict_get.
  destruct (analyze_product_opportunity_cases w product); eexists; reflexivity.
Qed.

(** One product keeps the counters fitting together, and adds at most one to
    the total. *)
Lemma batch_body_counts (w : outside) (product : gmap string pyval) (st : batch_counts) :
  counts_add_up st ->
  counts_add_up (snd (batch_body w product st)) /\
  total_analyzed st <= total_analyzed (snd (batch_body w product st)) <= total_analyzed st + 1 /\
  (is_Some (product !! "platform") ->
   Z.of_nat (length (recommendations st)) = high_opportunity st ->
   Z.of_nat (length (recommendations (snd (batch_body w product st)))) =
     high_opportunity (snd (batch_body w product st))).
Proof.
  intros (Ht & Hh & Hm & Hl & Hr). unfold batch_body. run_prog.
  destruct (dict_item product "title") as [title|]; [|counts].
  destruct (slice_to title 50); [|counts].
  destruct (dict_item product "id") as [product_id|]; [|counts].
  destruct (save_analysis_results _ _ _); [|counts].
  destruct (opportunity_score_float w product) as [v ->]. cbn [ge_float].
  destruct (7.5 <=? v)%float.
  - unfold dict_item. destruct (product !! "platform") as [platform|] eqn:Hp; counts.
    match goal with H : is_Some None |- _ => destruct H as [x Hx]; discriminate Hx end.
  - destruct (5.5 <=? v)%float; counts.
Qed.

Lemma batch_loop_counts (products : list (gmap string pyval * outside)) :
  forall st r,
    counts_add_up st -> batch_loop products st = Returns r ->
    counts_add_up r /\
    total_analyzed st <= total_analyzed r <= total_analyzed st + Z.of_nat (length products) /\
    (Forall (fun pw => is_Some (fst pw !! "platform")) products ->
     Z.of_nat (length (recommendations st)) = high_opportunity st ->
     Z.of_nat (length (recommendations r)) = high_opportunity r).
Proof.
  induction products as [|[product w] products IH]; intros st r Hst; cbn [batch_loop].
  - intros [= <-]. split; [done|]. split; [cbn; lia|]. intros _ H. exact H.
  - destruct (batch_body_counts w product st Hst) as (Hst' & Htot & Hrec).
    assert (batch_loop products (snd (batch_body w product st)) = Returns r ->
            counts_add_up r /\
            total_analyzed st <= total_analyzed r
              <= total_analyzed st + Z.of_nat (length ((product, w) :: products)) /\
            (Forall (fun pw => is_Some (fst pw !! "platform")) ((product, w) :: products) ->
             Z.of_nat (length (recommendations st)) = high_opportunity st ->
             Z.of_nat (length (recommendations r)) = high_opportunity r)) as Hnext.
    { intros Hloop. destruct (IH _ _ Hst' Hloop) as (Hr & Htot' & Hrec').
      split; [done|]. split; [cbn [length]; lia|].
      intros Hall Heq. apply Forall_cons in Hall as [Hp Hall]. apply Hrec'; [done|].
      now apply Hrec. }
    destruct (batch_body w product st) as [[u|e] st']; cbn [snd] in *; [exact Hnext|].
    destruct (dict_item product "id"); [|discriminate]. exact Hnext.
Qed.

(** X13.  When [batch_analyze_products] returns its counts, the selection
    went through, the total is the sum of the three classes, no count is
    negative, the total does not exceed the number of products, and there
    are no more recommendations than products of high opportunity - as many
    when every product has a platform. *)
Theorem batch_analyze_products_counts
    (selected : pyoutcome (list (gmap string pyval * outside))) (r : batch_counts) :
  batch_analyze_products selected = Analysed r ->
  exists products,
    selected = Returns products /\
    total_analyzed r = high_opportunity r + medium_opportunity r + low_opportunity r /\
    0 <= high_opportunity r /\ 0 <= medium_opportunity r /\ 0 <= low_opportunity r /\
    total_analyzed r <= Z.of_nat (length products) /\
    Z.of_nat (length (recommendations r)) <= high_opportunity r /\
    (Forall (fun pw => is_Some (fst pw !! "platform")) products ->
     Z.of_nat (length (recommendations r)) = high_opportunity r).
Proof.
  unfold batch_analyze_products. destruct selected as [products|e]; [|discriminate].
  cbn [mbind pyoutcome_bind].
  destruct (batch_loop products _) as [r'|e] eqn:Hloop; [|discriminate]. intros [= ->].
  apply batch_loop_counts in Hloop as ((H1 & H2 & H3 & H4 & H5) & Htot & Hrec);
    [|unfold counts_add_up; cbn; lia].
  exists products. cbn [total_analyzed] in Htot.
  split_ands; try done; try lia. intros Hall. now apply Hrec.
Qed.

Lemma batch_analyze_products_counts_witness :
  exists products,
    Returns example_batch = Returns products /\
    total_analyzed example_counts =
      high_opportunity example_counts + medium_opportunity example_counts
      + low_opportunity example_counts /\
    0 <= high_opportunity example_counts /\ 0 <= medium_opportunity example_counts /\
    0 <= low_opportunity example_counts /\
    total_analyzed example_counts <= Z.of_nat (length products) /\
    Z.of_nat (length (recommendations example_counts)) <= high_opportunity example_counts /\
    (Forall (fun pw => is_Some (fst pw !! "platform")) products ->
     Z.of_nat (length (recommendations example_counts)) = high_opportunity example_counts).
Proof.
  apply (batch_analyze_products_counts (Returns example_batch) example_counts).
  vm_compute. reflexivity.
Defined.

Lemma save_analysis_results_saves (w : outside) (product_id : pyval)
    (analysis : gmap string pyval) :
  saves w -> save_analysis_results w product_id analysis = Returns tt.
Proof.
  unfold saves, save_analysis_results. intros [->| ->]; [reflexivity|].
  now destruct (insert_metrics w) as [[]|].
Qed.

Lemma opportunity_score_aborted (w : outside) (product : gmap string pyval) (v : pyval) :
  product !! "sales_count" = Some v -> not_a_number v ->
  dict_get (analyze_product_opportunity w product) "opportunity_score" (PInt 0) = PFloat 0.
Proof.
  intros Hs Hv.
  assert (assess_market_demand w product = Raises (Builtin TypeError)) as Hraises.
  { unfold assess_market_demand.
    destruct (extract_numeric_score_in_range (demand_response w)) as (f & -> & _).
    cbn [mbind pyresult_bind]. unfold dict_get. rewrite Hs. cbn [from_option id].
    destruct v; try done. }
  unfold dict_get.
  destruct (analyze_product_opportunity_cases w product)
    as [t level e Ht Hl He|t level p e Ht Hl Hp He|t level p d x pa' da' Ht Hl Hp Hd Hx _ Hda _];
    [reflexivity|reflexivity|].
  rewrite Hraises in Hda. discriminate.
Qed.

Lemma batch_body_uncounted (w : outside) (product : gmap string pyval) (n : nat) :
  uncounted (product, w) ->
  batch_body w product (low_counts n) = (Returns tt, low_counts (S n)).
Proof.
  intros ((title & Ht) & (product_id & Hid) & Hsave & (v & Hs & Hv)). cbn [fst snd] in *.
  unfold batch_body. run_prog. unfold dict_item at 1. rewrite Ht. cbn [slice_to].
  unfold dict_item at 1. rewrite Hid. rewrite (save_analysis_results_saves w _ _ Hsave).
  rewrite (opportunity_score_aborted w product v Hs Hv). cbn [ge_float].
  change (7.5 <=? 0)%float with false. change (5.5 <=? 0)%float with false.
  unfold low_counts. cbn [total_analyzed high_opportunity medium_opportunity low_opportunity
                          recommendations].
  rewrite Nat2Z.inj_succ. reflexivity.
Qed.

Lemma batch_loop_uncounted (products : list (gmap string pyval * outside)) :
  Forall uncounted products ->
  forall n, batch_loop products (low_counts n) = Returns (low_counts (n + length products)).
Proof.
  induction 1 as [|[product w] products Hp Hall IH]; intros n; cbn [batch_loop length].
  - now rewrite Nat.add_0_r.
  - rewrite (batch_body_uncounted w product n Hp), IH. do 2 f_equal. lia.
Qed.

(** X14.  A batch of products that have a title and an id but [None] (or a
    string) for a sales count, and whose results can be saved: every one of
    them is counted as analysed and as of low opportunity, whatever the
    model replies; none is recommended. *)
Theorem batch_of_uncounted_products (products : list (gmap string pyval * outside)) :
  Forall uncounted products ->
  batch_analyze_products (Returns products) =
    Analysed {| total_analyzed := Z.of_nat (length products);
                high_opportunity := 0;
                medium_opportunity := 0;
                low_opportunity := Z.of_nat (length products);
                recommendations := [] |}.
Proof.
  intros Hall. unfold batch_analyze_products. cbn [mbind pyoutcome_bind].
  change {| total_analyzed := 0; high_opportunity := 0; medium_opportunity := 0;
            low_opportunity := 0; recommendations := [] |} with (low_counts 0).
  now rewrite (batch_loop_uncounted products Hall 0).
Qed.

Lemma batch_of_uncounted_products_witness :
  batch_analyze_products
    (Returns
       [ ({[ "id" := PInt 2; "title" := PStr "Ceramic Mug"; "platform" := PStr "Etsy";
             "price" := PFloat 24.0; "sales_count" := PNone ]},
          quiet_world "Trend score: 8" "7/10" 12);
         ({[ "id" := PInt 3; "title" := PStr "Phone Case"; "platform" := PStr "Amazon";
             "price" := PFloat 29.99; "sales_count" := PNone; "review_count" := PInt 1250 ]},
          quiet_world "Trend score: 9" "9/10" 3) ]) =
  Analysed {| total_analyzed := 2; high_opportunity := 0; medium_opportunity := 0;
              low_opportunity := 2; recommendations := [] |}.
Proof.
  apply (batch_of_uncounted_products
           [ ({[ "id" := PInt 2; "title" := PStr "Ceramic Mug"; "platform" := PStr "Etsy";
                 "price" := PFloat 24.0; "sales_count" := PNone ]},
              quiet_world "Trend score: 8" "7/10" 12);
             ({[ "id" := PInt 3; "title" := PStr "Phone Case"; "platform" := PStr "Amazon";
                 "price" := PFloat 29.99; "sales_count" := PNone; "review_count" := PInt 1250 ]},
              quiet_world "Trend score: 9" "9/10" 3) ]).
  apply List.Forall_cons; [|apply List.Forall_cons; [|apply List.Forall_nil]];
    (split; [eexists; reflexivity|]); (split; [eexists; reflexivity|]);
    (split; [left; reflexivity|]); exists PNone; (split; [reflexivity|exact I]).
Defined.

(** X15.  How a batch is lost.  When the selection raises, the exception is
    returned as the error.  When some product has neither title nor id, the
    handler of the loop raises [KeyError] itself and the batch returns that
    error, the counts of the other products with it.  When every product
    has an id, the batch returns counts. *)
Theorem batch_analyze_products_error (products : list (gmap string pyval * outside)) :
  (forall e, batch_analyze_products (Raises e) = BatchError e) /\
  (Exists (fun pw => fst pw !! "title" = None /\ fst pw !! "id" = None) products ->
   batch_analyze_products (Returns products) = BatchError (Builtin KeyError)) /\
  (Forall (fun pw => is_Some (fst pw !! "id")) products ->
   exists r, batch_analyze_products (Returns products) = Analysed r).
Proof.
  split; [reflexivity|]. split.
  - intros Hex. unfold batch_analyze_products. cbn [mbind pyoutcome_bind].
    generalize ({| total_analyzed := 0; high_opportunity := 0; medium_opportunity := 0;
                   low_opportunity := 0; recommendations := [] |}).
    induction products as [|[product w] products IH]; intros st; [now apply Exists_nil in Hex|].
    cbn [batch_loop].
    assert (forall st', match batch_loop products st' with
                        | Returns r => Analysed r | Raises e => BatchError e end
                        = BatchError (Builtin KeyError) \/
                        (product !! "title" = None /\ product !! "id" = None)) as Hrest.
    { apply Exists_cons in Hex as [H|H]; [intros; now right|intros; left; now apply IH]. }
    destruct (batch_body w product st) as [[u|e] st'] eqn:Hbody.
    + destruct (Hrest st') as [H|[Ht Hid]]; [exact H|].
      exfalso. revert Hbody. unfold batch_body. run_prog. unfold dict_item at 1. rewrite Ht.
      discriminate.
    + unfold dict_item. destruct (product !! "id") eqn:Hid; cbn [of_result mbind pyoutcome_bind].
      * destruct (Hrest st') as [H|[_ Hid']]; [exact H|congruence].
      * reflexivity.
  - intros Hall. unfold batch_analyze_products. cbn [mbind pyoutcome_bind].
    generalize ({| total_analyzed := 0; high_opportunity := 0; medium_opportunity := 0;
                   low_opportunity := 0; recommendations := [] |}).
    induction Hall as [|[product w] products [product_id Hid] Hall IH]; intros st; cbn [batch_loop].
    + eauto.
    + cbn [fst] in Hid. unfold dict_item. rewrite Hid. cbn [of_result mbind pyoutcome_bind].
      destruct (batch_body w product st) as [[u|e] st']; apply IH.
Qed.

Lemma batch_analyze_products_error_witness :
  batch_analyze_products
    (Returns (example_batch ++ [({[ "platform" := PStr "eBay" ]}, quiet_world "" "" 0)])%list) =
    BatchError (Builtin KeyError) /\
  exists r, batch_analyze_products (Returns example_batch) = Analysed r.
Proof.
  split.
  - apply (proj1 (proj2 (batch_analyze_products_error _))).
    apply Exists_app. right. constructor. split; reflexivity.
  - apply (proj2 (proj2 (batch_analyze_products_error _))).
    repeat constructor; eexists; reflexivity.
Defined.

(** The batch of the two products: the first is recommended, the second
    counts as low for want of a sales count. *)
Example batch_example :
  batch_analyze_products (Returns example_batch) = Analysed example_counts.
Proof. vm_compute. reflexivity. Qed.

End Batch.

(** * The keyword analyzer *)

(** ** Keywords of a response *)

Section Keywords.

Lemma py_lstrip_idem (s : text) : py_lstrip (py_lstrip s) = py_lstrip s.
Proof.
  induction s as [|c s IH]; [reflexivity|]. cbn [py_lstrip].
  destruct (is_space c) eqn:Hc; [exact IH|]. cbn [py_lstrip]. now rewrite Hc.
Qed.

Lemma py_lstrip_suffix (s : text) : exists pre, s = pre ++ py_lstrip s.
Proof.
  induction s as [|c s [pre IH]]; [now exists []|]. cbn [py_lstrip].
  destruct (is_space c); [|now exists []]. exists (c :: pre). cbn. now rewrite <- IH.
Qed.

Lemma py_lstrip_snoc (s : text) (c : ascii) :
  is_space c = false -> py_lstrip (s ++ [c]) = py_lstrip s ++ [c].
Proof.
  intros Hc. induction s as [|d s IH]; cbn [py_lstrip app].
  - now rewrite Hc.
  - destruct (is_space d); [exact IH|reflexivity].
Qed.

Lemma py_lstrip_head (c : ascii) (s : text) :
  is_space c = false -> py_lstrip (c :: s) = c :: s.
Proof. intros Hc. cbn [py_lstrip]. now rewrite Hc. Qed.

Lemma py_lstrip_cases (s : text) :
  py_lstrip s = [] \/ exists c r, py_lstrip s = c :: r /\ is_space c = false.
Proof.
  induction s as [|c s IH]; [now left|]. cbn [py_lstrip].
  destruct (is_space c) eqn:Hc; [exact IH|]. right. now exists c, s.
Qed.

(** A stripped text has no white space at either end: stripping it again
    changes nothing. *)
Lemma py_strip_idem (s : text) : py_strip (py_strip s) = py_strip s.
Proof.
  unfold py_strip. destruct (py_lstrip_cases s) as [->|(c & r & -> & Hc)]; [reflexivity|].
  assert (rev (py_lstrip (rev (c :: r))) = c :: rev (py_lstrip (rev r))) as ->.
  { cbn [rev]. now rewrite (py_lstrip_snoc _ _ Hc), rev_app_distr. }
  rewrite (py_lstrip_head _ _ Hc). cbn [rev]. rewrite rev_involutive.
  rewrite (py_lstrip_snoc _ _ Hc), py_lstrip_idem, rev_app_distr. reflexivity.
Qed.

Lemma py_strip_infix (s : text) : exists pre post, s = pre ++ py_strip s ++ post.
Proof.
  unfold py_strip. destruct (py_lstrip_suffix s) as [pre Hpre].
  destruct (py_lstrip_suffix (rev (py_lstrip s))) as [post Hpost].
  exists pre, (rev post). rewrite <- rev_app_distr, <- Hpost, rev_involutive. exact Hpre.
Qed.

Lemma py_strip_length (s : text) : (length (py_strip s) <= length s)%nat.
Proof.
  destruct (py_strip_infix s) as (pre & post & H). rewrite H at 2. rewrite !length_app. lia.
Qed.

Lemma forallb_infix {A} (f : A -> bool) (pre s post : list A) :
  forallb f (pre ++ s ++ post) = true -> forallb f s = true.
Proof. rewrite !forallb_app, !andb_true_iff. tauto. Qed.

Lemma Forall_infix {A} (P : A -> Prop) (pre s post : list A) :
  Forall P (pre ++ s ++ post) -> Forall P s.
Proof. rewrite !Forall_app. tauto. Qed.

Lemma lowered_letter_or_space (c : ascii) :
  in_charset (CUnion ascii_letters CSpace) c = true -> lowered c ->
  is_lower_letter c || is_space c = true.
Proof.
  unfold lowered. destruct c as [[] [] [] [] [] [] [] []]; vm_compute; intros H1 H2;
    first [reflexivity | discriminate H1 | discriminate H2].
Qed.

Lemma findall_keyword (s : text) :
  Forall lowered s ->
  Forall (fun w => (length w <= 30)%nat /\
                   forallb (fun c => is_lower_letter c || is_space c) w = true)
    (findall KeywordAnalyzer.pattern_keyword s).
Proof.
  intros Hs. unfold findall.
  apply (findall_from_Forall KeywordAnalyzer.pattern_keyword lowered); [|exact Hs].
  clear s Hs. intros prev s st rest Hs Hm.
  destruct (bounded_pattern_spec (CUnion ascii_letters CSpace) 2 (Some 30%nat) (prev, s) st)
    as (w & Hw & Hall & _ & Hlen).
  { unfold KeywordAnalyzer.pattern_keyword in Hm. rewrite Hm. now left. }
  cbn [snd] in Hw. subst s. rewrite firstn_consumed. split; [exact Hlen|].
  apply Forall_app_l in Hs. apply forallb_forall. intros c Hc.
  apply lowered_letter_or_space; [|now apply (proj1 (List.Forall_forall _ _) Hs)].
  now apply (proj1 (forallb_forall _ _) Hall).
Qed.

Lemma py_split_pieces (Q : ascii -> Prop) (sep : ascii) (s : text) :
  Forall Q s -> Forall (Forall Q) (py_split sep s).
Proof.
  induction 1 as [|c s Hc Hs IH]; cbn [py_split]; [repeat constructor|].
  destruct (Ascii.eqb c sep); [constructor; [constructor|exact IH]|].
  destruct (py_split sep s) as [|piece pieces]; [repeat constructor; exact Hc|].
  apply Forall_cons in IH as [Hp Hps]. constructor; [now constructor|exact Hps].
Qed.

Import KeywordAnalyzer.

Lemma keyword_loop_keywords (keyword_type : text) (lines : list text) :
  Forall (Forall lowered) lines ->
  forall capture_next keywords,
    Forall keyword_text keywords ->
    Forall keyword_text (keyword_loop keyword_type lines capture_next keywords).
Proof.
  induction 1 as [|line lines Hline Hlines IH]; intros capture_next keywords Hk;
    cbn [keyword_loop]; [exact Hk|].
  destruct (py_contains keyword_type line); [now apply IH|].
  destruct (capture_next && nonempty (py_strip line)); [|now apply IH].
  assert (Forall keyword_text
            (keywords ++ map py_strip
               (List.filter (fun w => (2 <? length (py_strip w))%nat)
                  (findall pattern_keyword line)))) as Hk'.
  { apply Forall_app. split; [exact Hk|]. apply Forall_map, List.Forall_forall.
    intros w Hw. apply filter_In in Hw as [Hw Hlen]. apply Nat.ltb_lt in Hlen.
    pose proof (findall_keyword line Hline) as Hall.
    apply (proj1 (List.Forall_forall _ _) Hall) in Hw as [H30 Hchars].
    destruct (py_strip_infix w) as (pre & post & Hinf).
    split; [lia|]. split; [pose proof (py_strip_length w); lia|].
    split; [|apply py_strip_idem]. rewrite Hinf in Hchars. now apply forallb_infix in Hchars. }
  destruct (5 <=? length _)%nat; [exact Hk'|now apply IH].
Qed.

Lemma strip_prefix_Some (sub s r : text) : strip_prefix sub s = Some r <-> s = sub ++ r.
Proof.
  revert s. induction sub as [|a sub IH]; intros s; cbn [strip_prefix app].
  - split; [now intros [= ->]|now intros ->].
  - destruct s as [|b s]; [split; discriminate|].
    destruct (Ascii.eqb_spec a b) as [->|Hab].
    + rewrite IH. split; [now intros ->|now intros [= ->]].
    + split; [discriminate|intros [= -> _]; done].
Qed.

(** [sub in s] holds when [s] is some text, [sub], and some text. *)
Lemma py_contains_spec (sub s : text) :
  py_contains sub s = true <-> exists pre post, s = pre ++ sub ++ post.
Proof.
  induction s as [|c s IH]; cbn [py_contains].
  - destruct (strip_prefix sub []) as [r|] eqn:Hp.
    + apply strip_prefix_Some in Hp. split; [|done]. intros _. now exists [], r.
    + split; [discriminate|]. intros (pre & post & H).
      destruct pre; [|discriminate]. cbn in H.
      apply (proj2 (strip_prefix_Some sub [] post)) in H. congruence.
  - destruct (strip_prefix sub (c :: s)) as [r|] eqn:Hp.
    + apply strip_prefix_Some in Hp. split; [|done]. intros _. now exists [], r.
    + rewrite IH. split.
      * intros (pre & post & ->). now exists (c :: pre), post.
      * intros (pre & post & H). destruct pre as [|d pre].
        -- cbn in H. apply (proj2 (strip_prefix_Some sub (c :: s) post)) in H. congruence.
        -- injection H as -> ->. now exists pre, post.
Qed.

Lemma py_split_head (sep : ascii) (s p : text) (ps : list text) :
  py_split sep s = p :: ps -> exists b, s = p ++ b.
Proof.
  revert p ps. induction s as [|c s IH]; intros p ps; cbn [py_split].
  - intros [= <- <-]. now exists [].
  - destruct (Ascii.eqb c sep); [intros [= <- <-]; now exists (c :: s)|].
    destruct (py_split sep s) as [|q qs].
    + intros [= <- <-]. exists s. reflexivity.
    + intros [= <- <-]. destruct (IH q qs eq_refl) as [b ->]. now exists b.
Qed.

(** Every piece of a split text is a part of the text. *)
Lemma py_split_infix (sep : ascii) (s piece : text) :
  In piece (py_split sep s) -> exists a b, s = a ++ piece ++ b.
Proof.
  revert piece. induction s as [|c s IH]; intros piece; cbn [py_split].
  - intros [<-|[]]. now exists [], [].
  - destruct (Ascii.eqb c sep).
    + intros [<-|H]; [now exists [], (c :: s)|].
      destruct (IH _ H) as (a & b & ->). now exists (c :: a), b.
    + destruct (py_split sep s) as [|p ps] eqn:Hsplit.
      * intros [<-|[]]. exists [], s. reflexivity.
      * intros [<-|H].
        -- destruct (py_split_head _ _ _ _ Hsplit) as [b ->]. now exists [], b.
        -- destruct (IH piece (or_intror H)) as (a & b & ->). now exists (c :: a), b.
Qed.

Lemma py_contains_piece (sep : ascii) (sub s piece : text) :
  In piece (py_split sep s) -> py_contains sub piece = true -> py_contains sub s = true.
Proof.
  intros Hp Hc. apply py_split_infix in Hp as (a & b & ->).
  apply py_contains_spec in Hc as (pre & post & ->). apply py_contains_spec.
  exists (a ++ pre), (post ++ b). now rewrite <- !app_assoc.
Qed.

Lemma py_split_single (sep : ascii) (s : text) :
  ~ In sep s -> py_split sep s = [s].
Proof.
  induction s as [|c s IH]; [reflexivity|]. intros H. cbn [py_split].
  destruct (Ascii.eqb_spec c sep) as [->|Hc]; [destruct H; now left|].
  rewrite IH; [reflexivity|]. intros Hin. apply H. now right.
Qed.

Lemma keyword_loop_no_label (keyword_type : text) (lines : list text) (keywords : list text) :
  Forall (fun line => py_contains keyword_type line = false) lines ->
  keyword_loop keyword_type lines false keywords = keywords.
Proof.
  induction 1 as [|line lines Hline Hlines IH]; cbn [keyword_loop]; [reflexivity|].
  now rewrite Hline.
Qed.

Lemma keyword_loop_all_labels (keyword_type : text) (lines : list text) :
  Forall (fun line => py_contains keyword_type line = true) lines ->
  forall capture_next keywords,
    keyword_loop keyword_type lines capture_next keywords = keywords.
Proof.
  induction 1 as [|line lines Hline Hlines IH]; intros c k; cbn [keyword_loop]; [reflexivity|].
  rewrite Hline. apply IH.
Qed.

Lemma lowered_infix (sub s : text) :
  py_contains sub (py_lower s) = true -> Forall lowered sub.
Proof.
  intros H. apply py_contains_spec in H as (pre & post & H).
  pose proof (py_lower_lowered s) as Hl. rewrite H in Hl. now apply Forall_infix in Hl.
Qed.

Local Open Scope string_scope.

(** X16.  [extract_keywords_from_response] returns at most five keywords;
    each has 3 to 30 characters, letters a-z and white space only, with no
    white space at either end. *)
Theorem extract_keywords_from_response_keywords (response keyword_type : string) :
  (length (extract_keywords_from_response response keyword_type) <= 5)%nat /\
  Forall (fun keyword => keyword_text (chars keyword))
    (extract_keywords_from_response response keyword_type).
Proof.
  unfold extract_keywords_from_response. split; [rewrite length_map, length_firstn; lia|].
  apply Forall_map, Forall_take.
  eapply Forall_impl.
  - apply keyword_loop_keywords; [|constructor]. apply py_split_pieces, py_lower_lowered.
  - intros k Hk. cbn. now rewrite chars_to_str.
Qed.

(** The label's own line is passed over, and the lines after it are read
    whatever they are, another label's line too. *)
Example extract_keywords_from_response_example :
  extract_keywords_from_response
    ("Primary keywords: red shoes, blue hat" +:+ String newline "Secondary keywords:"
       +:+ String newline "running gear")
    "primary"
  = ["secondary keywords"; "running gear"].
Proof. reflexivity. Qed.

(** X17.  When no keyword is returned: the lower-cased response does not
    contain [keyword_type]; in particular [keyword_type] holds a capital
    letter; [keyword_type] is empty (every line is then taken for a label);
    the response is a single line (the line of a label is passed over). *)
Theorem extract_keywords_from_response_nothing (response keyword_type : string) :
  (py_contains (chars keyword_type) (py_lower (chars response)) = false ->
   extract_keywords_from_response response keyword_type = []) /\
  (Exists (fun c => lower_char c <> c) (chars keyword_type) ->
   extract_keywords_from_response response keyword_type = []) /\
  (keyword_type = "" -> extract_keywords_from_response response keyword_type = []) /\
  (~ In newline (chars response) ->
   extract_keywords_from_response response keyword_type = []).
Proof.
  assert (py_contains (chars keyword_type) (py_lower (chars response)) = false ->
          extract_keywords_from_response response keyword_type = []) as Hnone.
  { intros H. unfold extract_keywords_from_response.
    rewrite keyword_loop_no_label; [reflexivity|].
    apply List.Forall_forall. intros line Hline.
    destruct (py_contains (chars keyword_type) line) eqn:Hc; [|reflexivity].
    now rewrite (py_contains_piece _ _ _ _ Hline Hc) in H. }
  split; [exact Hnone|]. split; [|split].
  - intros Hex. apply Hnone.
    destruct (py_contains _ _) eqn:Hc; [|reflexivity].
    apply lowered_infix in Hc. apply Exists_exists in Hex as (c & Hin & Hne).
    now apply (proj1 (Forall_forall _ _) Hc) in Hin.
  - intros ->. unfold extract_keywords_from_response.
    rewrite keyword_loop_all_labels; [reflexivity|].
    apply List.Forall_forall. intros line _. now destruct line.
  - intros Hnl. unfold extract_keywords_from_response.
    rewrite py_split_single.
    + cbn [keyword_loop]. now destruct (py_contains _ _).
    + unfold py_lower. rewrite in_map_iff. intros (c & Hc & Hin).
      assert (c = newline) as ->; [|done].
      revert Hc. destruct c as [[] [] [] [] [] [] [] []]; vm_compute; congruence.
Qed.

Lemma extract_keywords_from_response_nothing_witness :
  KeywordAnalyzer.extract_keywords_from_response
    ("Primary keywords:" +:+ String newline "wireless headphones") "Primary" = [] /\
  KeywordAnalyzer.extract_keywords_from_response
    "primary keywords: wireless headphones, bluetooth" "primary" = [].
Proof.
  split.
  - apply (proj1 (proj2 (extract_keywords_from_response_nothing _ _))).
    constructor. discriminate.
  - apply (proj2 (proj2 (proj2 (extract_keywords_from_response_nothing _ _)))).
    vm_compute. intros H. repeat (destruct H as [H|H]; [discriminate H|]). exact H.
Defined.

End Keywords.

(** ** The commercial value *)

Section CommercialValue.
Local Open Scope string_scope.

Lemma keyword_patterns_set_group :
  Forall (fun p => sets_group p = true) KeywordAnalyzer.patterns.
Proof. repeat constructor. Qed.

Lemma keyword_patterns_need_digit :
  Forall (fun p => needs_digit p = true) KeywordAnalyzer.patterns.
Proof. repeat constructor. Qed.

Lemma keyword_patterns_numeral_groups : Forall numeral_groups KeywordAnalyzer.patterns.
Proof. repeat constructor. Qed.

Lemma keyword_score_loop_value (ps : list regex) (txt : text) (default : float) :
  Forall (fun p => sets_group p = true) ps -> Forall numeral_groups ps ->
  exists v, KeywordAnalyzer.score_loop ps txt default = Ok v /\
    (v = default /\ Forall (fun p => re_search p (py_lower txt) = None) ps \/
     exists p w, p ∈ ps /\ re_search p (py_lower txt) = Some (Some w) /\
       numeral_text w /\ py_float w = Some v).
Proof.
  induction 1 as [|p ps Hp _ IH]; intros Hn; cbn [KeywordAnalyzer.score_loop].
  - exists default. split; [reflexivity|]. left. split; [reflexivity|constructor].
  - apply Forall_cons in Hn as [Hnp Hn]. destruct (IH Hn) as (v & Hv & Hcases).
    destruct (re_search p (py_lower txt)) as [g|] eqn:E.
    + destruct (re_search_group _ _ _ Hp E) as [w ->].
      pose proof (re_search_numeral _ _ _ Hnp E) as Hw.
      destruct (py_float_numeral w Hw) as [f Hf]. cbn [float_of_group]. rewrite Hf.
      exists f. split; [reflexivity|]. right. exists p, w.
      split; [apply elem_of_cons; now left|]. done.
    + exists v. split; [exact Hv|].
      destruct Hcases as [[-> Hall]|(q & w & Hq & Hs & Hw & Hf)].
      * left. split; [reflexivity|]. now constructor.
      * right. exists q, w. split; [apply elem_of_cons; now right|]. done.
Qed.

(** X18.  [KeywordAnalyzer.extract_numeric_score] always returns.  Its
    result is the default, when no pattern matches, or the float of the
    numeral that a pattern captures; a text without a digit gives the
    default. *)
Theorem keyword_extract_numeric_score (txt : string) (default : float) :
  exists v,
    KeywordAnalyzer.extract_numeric_score txt default = Ok v /\
    (v = default /\
       Forall (fun p => re_search p (py_lower (chars txt)) = None) KeywordAnalyzer.patterns
     \/
     exists p w, p ∈ KeywordAnalyzer.patterns /\
       re_search p (py_lower (chars txt)) = Some (Some w) /\
       numeral_text w /\ py_float w = Some v) /\
    (no_digit (chars txt) = true -> v = default).
Proof.
  destruct (keyword_score_loop_value KeywordAnalyzer.patterns (chars txt) default
              keyword_patterns_set_group keyword_patterns_numeral_groups)
    as (v & Hv & Hcases).
  exists v. split; [exact Hv|]. split; [exact Hcases|].
  intros Hd. destruct Hcases as [[-> _]|(p & w & Hp & Hs & _)]; [reflexivity|].
  rewrite re_search_no_digit in Hs; [discriminate| |now rewrite no_digit_lower].
  now apply (proj1 (Forall_forall _ _) keyword_patterns_need_digit).
Qed.

(** A number below the scale is returned as it is; the commercial-value
    label has priority over an earlier value label. *)
Example keyword_extract_numeric_score_examples :
  KeywordAnalyzer.extract_numeric_score "Value: 0" 5.0 = Ok 0%float /\
  KeywordAnalyzer.extract_numeric_score "value 3 of 4, commercial value: 9" 5.0 = Ok 9.0%float /\
  KeywordAnalyzer.extract_numeric_score "high commercial value" 5.0 = Ok 5.0%float.
Proof. repeat split; reflexivity. Qed.

End CommercialValue.
